(** * Seneca: the action dispatcher of [seneca.js]

    A shallow embedding of the dispatcher core of [src/seneca.js]
    ([api_add], [api_act], [api_sub], [api_delegate], [do_act] and its
    helpers) and of the functions around it ([api_export], [api_depends],
    [api_decorate], [gate], [ungate], [make_log] and its helpers), the
    properties of the specification checked against it, and further
    properties of the code.

    Conventions of the embedding.
    - A JavaScript value is a [value]; a message (a plain object used as a
      map from attribute names to values) is a [gmap string value], and
      [_.extend(dst, src)] is the union in which [src] wins.
    - The instance state shared through [private$] (action cache, counters,
      routers, id generators) is the record [state]; every function of the
      source that touches it takes a [state] and returns the new one.
      Whatever the source logs, emits or calls back is appended to the
      [st_trace] of the state, in program order.
    - A handler, a continuation, a subscriber or an [errhandler] is a Rocq
      function giving what the JavaScript function does with its arguments
      (reply, throw, stay silent).
    - The libraries the source requires (patrun, nid, lru-cache,
      gate-executor, eraro) and the helpers of [lib/] that are not part of
      [seneca.js] are either variables of the section [Dispatcher] or small
      definitions marked as modelled from the specification.
    - The gate executor is taken to admit a task at once and to time out a
      handler that never answers; the lru-cache is taken below its size, so
      nothing is evicted.
    - Clock readings ([Date.now()]: [start], [when], [duration]), call points,
      the text of log entries and the hooks [on_act_in], [on_act_out] and
      [on_act_err], which [seneca.js] never sets, are left out of the
      dispatcher: no statement below is about them.
    - [handle_sub] writes [meta$.sub] into the [meta$] object that the clone
      it works on shares with the message of the call; the embedding shows
      it on the message given to the subscribers only, and no statement
      below is about [meta$.sub] elsewhere.
    - A handler answers once: it calls its continuation, throws, or stays
      silent; what it does besides (other calls, [prior]) is a step of its
      own on the state.
    - [api_add] sets [actmeta.msgcanon = Jsonic(actmeta.pattern)]; jsonic is
      taken to parse the canonical pattern it is given (it throws
      otherwise), and [msgcanon], which the dispatcher does not read, is
      left out of the metadata. *)

From stdpp Require Import base strings gmap list pretty.
From Stdlib Require Import ZArith Lia Ascii String.

#[local] Set Warnings "-register-all,-notation-for-abbreviation".
#[local] Open Scope string_scope.

(** ** JavaScript values *)

Inductive value : Type :=
| VUndef
| VNull
| VBool (b : bool)
| VNum (n : Z)
| VStr (s : string)
| VObj (fields : list (string * value))    (* a plain object *)
| VArr (items : list value)
| VFun (source : string)                   (* a function, by its source text *)
| VOther (fields : list (string * value)). (* an object that is not plain *)

(** [!!v] *)
Definition truthy (v : value) : bool :=
  match v with
  | VUndef | VNull => false
  | VBool b => b
  | VNum n => negb (n =? 0)%Z
  | VStr s => negb (String.eqb s "")
  | VObj _ | VArr _ | VFun _ | VOther _ => true
  end.

(** [a || b] *)
Definition js_or (a b : value) : value := if truthy a then a else b.

(** [v == null] *)
Definition is_nullish (v : value) : bool :=
  match v with VUndef | VNull => true | _ => false end.

Definition isUndefined (v : value) : bool :=
  match v with VUndef => true | _ => false end.

Definition isPlainObject (v : value) : bool :=
  match v with VObj _ => true | _ => false end.

Definition isArray (v : value) : bool :=
  match v with VArr _ => true | _ => false end.

Definition isFunction (v : value) : bool :=
  match v with VFun _ => true | _ => false end.

(** [_.isObject]: objects, arrays and functions. *)
Definition isObject (v : value) : bool :=
  match v with VObj _ | VArr _ | VFun _ | VOther _ => true | _ => false end.

Fixpoint assoc (k : string) (l : list (string * value)) : value :=
  match l with
  | [] => VUndef
  | (k', v) :: l' => if String.eqb k k' then v else assoc k l'
  end.

(** [v.k] where [v] is not [null] or [undefined]. *)
Definition prop (v : value) (k : string) : value :=
  match v with
  | VObj fs | VOther fs => assoc k fs
  | _ => VUndef
  end.

(** [v === true] *)
Definition is_true (v : value) : bool :=
  match v with VBool true => true | _ => false end.

(** [v === s] for a string [s] *)
Definition is_str (s : string) (v : value) : bool :=
  match v with VStr s' => String.eqb s' s | _ => false end.

Definition join (sep : string) (l : list string) : string := String.concat sep l.

(** ['' + v] *)
Fixpoint to_str (v : value) : string :=
  match v with
  | VUndef => "undefined"
  | VNull => "null"
  | VBool true => "true"
  | VBool false => "false"
  | VNum n => pretty n
  | VStr s => s
  | VObj _ | VOther _ => "[object Object]"
  | VArr l => join "," (map (fun x => if is_nullish x then "" else to_str x) l)
  | VFun src => src
  end.

(** [s.split('/')] *)
Fixpoint split_slash (s : string) : list string :=
  match s with
  | "" => [""]
  | String a s' =>
      if Ascii.eqb a "/"%char then "" :: split_slash s'
      else match split_slash s' with
           | h :: t => String a h :: t
           | [] => [String a ""]
           end
  end.

(** ** Messages *)

Notation msg := (gmap string value).

(** [m.k] *)
Definition get (m : msg) (k : string) : value := default VUndef (m !! k).

(** [_.extend(dst, src)]: the properties of [src] are assigned onto [dst]. *)
Definition extend (dst src : msg) : msg := src ∪ dst.

Definition msg_of (v : value) : msg :=
  match v with VObj fs | VOther fs => list_to_map fs | _ => ∅ end.

Fixpoint ends_with_dollar (s : string) : bool :=
  match s with
  | "" => false
  | String a "" => Ascii.eqb a "$"%char
  | String _ s' => ends_with_dollar s'
  end.

(** Modelled from the spec: [Common.clean] of [lib/common.js], which is not
    part of [seneca.js]. "Reserved suffixed attributes (names ending in [$])
    ... are stripped before match." *)
Definition clean (m : msg) : msg :=
  filter (fun kv => ends_with_dollar kv.1 = false) m.

Fixpoint insert_sorted (s : string) (l : list string) : list string :=
  match l with
  | [] => [s]
  | h :: t => if String.leb s h then s :: l else h :: insert_sorted s t
  end.

Definition sort_strings (l : list string) : list string :=
  foldr insert_sorted [] l.

(** Modelled from the spec: [Common.pattern] of [lib/common.js], which is not
    part of [seneca.js]. "Canonical pattern: the sorted [k:v,k:v] string
    form used for equality comparisons." *)
Definition canon (m : msg) : string :=
  join "," (sort_strings (map (fun kv => kv.1 ++ ":" ++ to_str kv.2) (map_to_list m))).

(** [_.keys(m)] as a JavaScript array. *)
Definition keys (m : msg) : value := VArr (map (fun kv => VStr kv.1) (map_to_list m)).

(** ** Errors

    An error value as the dispatcher looks at it: [code], the [seneca] mark
    that eraro puts on the errors it builds, the message, and [orig], the
    error it wraps. *)

Inductive error : Type :=
  Err { e_code : string; e_seneca : bool; e_message : string; e_orig : option error }.

(** [internals.error(code, details)] *)
Definition internals_error (code : string) : error :=
  {| e_code := code; e_seneca := true; e_message := "seneca: " ++ code; e_orig := None |}.

(** [internals.error(ex, code, details)] *)
Definition internals_error_wrap (ex : error) (code : string) : error :=
  {| e_code := code; e_seneca := true; e_message := e_message ex; e_orig := Some ex |}.

(** [new Error(message)] *)
Definition new_Error (message : string) : error :=
  {| e_code := ""; e_seneca := false; e_message := message; e_orig := None |}.

(** The first argument a handler gives to its continuation: [null] or
    [undefined], a value that is falsy without being [null] ([false], [0],
    ['']), or an error. *)
Inductive errarg : Type :=
| ENull
| EFalsy
| EErr (e : error).

(** The outcome of a call that may throw. *)
Inductive completion (A : Type) : Type :=
| Normal (a : A)
| Thrown (ex : error).
Arguments Normal {A} a.
Arguments Thrown {A} ex.

(** ** Options: the part of [internals.defaults] the dispatcher reads *)

Record options : Type := {
  debug_act_caller : bool;
  strict_result : bool;
  strict_fixedargs : bool;
  strict_add : bool;
  strict_find : bool;
  strict_maxloop : Z;
  actcache_active : bool;
  trace_unknown : bool;
  internal_catchall : bool;
  legacy_error_codes : bool;
  (* [so.errhandler]: whether what it returns is truthy *)
  errhandler : option (error -> bool)
}.

Definition defaults : options := {|
  debug_act_caller := false;
  strict_result := true;
  strict_fixedargs := true;
  strict_add := false;
  strict_find := true;
  strict_maxloop := 11;
  actcache_active := true;
  trace_unknown := true;
  internal_catchall := false;
  legacy_error_codes := true;
  errhandler := None
|}.

(** ** Action metadata *)

(** What a handler does with the message it is called with: it calls its
    continuation with [(err, result)], it throws, or it never answers. *)
Inductive outcome : Type :=
| Done (err : errarg) (result : value)
| Throws (ex : error)
| Silent.

(** An action function with the properties [api_add] reads from it. *)
Record action : Type := {
  fn_name : string;
  fn_call : msg -> outcome;
  fn_validate : value;   (* [action.validate] *)
  fn_handle : bool       (* [_.isFunction(action.handle)] *)
}.

Inductive actmeta : Type :=
  ActMeta {
    am_raw : msg;
    am_plugin_name : string;
    am_plugin_tag : string;
    am_plugin_fullname : string;
    am_sub : bool;
    am_client : bool;
    am_deprecate : value;
    am_args : msg;
    am_rules : msg;
    am_id : string;
    am_func : action;
    am_pattern : string;
    am_priormeta : option actmeta;
    am_priorpath : string;
    am_handle : bool;                          (* [_.isFunction(actmeta.handle)] *)
    am_validate : option (msg -> option string) (* [actmeta.validate], giving the message of its error *)
  }.

(** The call context [prior_ctxt]. *)
Record ctxt : Type := { chain : list string; entry : bool; depth : Z }.

(** ** Instances: the root and its delegates *)

Inductive instance : Type :=
| Root (fixed : msg)
| Delegate (self : instance) (did : string) (fixed : msg).

Definition fixedargs (i : instance) : msg :=
  match i with Root f | Delegate _ _ f => f end.

Definition set_fixedarg (k : string) (v : value) (i : instance) : instance :=
  match i with
  | Root f => Root (<[k := v]> f)
  | Delegate s d f => Delegate s d (<[k := v]> f)
  end.

(** ** The state behind [private$] and what an instance does to the world *)

Record counters : Type := { calls : nat; dones : nat; fails : nat; cached : nat }.

Definition zero : counters := {| calls := 0; dones := 0; fails := 0; cached := 0 |}.

(** [result = arrayify(arguments)] of [act_done]: [result[0]], [result[1]]. *)
Definition tuple : Type := errarg * value.

Record cache_entry : Type := { ce_result : tuple; ce_actmeta : option actmeta }.

(** A subscriber function: [None] when it returns, [Some ex] when it throws. *)
Record subfunc : Type := { sf_name : string; sf_call : msg -> value -> option error }.

(** The array [subs] with its [pattern] property. *)
Record sublist : Type := { subs_pattern : string; subs_funcs : list subfunc }.

Inductive tick : Type := Now | NextTick.

Inductive event : Type :=
| EvLog (level kind case : string)
| EvActIn (callargs : msg)                         (* [emit('act-in', callargs)] *)
| EvActOut (callargs : msg) (result : value)       (* [emit('act-out', callargs, result)] *)
| EvActErr (callargs : msg) (err : error)          (* [emit('act-err', callargs, err)] *)
| EvSub (name : string) (args : msg) (result : value)   (* a subscriber is called *)
| EvHandler (id : string) (callargs : msg)         (* [actmeta.func] is called *)
| EvErrhandler (err : error)                       (* [so.errhandler] is called *)
| EvCallback (t : tick) (result : tuple)           (* [actdone] is applied to the tuple *)
| EvHandle (id : string) (pattern : msg) (action_ : action)   (* [priormeta.handle(pattern, action)] *)
| EvTimePoint (pattern : string)                   (* [timestats.point] *)
| EvDie (err : error).                             (* [instance.die(err)] *)

Record state : Type := {
  st_actcache : gmap string cache_entry;
  st_stats_act : counters;
  st_stats_actmap : gmap string counters;
  st_actrouter : list (msg * actmeta);
  st_subrouter : list (msg * sublist);
  st_handle_sub : bool;                        (* [private$.handle_sub] is set *)
  st_action_modifiers : list (actmeta -> actmeta);
  st_closed : bool;                            (* [root.closed] *)
  st_nids : nat;                               (* identifiers generated so far *)
  st_trace : list event
}.

Definition initial : state := {|
  st_actcache := ∅;
  st_stats_act := zero;
  st_stats_actmap := ∅;
  st_actrouter := [];
  st_subrouter := [];
  st_handle_sub := false;
  st_action_modifiers := [];
  st_closed := false;
  st_nids := 0;
  st_trace := []
|}.

Definition with_actcache (f : gmap string cache_entry -> gmap string cache_entry) (st : state) : state :=
  {| st_actcache := f (st_actcache st); st_stats_act := st_stats_act st;
     st_stats_actmap := st_stats_actmap st; st_actrouter := st_actrouter st;
     st_subrouter := st_subrouter st; st_handle_sub := st_handle_sub st;
     st_action_modifiers := st_action_modifiers st; st_closed := st_closed st;
     st_nids := st_nids st; st_trace := st_trace st |}.

Definition with_stats_act (f : counters -> counters) (st : state) : state :=
  {| st_actcache := st_actcache st; st_stats_act := f (st_stats_act st);
     st_stats_actmap := st_stats_actmap st; st_actrouter := st_actrouter st;
     st_subrouter := st_subrouter st; st_handle_sub := st_handle_sub st;
     st_action_modifiers := st_action_modifiers st; st_closed := st_closed st;
     st_nids := st_nids st; st_trace := st_trace st |}.

Definition with_stats_actmap (f : gmap string counters -> gmap string counters) (st : state) : state :=
  {| st_actcache := st_actcache st; st_stats_act := st_stats_act st;
     st_stats_actmap := f (st_stats_actmap st); st_actrouter := st_actrouter st;
     st_subrouter := st_subrouter st; st_handle_sub := st_handle_sub st;
     st_action_modifiers := st_action_modifiers st; st_closed := st_closed st;
     st_nids := st_nids st; st_trace := st_trace st |}.

Definition with_actrouter (f : list (msg * actmeta) -> list (msg * actmeta)) (st : state) : state :=
  {| st_actcache := st_actcache st; st_stats_act := st_stats_act st;
     st_stats_actmap := st_stats_actmap st; st_actrouter := f (st_actrouter st);
     st_subrouter := st_subrouter st; st_handle_sub := st_handle_sub st;
     st_action_modifiers := st_action_modifiers st; st_closed := st_closed st;
     st_nids := st_nids st; st_trace := st_trace st |}.

Definition with_subrouter (f : list (msg * sublist) -> list (msg * sublist)) (st : state) : state :=
  {| st_actcache := st_actcache st; st_stats_act := st_stats_act st;
     st_stats_actmap := st_stats_actmap st; st_actrouter := st_actrouter st;
     st_subrouter := f (st_subrouter st); st_handle_sub := st_handle_sub st;
     st_action_modifiers := st_action_modifiers st; st_closed := st_closed st;
     st_nids := st_nids st; st_trace := st_trace st |}.

Definition with_handle_sub (b : bool) (st : state) : state :=
  {| st_actcache := st_actcache st; st_stats_act := st_stats_act st;
     st_stats_actmap := st_stats_actmap st; st_actrouter := st_actrouter st;
     st_subrouter := st_subrouter st; st_handle_sub := b;
     st_action_modifiers := st_action_modifiers st; st_closed := st_closed st;
     st_nids := st_nids st; st_trace := st_trace st |}.

Definition with_nids (n : nat) (st : state) : state :=
  {| st_actcache := st_actcache st; st_stats_act := st_stats_act st;
     st_stats_actmap := st_stats_actmap st; st_actrouter := st_actrouter st;
     st_subrouter := st_subrouter st; st_handle_sub := st_handle_sub st;
     st_action_modifiers := st_action_modifiers st; st_closed := st_closed st;
     st_nids := n; st_trace := st_trace st |}.

(** Events are kept in program order: the newest is the last. *)
Definition push (ev : event) (st : state) : state :=
  {| st_actcache := st_actcache st; st_stats_act := st_stats_act st;
     st_stats_actmap := st_stats_actmap st; st_actrouter := st_actrouter st;
     st_subrouter := st_subrouter st; st_handle_sub := st_handle_sub st;
     st_action_modifiers := st_action_modifiers st; st_closed := st_closed st;
     st_nids := st_nids st; st_trace := app (st_trace st) [ev] |}.

Definition bump_calls (c : counters) : counters :=
  {| calls := S (calls c); dones := dones c; fails := fails c; cached := cached c |}.
Definition bump_dones (c : counters) : counters :=
  {| calls := calls c; dones := S (dones c); fails := fails c; cached := cached c |}.
Definition bump_fails (c : counters) : counters :=
  {| calls := calls c; dones := dones c; fails := S (fails c); cached := cached c |}.
Definition bump_cached (c : counters) : counters :=
  {| calls := calls c; dones := dones c; fails := fails c; cached := S (cached c) |}.

Definition bump_at (f : counters -> counters) (pattern : string) (m : gmap string counters)
  : gmap string counters :=
  <[pattern := f (default zero (m !! pattern))]> m.

(** [o[k] = v] on an object value. *)
Definition set_prop (o : value) (k : string) (v : value) : value :=
  match o with
  | VObj fs => VObj ((k, v) :: fs)
  | VOther fs => VOther ((k, v) :: fs)
  | _ => o
  end.

Definition is_enull (e : errarg) : bool :=
  match e with ENull => true | _ => false end.

(** ** The dispatcher *)

Section Dispatcher.

(** [nid n]: the identifier the generators of the nid library give at
    their [n]-th call. *)
Variable nid : nat -> string.

(** [Actions.find] of [lib/actions.js] over the patrun router of actions:
    [actions_find routes subject catchall] is what
    [instance.find(subject, {catchall: catchall})] returns when [routes]
    have been installed, in this order. *)
Variable actions_find : list (msg * actmeta) -> msg -> bool -> option actmeta.

(** [patrun.find] over the router of subscribers: the position of the
    entry it returns. *)
Variable patrun_find : list (msg * sublist) -> msg -> option nat.

(** The text [debug.act_caller] puts in [caller$]. *)
Variable caller_text : msg -> string.

Variable so : options.

Definition idgen (st : state) : string * state :=
  (nid (st_nids st), with_nids (S (st_nids st)) st).

Definition refnid (st : state) : string * state :=
  let '(i, st) := idgen st in ("(" ++ i ++ ")", st).

Definition die (err : error) (st : state) : state := push (EvDie err) st.

(** *** [api_delegate] and the [delegate] method of an instance *)

Definition api_delegate (self : instance) (fixedargs_ : option msg) (st : state)
  : instance * state :=
  let fixedargs_ := default ∅ fixedargs_ in
  let '(did, st) := refnid st in
  (Delegate self did
     (if strict_fixedargs so
      then extend (extend ∅ fixedargs_) (fixedargs self)
      else extend (extend ∅ (fixedargs self)) fixedargs_),
   st).

(** [holder.delegate.call(this, args)]: the root has [api_delegate]; a
    delegate has the wrapper that [api_delegate] installed on it, which
    prepends its own fixedargs and calls the [delegate] of the instance it
    was made from. *)
Fixpoint delegate_call (holder this : instance) (further : option msg) (st : state)
  : instance * state :=
  match holder with
  | Root _ => api_delegate this further st
  | Delegate self _ fixed =>
      delegate_call self this (Some (extend (extend ∅ fixed) (default ∅ further))) st
  end.

Definition delegate_method (i : instance) (further : option msg) (st : state)
  : instance * state :=
  delegate_call i i further st.

(** *** [api_sub]: [handle_sub], [annotate] and the registration *)

Definition handle_sub (args : msg) (result : value) (st : state) : state :=
  let args := <["meta$" := js_or (get args "meta$") (VObj [])]> args in
  if negb (is_true (prop (get args "meta$") "entry")) then st
  else
    match patrun_find (st_subrouter st) args ≫= (fun i => st_subrouter st !! i) with
    | Some (_, subfuncs) =>
        let args :=
          <["meta$" := set_prop (get args "meta$") "sub" (VStr (subs_pattern subfuncs))]> args in
        foldl (fun st subfunc =>
                 let st := push (EvSub (sf_name subfunc) args result) st in
                 match sf_call subfunc args result with
                 | None => st
                 | Some ex => push (EvLog "error" "sub" "sub_function_catch") st
                 end)
              st (subs_funcs subfuncs)
    | None => st
    end.

Definition annotate (prop_ : string) (args : msg) (result : value) (st : state) : state :=
  handle_sub (<[prop_ := VBool true]> args) result st.

(** [emit('act-in', callargs)] and [emit('act-out', callargs, result)]:
    the listeners are those [api_sub] installs. *)
Definition emit_act_in (callargs : msg) (st : state) : state :=
  let st := push (EvActIn callargs) st in
  if st_handle_sub st then annotate "in$" callargs VUndef st else st.

Definition emit_act_out (callargs : msg) (result : value) (st : state) : state :=
  let st := push (EvActOut callargs result) st in
  if st_handle_sub st then annotate "out$" callargs result st else st.

Definition api_sub (self : instance) (pattern : msg) (action_ : subfunc) (st : state) : state :=
  let pattern :=
    if is_nullish (get pattern "in$") && is_nullish (get pattern "out$") &&
       is_nullish (get pattern "error$") && is_nullish (get pattern "cache$") &&
       is_nullish (get pattern "default$") && is_nullish (get pattern "client$")
    then <["in$" := VBool true]> pattern else pattern in
  let st := if st_handle_sub st then st else with_handle_sub true st in
  match patrun_find (st_subrouter st) pattern ≫= (fun i => (fun e => (i, e)) <$> st_subrouter st !! i) with
  | Some (i, (p, subs)) =>
      with_subrouter
        (fun r => <[i := (p, {| subs_pattern := subs_pattern subs;
                                subs_funcs := app (subs_funcs subs) [action_] |})]> r) st
  | None =>
      with_subrouter
        (fun r => app r [(pattern, {| subs_pattern := canon pattern; subs_funcs := [action_] |})]) st
  end.

(** *** The action cache *)

(** [private$.actcache] is an lru-cache when [actcache.active] and
    [{ set: _.noop }] otherwise. Eviction is not modelled: the cache is
    taken below its [max]. *)
Definition actcache_set (actid : string) (e : cache_entry) (st : state) : state :=
  if actcache_active so then with_actcache (fun c => <[actid := e]> c) st else st.

(** The cache keeps the array [result] itself, so what [act_done] and its
    helpers assign to [result[0]] after [actcache.set] shows in the entry. *)
Definition actcache_alias (actid : string) (result : tuple) (st : state) : state :=
  if actcache_active so
  then with_actcache (fun c => match c !! actid with
                               | Some e => <[actid := {| ce_result := result;
                                                         ce_actmeta := ce_actmeta e |}]> c
                               | None => c
                               end) st
  else st.

(** The keys of the cache are strings; a key of another type matches none. *)
Definition actcache_get (actid : value) (st : state) : option cache_entry :=
  match actid with
  | VStr k => st_actcache st !! k
  | _ => None
  end.

Definition apply_actcache (instance_ : instance) (callargs origargs : msg) (prior_ctxt : ctxt)
    (actcb : option (tuple -> option error)) (st : state) : bool * state :=
  let actid := js_or (get callargs "id$") (get callargs "actid$") in
  if negb (is_nullish actid) && actcache_active so then
    match actcache_get actid st with
    | Some actdetails =>
        let st := with_stats_act bump_cached st in
        let st := push (EvLog "debug" "act" "CACHE") st in
        let st := push (EvCallback NextTick (ce_result actdetails)) st in
        (true, st)
    | None => (false, st)
    end
  else (false, st).

(** *** [act_stats_call] *)

Definition act_stats_call (pattern : string) (st : state) : state :=
  let st := with_stats_act bump_calls st in
  with_stats_actmap (bump_at bump_calls pattern) st.

(** *** [act_error] and [callback_error] *)

Definition is_perm (err : error) : bool :=
  match e_orig err with
  | Some o => String.prefix "perm/" (e_code o)
  | None => false
  end.

(** Returns [{call_cb, err}] and the array [result] as it leaves it. *)
Definition act_error (instance_ : instance) (err : error) (actmeta : option actmeta)
    (result : tuple) (callargs origargs : msg) (prior_ctxt : ctxt) (st : state)
  : (bool * error * tuple) * state :=
  let '(err, result) :=
    if negb (e_seneca err)
    then let err := internals_error_wrap err "act_execute" in (err, (EErr err, result.2))
    else if is_perm err
         then match e_orig err with
              | Some o => (o, (EErr o, result.2))
              | None => (err, result)
              end
         else (err, result) in
  let st := push (EvLog "error" "act" "ERR") st in
  let st := push (EvActErr callargs err) st in
  match errhandler so with
  | Some h =>
      if negb (truthy (get callargs "fatal$"))
      then ((negb (h err), err, result), push (EvErrhandler err) st)
      else ((true, err, result), st)
  | None => ((true, err, result), st)
  end.

Definition callback_error (instance_ : instance) (err : error) (actmeta : option actmeta)
    (result : tuple) (callargs origargs : msg) (prior_ctxt : ctxt) (st : state)
  : tuple * state :=
  let '(err, result) :=
    if negb (e_seneca err)
    then let err := internals_error_wrap err "act_callback" in (err, (EErr err, result.2))
    else (err, result) in
  let st := push (EvLog "error" "act" "ERR") st in
  let st := push (EvActErr callargs err) st in
  match errhandler so with
  | Some h => (result, push (EvErrhandler err) st)
  | None => (result, st)
  end.

(** *** [act_make_delegate] *)

Definition act_make_delegate (instance_ : instance) (tx : value) (callargs : msg)
    (actmeta : actmeta) (prior_ctxt : ctxt) (st : state) : instance * state :=
  let delegate_args : msg :=
    {[ "plugin$" := VObj [("name", VStr (am_plugin_name actmeta));
                          ("tag", VStr (am_plugin_tag actmeta))] ]} in
  let '(delegate, st) := delegate_method instance_ (Some delegate_args) st in
  let delegate := if truthy tx then set_fixedarg "tx$" tx delegate else delegate in
  (delegate, st).

(** What [delegate.prior(prior_args, prior_cb)] does: a call of [do_act]
    with these arguments, or a direct reply to [prior_cb]. *)
Inductive prior_step : Type :=
| PriorAct (instance_ : instance) (actmeta : actmeta) (prior_ctxt : ctxt) (origargs : msg)
| PriorReply (result : tuple).

Definition delegate_prior (delegate : instance) (tx : value) (callargs : msg)
    (actmeta : actmeta) (prior_ctxt : ctxt) (prior_args : msg) : prior_step :=
  match am_priormeta actmeta with
  | Some priormeta =>
      let sub_prior_ctxt :=
        {| chain := app (chain prior_ctxt) [am_id actmeta];
           entry := false;
           depth := depth prior_ctxt + 1 |} in
      let prior_args := delete "id$" prior_args in
      let prior_args := delete "gate$" prior_args in
      let prior_args := delete "actid$" prior_args in
      let prior_args := delete "meta$" prior_args in
      let prior_args := delete "transport$" prior_args in
      let prior_args :=
        if truthy (get callargs "default$")
        then <["default$" := get callargs "default$"]> prior_args else prior_args in
      let prior_args := <["tx$" := tx]> prior_args in
      PriorAct delegate priormeta sub_prior_ctxt prior_args
  | None =>
      PriorReply (ENull, if truthy (get callargs "default$")
                         then get callargs "default$" else VNull)
  end.

(** *** [validate_action_message] *)

Definition validate_action_message (msg_ : msg) (actmeta : actmeta)
    (done : option error -> state -> state) (st : state) : state :=
  match am_validate actmeta with
  | None => done None st
  | Some validate =>
      match validate msg_ with
      | None => done None st
      | Some message =>
          done (Some (internals_error
                        (if legacy_error_codes so then "act_invalid_args"
                         else "act_invalid_msg"))) st
      end
  end.

(** *** [executable_action] *)

(** [_.matches({action: id})] *)
Definition matches_action (id : string) (entry_ : value) : bool :=
  is_str id (prop entry_ "action").

Definition executable_action (prior_ctxt : ctxt) (args callargs origargs : msg)
    (actmeta : option actmeta) (act_instance : instance)
    (action_done : errarg -> value -> state -> state) (st : state) : bool * state :=
  match actmeta with
  | Some am =>
      match get args "history$" with
      | VArr history =>
          if (0 <? List.length history)%nat then
            let repeat_count := List.length (List.filter (matches_action (am_id am)) history) in
            if (strict_maxloop so <? Z.of_nat repeat_count)%Z then
              let err := internals_error "act_loop" in
              (false, action_done (EErr err) VUndef st)
            else (true, st)
          else (true, st)
      | _ => (true, st)
      end
  | None =>
      (* action pattern not found *)
      if isPlainObject (get args "default$") || isArray (get args "default$") then
        let st := push (EvLog "debug" "act" "DEFAULT") st in
        (false, action_done ENull (get args "default$") st)
      else
        let errcode :=
          if negb (isUndefined (get args "default$")) then "act_default_bad"
          else "act_not_found" in
        let err := internals_error errcode in
        if truthy (get args "fatal$") then (false, die err st)
        else
          let st := if trace_unknown so then push (EvLog "warn" "act" "UNKNOWN") st else st in
          (false, action_done (EErr err) VUndef st)
  end.

(** *** [do_act]: its closures [act_done] and [execute_action], then itself *)

(** The legacy patterns that may answer with something else than an
    object or an array. *)
Definition legacy_pattern (callargs : msg) : bool :=
  is_str "generate_id" (get callargs "cmd") || is_true (get callargs "note") ||
  is_str "native" (get callargs "cmd") || is_str "quickcode" (get callargs "cmd").

Definition objarr (resdata : value) : bool :=
  isPlainObject resdata || isArray resdata ||
  truthy (prop resdata "entity$") || truthy (prop resdata "force$").

(** [act_done], with the variables of [do_act] it closes over as
    parameters: [actmeta], [args] and [callargs] as [execute_action] has
    left them, and [actstats] (the pattern whose counters [act_stats_call]
    gave, if it ran). [actdone] is the continuation of the caller, [None]
    for [_.noop]; it gives [Some ex] when it throws [ex]. *)
Definition act_done (instance_ : instance) (actmeta : option actmeta) (prior_ctxt : ctxt)
    (args callargs origargs : msg) (actid : string) (actstats : option string)
    (actdone : option (tuple -> option error))
    (err : errarg) (res : value) (st : state) : state :=
  let depth_ := (depth prior_ctxt - 1)%Z in
  let entry_ := (depth_ <=? 0)%Z in
  let st :=
    match actmeta with
    | Some am => if entry_ then push (EvTimePoint (am_pattern am)) st else st
    | None => st
    end in
  let result : tuple := (err, res) in
  let resdata := res in
  let checked : completion errarg :=
    if is_enull err && negb (is_nullish resdata) && negb (objarr resdata) &&
       strict_result so
    then if negb (legacy_pattern callargs)
         then match actmeta with
              | Some am => Normal (EErr (internals_error "result_not_objarr"))
              | None => Thrown (new_Error "TypeError: actmeta is undefined")
              end
         else Normal err
    else Normal err in
  let finish (call_cb : bool) (result : tuple) (st : state) : state :=
    if call_cb then
      let st := push (EvCallback Now result) st in
      match actdone ≫= (fun k => k result) with
      | None => st
      | Some ex =>
          (* for exceptions thrown inside the callback *)
          let '(result, st) :=
            callback_error instance_ ex actmeta result callargs origargs prior_ctxt st in
          actcache_alias actid result st
      end
    else st in
  match checked with
  | Thrown ex =>
      (* [instance.emit('error', ex)]: [root.die] listens to it *)
      die ex st
  | Normal err =>
      let st := actcache_set actid {| ce_result := result; ce_actmeta := actmeta |} st in
      match err with
      | EErr e =>
          let st := with_stats_act bump_fails st in
          let st :=
            match actstats with
            | Some p => with_stats_actmap (bump_at bump_fails p) st
            | None => st
            end in
          let '((call_cb, err_, result), st) :=
            act_error instance_ e actmeta result callargs origargs prior_ctxt st in
          let st := actcache_alias actid result st in
          if truthy (get args "fatal$") then die err_ st
          else
            let result := (EErr err_, result.2) in
            let st := actcache_alias actid result st in
            finish call_cb result st
      | ENull | EFalsy =>
          let st := emit_act_out callargs res st in
          let result := (ENull, res) in
          let st := actcache_alias actid result st in
          let st := push (EvLog "debug" "act" "OUT") st in
          let st :=
            match actstats with
            | Some p => with_stats_actmap (bump_at bump_dones p) (with_stats_act bump_dones st)
            | None => st
            end in
          finish true result st
      end
  end.

Definition make_meta (actid : string) (tx : value) (actmeta : actmeta) (prior_ctxt : ctxt)
    (is_sync : bool) : value :=
  VObj [("id", VStr actid);
        ("tx", tx);
        ("pattern", VStr (am_pattern actmeta));
        ("action", VStr (am_id actmeta));
        ("entry", VBool (entry prior_ctxt));
        ("chain", VArr (map VStr (chain prior_ctxt)));
        ("sync", VBool is_sync);
        ("plugin_name", VStr (am_plugin_name actmeta));
        ("plugin_tag", VStr (am_plugin_tag actmeta))].

(** [execute_action], called by the gate executor as [execspec.fn]; the
    executor is taken to admit the task at once. A handler that throws is
    caught by [execspec.fn]; one that never answers is timed out by the
    executor, which calls [execspec.ontm]. *)
Definition execute_action (instance_ act_instance : instance) (actmeta : option actmeta)
    (prior_ctxt : ctxt) (args origargs : msg) (actid : string) (tx : value)
    (actdone : option (tuple -> option error)) (st : state) : state :=
  let is_sync := bool_decide (is_Some actdone) in
  let actmeta :=
    match actmeta with
    | Some am => Some am
    | None => actions_find (st_actrouter st) args (internal_catchall so)
    end in
  let callargs := args in
  let action_done :=
    act_done instance_ actmeta prior_ctxt args callargs origargs actid None actdone in
  match executable_action prior_ctxt args callargs origargs actmeta act_instance action_done st,
        actmeta with
  | (true, st), Some am =>
      validate_action_message args am
        (fun err st =>
           match err with
           | Some err => action_done (EErr err) VUndef st
           | None =>
               let st := act_stats_call (am_pattern am) st in
               (* [callargs] is [args]: both lose the identifiers and get [meta$] *)
               let callargs := delete "id$" callargs in
               let callargs := delete "actid$" callargs in
               let callargs := <["meta$" := make_meta actid tx am prior_ctxt is_sync]> callargs in
               let args := callargs in
               let st :=
                 if truthy (am_deprecate am)
                 then push (EvLog "warn" "act" "DEPRECATED") st else st in
               let '(delegate, st) :=
                 act_make_delegate act_instance tx callargs am prior_ctxt st in
               let callargs :=
                 extend (extend (extend ∅ callargs) (fixedargs delegate)) {[ "tx$" := tx ]} in
               let action_done :=
                 act_done instance_ (Some am) prior_ctxt args callargs origargs actid
                   (Some (am_pattern am)) actdone in
               let st := if negb (am_sub am) then push (EvLog "debug" "act" "IN") st else st in
               let st := emit_act_in callargs st in
               if st_closed st && negb (truthy (get callargs "closing$"))
               then action_done (EErr (internals_error "instance-closed")) VUndef st
               else
                 let st := push (EvHandler (am_id am) callargs) st in
                 match fn_call (am_func am) callargs with
                 | Done err res => action_done err res st
                 | Throws ex => action_done (EErr ex) VUndef st
                 | Silent => action_done (EErr (new_Error "[TIMEOUT]")) VUndef st
                 end
           end) st
  | (_, st), _ => st
  end.

(** The first lines of [do_act]: [id_tx], [tx] and [actid]. *)
Definition act_ids (instance_ : instance) (origargs : msg) (st : state)
  : completion (string * value * state) :=
  let args := origargs in
  let '(id_, st) :=
    if truthy (get args "id$") then (get args "id$", st)
    else if truthy (get args "actid$") then (get args "actid$", st)
    else let '(i, st) := idgen st in (VStr i, st) in
  match id_ with
  | VStr id_ =>
      let id_tx := split_slash id_ in
      let id_tx_0 := default "" (id_tx !! 0%nat) in
      let id_tx_1 := default VUndef (VStr <$> id_tx !! 1%nat) in
      let '(tx, st) :=
        if truthy id_tx_1 then (id_tx_1, st)
        else if truthy (get origargs "tx$") then (get origargs "tx$", st)
        else if truthy (get (fixedargs instance_) "tx$")
             then (get (fixedargs instance_) "tx$", st)
             else let '(i, st) := idgen st in (VStr i, st) in
      let '(id0, st) :=
        if negb (String.eqb id_tx_0 "") then (id_tx_0, st) else idgen st in
      let actid := id0 ++ "/" ++ to_str tx in
      Normal (actid, tx, st)
  | _ =>
      (* [split] is not a function of a value that is not a string *)
      Thrown (new_Error "TypeError: split is not a function")
  end.

(** [args.default$ = args.default$ || (!so.strict.find ? {} : args.default$)] *)
Definition with_default (args : msg) : msg :=
  <["default$" := js_or (get args "default$")
                        (if negb (strict_find so) then VObj [] else get args "default$")]>
    args.

Definition do_act (instance_ : instance) (actmeta : option actmeta) (prior_ctxt : option ctxt)
    (origargs : msg) (actdone : option (tuple -> option error)) (st : state)
  : completion state :=
  let args := origargs in
  match act_ids instance_ origargs st with
  | Normal (actid, tx, st) =>
      let args := with_default args in
      let callargs := args in
      let prior_ctxt := default {| chain := []; entry := true; depth := 1 |} prior_ctxt in
      (* if previously seen message, provide previous result, and don't process again *)
      match apply_actcache instance_ callargs origargs prior_ctxt actdone st with
      | (true, st) => Normal st
      | (false, st) =>
          let '(execute_action_instance, st) :=
            if truthy (get callargs "gate$") then delegate_method instance_ None st
            else (instance_, st) in
          Normal (execute_action instance_ execute_action_instance actmeta prior_ctxt
                    args origargs actid tx actdone st)
      end
  | Thrown ex => Thrown ex
  end.

(** [delegate.prior(prior_args, prior_cb)] carried out. *)
Definition run_prior (step : prior_step) (prior_cb : option (tuple -> option error))
    (st : state) : completion state :=
  match step with
  | PriorAct delegate priormeta sub_prior_ctxt prior_args =>
      do_act delegate (Some priormeta) (Some sub_prior_ctxt) prior_args prior_cb st
  | PriorReply result =>
      match prior_cb with
      | Some done =>
          let st := push (EvCallback Now result) st in
          match done result with
          | None => Normal st
          | Some ex => Thrown ex
          end
      | None => Thrown (new_Error "TypeError: done is undefined")
      end
  end.

(** *** [api_act] *)

(** The message [api_act] hands to [do_act]. *)
Definition api_act_args (self : instance) (pattern : msg) : msg :=
  let args := pattern in
  let args := extend args (fixedargs self) in
  if debug_act_caller so then <["caller$" := VStr (caller_text args)]> args else args.

Definition api_act (self : instance) (pattern : msg)
    (actdone : option (tuple -> option error)) (st : state)
  : completion (instance * state) :=
  match do_act self None None (api_act_args self pattern) actdone st with
  | Normal st => Normal (self, st)
  | Thrown ex => Thrown ex
  end.

(** *** [api_add] *)

(** The action [api_add] takes when none is given. *)
Definition default_action : action :=
  {| fn_name := "";
     fn_call := fun msg_ => Done ENull (js_or (get msg_ "default$") VNull);
     fn_validate := VUndef;
     fn_handle := false |}.

(** [{}] as action metadata. *)
Definition no_actmeta : actmeta :=
  {| am_raw := ∅; am_plugin_name := ""; am_plugin_tag := ""; am_plugin_fullname := "";
     am_sub := false; am_client := false; am_deprecate := VUndef; am_args := ∅;
     am_rules := ∅; am_id := ""; am_func := default_action; am_pattern := "";
     am_priormeta := None; am_priorpath := ""; am_handle := false; am_validate := None |}.

(** [v !== null] *)
Definition not_null (v : value) : bool :=
  match v with VNull => false | _ => true end.

(** [(raw_pattern.strict$ && raw_pattern.strict$.add !== null)
      ? !!raw_pattern.strict$.add : !!so.strict.add] *)
Definition add_strict_add (raw_pattern : msg) : bool :=
  if truthy (get raw_pattern "strict$") && not_null (prop (get raw_pattern "strict$") "add")
  then truthy (prop (get raw_pattern "strict$") "add")
  else strict_add so.

Definition add_internal_catchall (raw_pattern : msg) : bool :=
  if truthy (get raw_pattern "internal$") &&
     not_null (prop (get raw_pattern "internal$") "catchall")
  then truthy (prop (get raw_pattern "internal$") "catchall")
  else internal_catchall so.

(** The prior [api_add] keeps of the one it found, [pattern_] being the
    canonical pattern of the new action. *)
Definition select_prior (internal_catchall_ strict_add_ : bool) (pattern_ : string)
    (priormeta : option actmeta) : option actmeta :=
  match priormeta with
  | Some pm =>
      if negb internal_catchall_ && String.eqb "" (am_pattern pm) then None
      (* only exact action patterns are overridden *)
      else if strict_add_ && negb (String.eqb (am_pattern pm) pattern_) then None
      else Some pm
  | None => None
  end.

(** The first part of [api_add], up to the choice of the prior: the
    metadata as it stands before the action modifiers run, [addroute], the
    pattern to route and the state. *)
Definition add_actmeta (self : instance) (raw_pattern : msg) (action_ : option action)
    (actmeta_ : option actmeta) (st : state)
  : completion (actmeta * bool * msg * state) :=
  let action_ := default default_action action_ in
  let actmeta_ := default no_actmeta actmeta_ in
  let plugin_name :=
    if negb (String.eqb (am_plugin_name actmeta_) "") then am_plugin_name actmeta_
    else "root$" in
  let plugin_tag := am_plugin_tag actmeta_ in
  let plugin_fullname :=
    if negb (String.eqb (am_plugin_fullname actmeta_) "") then am_plugin_fullname actmeta_
    else plugin_name ++
         (if negb (String.eqb (if String.eqb plugin_tag "-" then "" else plugin_tag) "")
          then "/" ++ plugin_tag else "") in
  let strict_add_ := add_strict_add raw_pattern in
  let internal_catchall_ := add_internal_catchall raw_pattern in
  let pattern := clean raw_pattern in
  if negb (truthy (keys pattern)) then Thrown (internals_error "add_empty_pattern")
  else
    let pattern_rules : msg := msg_of (js_or (fn_validate action_) (VObj [])) in
    let pattern_rules := extend pattern_rules (filter (fun kv => isObject kv.2 = true) pattern) in
    let pattern : msg := filter (fun kv => isObject kv.2 = false) pattern in
    let '(id_, st) := refnid st in
    let pattern_ := canon pattern in
    let priormeta := actions_find (st_actrouter st) pattern false in
    let priormeta := select_prior internal_catchall_ strict_add_ pattern_ priormeta in
    let st :=
      match priormeta with
      | Some pm =>
          if am_handle pm then push (EvHandle (am_id pm) raw_pattern action_) st else st
      | None => st
      end in
    let addroute :=
      match priormeta with Some pm => negb (am_handle pm) | None => true end in
    Normal
      ({| am_raw := raw_pattern;
          am_plugin_name := plugin_name;
          am_plugin_tag := plugin_tag;
          am_plugin_fullname := plugin_fullname;
          am_sub := truthy (get raw_pattern "sub$");
          am_client := truthy (get raw_pattern "client$");
          am_deprecate := get raw_pattern "deprecate$";
          am_args := pattern;
          am_rules := pattern_rules;
          am_id := id_;
          am_func := action_;
          am_pattern := pattern_;
          am_priormeta :=
            match priormeta with
            | Some pm => if am_handle pm then am_priormeta actmeta_ else Some pm
            | None => am_priormeta actmeta_
            end;
          am_priorpath :=
            match priormeta with
            | Some pm => am_id pm ++ ";" ++ am_priorpath pm
            | None => ""
            end;
          am_handle := if fn_handle action_ then true else am_handle actmeta_;
          am_validate := am_validate actmeta_ |},
       addroute, pattern, st).

Definition modify_action (seneca : instance) (meta : actmeta) (st : state) : actmeta :=
  foldl (fun meta actmod => actmod meta) meta (st_action_modifiers st).

Definition api_add (self : instance) (raw_pattern : msg) (action_ : option action)
    (actmeta_ : option actmeta) (st : state) : completion (instance * state) :=
  match add_actmeta self raw_pattern action_ actmeta_ st with
  | Thrown ex => Thrown ex
  | Normal (actmeta, addroute, pattern, st) =>
      let st :=
        with_stats_actmap
          (fun m => match m !! am_pattern actmeta with
                    | Some _ => m
                    | None => <[am_pattern actmeta := zero]> m
                    end) st in
      let actmeta := modify_action self actmeta st in
      let st :=
        if addroute then
          let st := push (EvLog "debug" "add" (if am_sub actmeta then "SUB" else "ADD")) st in
          with_actrouter (fun r => app r [(pattern, actmeta)]) st
        else st in
      Normal (self, st)
  end.

End Dispatcher.

(** ** A sample environment

    Concrete generators and routers, used to run the model on examples. The
    router follows section 4.1 of the specification: the pattern with the
    most keys among those the subject matches, the latest on a tie. *)

Definition sample_nid (n : nat) : string := "n" ++ pretty n.

Definition pattern_matches (subject pattern : msg) : bool :=
  forallb (fun kv => negb (isUndefined (get subject kv.1)) &&
                     String.eqb (to_str kv.2) (to_str (get subject kv.1)))
          (map_to_list pattern).

Definition more_specific {A} (best : option (msg * A)) (r : msg * A) : option (msg * A) :=
  match best with
  | Some b => if (size r.1 <? size b.1)%nat then Some b else Some r
  | None => Some r
  end.

Definition sample_lookup {A} (routes : list (msg * A)) (subject : msg) : option (msg * A) :=
  foldl more_specific None (List.filter (fun r => pattern_matches subject r.1) routes).

Definition sample_find (routes : list (msg * actmeta)) (subject : msg) (catchall : bool)
  : option actmeta :=
  match sample_lookup
          (List.filter (fun r => negb (size r.1 =? 0)%nat || (size (clean subject) =? 0)%nat) routes)
          (clean subject) with
  | Some r => Some r.2
  | None => if catchall then snd <$> sample_lookup routes ∅ else None
  end.

Fixpoint index_of (pattern : string) (routes : list (msg * sublist)) : option nat :=
  match routes with
  | [] => None
  | r :: routes' =>
      if String.eqb (subs_pattern r.2) pattern then Some 0%nat
      else S <$> index_of pattern routes'
  end.

Definition sample_subfind (routes : list (msg * sublist)) (subject : msg) : option nat :=
  match sample_lookup routes subject with
  | Some r => index_of (subs_pattern r.2) routes
  | None => None
  end.

Definition sample_caller (args : msg) : string := "at " ++ canon args.

(** The objects of the examples. *)

Definition root : instance := Root ∅.

(** [function sum (msg, done) { done(null, {a: msg.x + 1}) }] *)
Definition sum_action : action :=
  {| fn_name := "sum";
     fn_call := fun m => match get m "x" with
                         | VNum x => Done ENull (VObj [("a", VNum (x + 1))])
                         | _ => Done (EErr (new_Error "x is not a number")) VUndef
                         end;
     fn_validate := VUndef;
     fn_handle := false |}.

(** An action with a [handle] function, as the one of [seneca.close]. *)
Definition close_action : action :=
  {| fn_name := "close";
     fn_call := fun m => Done ENull VUndef;
     fn_validate := VUndef;
     fn_handle := true |}.

Definition math : msg := {[ "role" := VStr "math" ]}.

(** The defaults with [strict.fixedargs] and [strict.find] off. *)
Definition relaxed : options :=
  {| debug_act_caller := false; strict_result := true; strict_fixedargs := false;
     strict_add := false; strict_find := false; strict_maxloop := 11;
     actcache_active := true; trace_unknown := true; internal_catchall := false;
     legacy_error_codes := true; errhandler := None |}.


Definition state_of (c : completion (instance * state)) : state :=
  match c with Normal (_, st) => st | Thrown _ => initial end.

Definition sample_add (so : options) (pattern : msg) (a : action) (st : state) : state :=
  state_of (api_add sample_nid sample_find so root pattern (Some a) None st).

Definition sample_act (so : options) (self : instance) (m : msg) (st : state) : state :=
  state_of (api_act sample_nid sample_find sample_subfind sample_caller so self m None st).

(** [seneca.add({role: 'math'}, sum)] on a new instance. *)
Definition added : state := sample_add defaults math sum_action initial.

(** [seneca.delegate({x: 2})] *)
Definition fixed2 : instance :=
  (api_delegate sample_nid relaxed root (Some {[ "x" := VNum 2 ]}) initial).1.

(** The metadata [added] has for [role:math]. *)
Definition math_meta : actmeta :=
  {| am_raw := math; am_plugin_name := "root$"; am_plugin_tag := "";
     am_plugin_fullname := "root$"; am_sub := false; am_client := false;
     am_deprecate := VUndef; am_args := math; am_rules := ∅; am_id := "(n0)";
     am_func := sum_action; am_pattern := "role:math"; am_priormeta := None;
     am_priorpath := ""; am_handle := false; am_validate := None |}.

(** The metadata of an action that overrides it. *)
Definition over_meta : actmeta :=
  {| am_raw := math; am_plugin_name := "root$"; am_plugin_tag := "";
     am_plugin_fullname := "root$"; am_sub := false; am_client := false;
     am_deprecate := VUndef; am_args := math; am_rules := ∅; am_id := "(n1)";
     am_func := sum_action; am_pattern := "role:math"; am_priormeta := Some math_meta;
     am_priorpath := "(n0);"; am_handle := false; am_validate := None |}.

(** Two subscribers: the first throws, the second returns. *)
Definition sub_bad : subfunc :=
  {| sf_name := "bad"; sf_call := fun _ _ => Some (new_Error "oops") |}.
Definition sub_good : subfunc :=
  {| sf_name := "good"; sf_call := fun _ _ => None |}.

(** [seneca.sub({role: 'math'}, bad); seneca.sub({role: 'math'}, good)] *)
Definition subscribed_state : state :=
  api_sub sample_subfind root math sub_good (api_sub sample_subfind root math sub_bad initial).

(** ** Reading a trace *)

(** [pushes evs st]: the events [evs] happen, in this order. *)
Definition pushes (evs : list event) (st : state) : state :=
  {| st_actcache := st_actcache st; st_stats_act := st_stats_act st;
     st_stats_actmap := st_stats_actmap st; st_actrouter := st_actrouter st;
     st_subrouter := st_subrouter st; st_handle_sub := st_handle_sub st;
     st_action_modifiers := st_action_modifiers st; st_closed := st_closed st;
     st_nids := st_nids st; st_trace := app (st_trace st) evs |}.

(** What an observer [sel] sees of a state. *)
Definition seen {A} (sel : event -> option A) (st : state) : list A :=
  omap sel (st_trace st).

(** The continuations applied, with their tuples. *)
Definition sel_callback (e : event) : option (tick * tuple) :=
  match e with EvCallback t r => Some (t, r) | _ => None end.

(** The handlers called, with the message they got. *)
Definition sel_handler (e : event) : option (string * msg) :=
  match e with EvHandler i m => Some (i, m) | _ => None end.

(** The subscribers called. *)
Definition sel_sub (e : event) : option (string * msg * value) :=
  match e with EvSub n a r => Some (n, a, r) | _ => None end.

(** The errors given to [so.errhandler]. *)
Definition sel_errhandler (e : event) : option error :=
  match e with EvErrhandler err => Some err | _ => None end.

(** The errors the instance died of. *)
Definition sel_die (e : event) : option error :=
  match e with EvDie err => Some err | _ => None end.

(** The errors emitted as [act-err]. *)
Definition sel_acterr (e : event) : option error :=
  match e with EvActErr _ err => Some err | _ => None end.

(** The exceptions of subscribers that were logged. *)
Definition sel_sublog (e : event) : option unit :=
  match e with EvLog "error" "sub" "sub_function_catch" => Some () | _ => None end.

Definition callbacks := seen sel_callback.
Definition handled := seen sel_handler.
Definition subscribed := seen sel_sub.
Definition errhandled := seen sel_errhandler.
Definition died := seen sel_die.
Definition acterrs := seen sel_acterr.
Definition sublogs := seen sel_sublog.

(** The message [handle_sub] looks up and gives to the subscribers when
    it is called through [annotate prop]. *)
Definition sub_subject (prop_ : string) (args : msg) : msg :=
  <["meta$" := js_or (get (<[prop_ := VBool true]> args) "meta$") (VObj [])]>
    (<[prop_ := VBool true]> args).

Definition sub_args (prop_ : string) (args : msg) (subs : sublist) : msg :=
  <["meta$" := set_prop (get (sub_subject prop_ args) "meta$") "sub"
                 (VStr (subs_pattern subs))]> (sub_subject prop_ args).

(** What a list of subscribers does when each is called in a [try]. *)
Definition sub_events (args : msg) (result : value) (fs : list subfunc) : list event :=
  flat_map (fun f => EvSub (sf_name f) args result ::
                     match sf_call f args result with
                     | None => []
                     | Some _ => [EvLog "error" "sub" "sub_function_catch"]
                     end) fs.

(** The subscriber throws on these arguments. *)
Definition sub_throws (args : msg) (result : value) (f : subfunc) : bool :=
  bool_decide (is_Some (sf_call f args result)).

(** The events of subscribers. *)
Definition sub_event (e : event) : Prop :=
  match e with EvSub _ _ _ | EvLog "error" "sub" "sub_function_catch" => True | _ => False end.

(** An observer that does not look at the events of subscribers. *)
Definition blind {A} (sel : event -> option A) : Prop :=
  forall e, sub_event e -> sel e = None.

(** The error as [act_error] hands it on: wrapped as [act_execute] unless
    it is one of seneca's, unwrapped when it wraps an error of seneca-perm. *)
Definition formatted (e : error) : error :=
  if negb (e_seneca e) then internals_error_wrap e "act_execute"
  else if String.prefix "perm/" (default "" (e_code <$> e_orig e))
       then default e (e_orig e) else e.

(** [act_done] has the error [e] to handle: the handler gave it, or the
    result is not an object or array where [strict.result] asks for one. *)
Definition failing (so : options) (actmeta : option actmeta) (callargs : msg)
    (err : errarg) (res : value) (e : error) : Prop :=
  err = EErr e \/
  (err = ENull /\ is_nullish res = false /\ objarr res = false /\
   strict_result so = true /\ legacy_pattern callargs = false /\
   is_Some actmeta /\ e = internals_error "result_not_objarr").

(** [result] as [act_error] leaves it: [result[0]] is assigned when the
    error is wrapped or unwrapped. *)
Definition act_error_result (e : error) (result : tuple) : tuple :=
  if negb (e_seneca e) then (EErr (formatted e), result.2)
  else if String.prefix "perm/" (default "" (e_code <$> e_orig e))
       then match e_orig e with Some _ => (EErr (formatted e), result.2) | None => result end
       else result.

(** [so.errhandler] is called by [act_error]. *)
Definition errhandler_runs (so : options) (callargs : msg) : bool :=
  bool_decide (is_Some (errhandler so)) && negb (truthy (get callargs "fatal$")).

(** [call_cb] as [act_error] returns it. *)
Definition act_error_call_cb (so : options) (callargs : msg) (e : error) : bool :=
  match errhandler so with
  | Some h => if negb (truthy (get callargs "fatal$")) then negb (h (formatted e)) else true
  | None => true
  end.

(** The first steps of [act_done]: the time is booked at entry. *)
Definition timed (actmeta : option actmeta) (ctx : ctxt) (st : state) : state :=
  match actmeta with
  | Some am => if (depth ctx - 1 <=? 0)%Z then push (EvTimePoint (am_pattern am)) st else st
  | None => st
  end.

(** The counters of the pattern, when [act_stats_call] has run. *)
Definition counted (f : counters -> counters) (actstats : option string) (st : state) : state :=
  match actstats with
  | Some p => with_stats_actmap (bump_at f p) st
  | None => st
  end.

(** The continuation returns on every tuple. *)
Definition quiet (actdone : option (tuple -> option error)) : Prop :=
  forall k t, actdone = Some k -> k t = None.

(** [act_done] finds a result that is neither an object nor an array where
    one is required. *)
Definition bad_result (so : options) (callargs : msg) (err : errarg) (res : value) : bool :=
  is_enull err && negb (is_nullish res) && negb (objarr res) && strict_result so &&
  negb (legacy_pattern callargs).

Fixpoint has_slash (s : string) : bool :=
  match s with
  | "" => false
  | String a s' => Ascii.eqb a "/"%char || has_slash s'
  end.

(** The entry [apply_actcache] replays for a message, if any. *)
Definition replayable (so : options) (origargs : msg) (st : state) : option cache_entry :=
  let actid := js_or (get origargs "id$") (get origargs "actid$") in
  if negb (is_nullish actid) && actcache_active so then actcache_get actid st else None.

(** Every key of the action cache has a [/]. *)
Definition slashed (st : state) : Prop :=
  forall k, is_Some (st_actcache st !! k) -> has_slash k = true.

(** The fixedargs of the delegate that [holder.delegate.call(this, further)]
    makes. *)
Fixpoint delegate_fixed (so : options) (holder this : instance) (further : option msg) : msg :=
  match holder with
  | Root _ =>
      if strict_fixedargs so
      then extend (extend ∅ (default ∅ further)) (fixedargs this)
      else extend (extend ∅ (fixedargs this)) (default ∅ further)
  | Delegate self _ fixed =>
      delegate_fixed so self this (Some (extend (extend ∅ fixed) (default ∅ further)))
  end.

(** The fixedargs of the delegate of a call: [act_make_delegate]. *)
Definition call_fixedargs (so : options) (act_instance : instance) (tx : value)
    (am : actmeta) : msg :=
  let fixed :=
    delegate_fixed so act_instance act_instance
      (Some {[ "plugin$" := VObj [("name", VStr (am_plugin_name am));
                                  ("tag", VStr (am_plugin_tag am))] ]}) in
  if truthy tx then <["tx$" := tx]> fixed else fixed.

(** [args], which is also [callargs], once [execute_action] has removed the
    identifiers and set [meta$]. *)
Definition call_args (args : msg) (actid : string) (tx : value) (am : actmeta) (ctx : ctxt)
    (is_sync : bool) : msg :=
  <["meta$" := make_meta actid tx am ctx is_sync]> (delete "actid$" (delete "id$" args)).

(** The message the handler is called with. *)
Definition call_message (so : options) (act_instance : instance) (args : msg)
    (actid : string) (tx : value) (am : actmeta) (ctx : ctxt) (is_sync : bool) : msg :=
  extend (extend (extend ∅ (call_args args actid tx am ctx is_sync))
                 (call_fixedargs so act_instance tx am))
         {[ "tx$" := tx ]}.

(** The loop check of [executable_action] lets the call through. *)
Definition loop_ok (so : options) (args : msg) (am : actmeta) : bool :=
  match get args "history$" with
  | VArr history =>
      negb ((0 <? List.length history)%nat &&
            (strict_maxloop so <?
             Z.of_nat (List.length (List.filter (matches_action (am_id am)) history)))%Z)
  | _ => true
  end.

(** The validator of the action, if any, accepts the message. *)
Definition valid (am : actmeta) (args : msg) : bool :=
  match am_validate am with
  | Some validate => bool_decide (validate args = None)
  | None => true
  end.

(** What [act_done] is called with for each outcome of the handler. *)
Definition outcome_tuple (o : outcome) : tuple :=
  match o with
  | Done err res => (err, res)
  | Throws ex => (EErr ex, VUndef)
  | Silent => (EErr (new_Error "[TIMEOUT]"), VUndef)
  end.

(** The message is dispatched: [do_act] gets its identifiers (its [id$], if
    any, is a string) and the cache has nothing to replay for it. *)
Definition dispatched (nid : nat -> string) (so : options) (inst : instance)
    (origargs : msg) (st : state) : Prop :=
  (exists actid tx st1, act_ids nid inst origargs st = Normal (actid, tx, st1)) /\
  replayable so origargs st = None.

(** The states an instance goes through: from [initial], by [add], [sub],
    [act] and the prior calls of handlers. *)
Inductive reachable (nid : nat -> string)
    (find : list (msg * actmeta) -> msg -> bool -> option actmeta)
    (subfind : list (msg * sublist) -> msg -> option nat)
    (caller_text : msg -> string) (so : options) : state -> Prop :=
| reach_initial : reachable nid find subfind caller_text so initial
| reach_add st self raw action_ actmeta_ st' :
    reachable nid find subfind caller_text so st ->
    api_add nid find so self raw action_ actmeta_ st = Normal (self, st') ->
    reachable nid find subfind caller_text so st'
| reach_sub st self pattern action_ :
    reachable nid find subfind caller_text so st ->
    reachable nid find subfind caller_text so (api_sub subfind self pattern action_ st)
| reach_act st self pattern actdone st' :
    reachable nid find subfind caller_text so st ->
    api_act nid find subfind caller_text so self pattern actdone st = Normal (self, st') ->
    reachable nid find subfind caller_text so st'
| reach_prior st step prior_cb st' :
    reachable nid find subfind caller_text so st ->
    run_prior nid find subfind so step prior_cb st = Normal st' ->
    reachable nid find subfind caller_text so st'.

(** ** The rest of the instance

    The functions of [seneca.js] around the dispatcher: the flag that
    [do_close] sets, [api_export], [api_depends], [api_decorate], [gate]
    and [ungate], and the functions that build the [log] of an instance. *)

(** [seneca.closed = true], the first statement of [do_close], when the
    instance that is closed is the root. *)
Definition with_closed (b : bool) (st : state) : state :=
  {| st_actcache := st_actcache st; st_stats_act := st_stats_act st;
     st_stats_actmap := st_stats_actmap st; st_actrouter := st_actrouter st;
     st_subrouter := st_subrouter st; st_handle_sub := st_handle_sub st;
     st_action_modifiers := st_action_modifiers st; st_closed := b;
     st_nids := st_nids st; st_trace := st_trace st |}.

(** The members a plain object inherits from [Object.prototype]. *)
Definition object_prototype : list string :=
  ["constructor"; "hasOwnProperty"; "isPrototypeOf"; "propertyIsEnumerable";
   "toLocaleString"; "toString"; "valueOf"; "__defineGetter__"; "__defineSetter__";
   "__lookupGetter__"; "__lookupSetter__"; "__proto__"].

(** [o[k]] for a plain object [o] and any key [k]: an own property, or
    else what [Object.prototype] has under that name. *)
Definition member (o : msg) (k : string) : value :=
  match o !! k with
  | Some v => v
  | None =>
      if bool_decide (k ∈ object_prototype)
      then if String.eqb k "__proto__" then VOther [] else VFun k
      else VUndef
  end.

(** *** [api_export] *)

(** [exports] is [private$.exports]. The result is [None] where the source
    returns what [self.die] returns. *)
Definition api_export (exports : msg) (key : string) (st : state) : option value * state :=
  (* legacy aliases *)
  let key := if String.eqb key "util" then "basic" else key in
  let exportval := member exports key in
  if negb (truthy exportval) then (None, die (internals_error "export_not_found") st)
  else (Some exportval, st).

(** *** [api_depends] *)

(** [_.includes(byname, depname) || _.includes(byname, 'seneca-' + depname)],
    [byname] being an array of strings. *)
Definition includes_plugin (byname : list string) (depname : value) : bool :=
  match depname with VStr s => bool_decide (s ∈ byname) | _ => false end ||
  bool_decide ("seneca-" ++ to_str depname ∈ byname).

(** [_.every(deps, ...)]: the iteration stops at the first [false]. *)
Fixpoint every_dependency (byname : list string) (deps : list value) (st : state)
  : bool * state :=
  match deps with
  | [] => (true, st)
  | depname :: deps' =>
      if negb (includes_plugin byname depname)
      then (false, die (internals_error "plugin_required") st)
      else every_dependency byname deps' st
  end.

(** [byname] is [private$.plugin_order.byname]; [deps] and [moredeps] are
    what the signature [{pluginname:s deps:a? moredeps:s*}] gives. *)
Definition api_depends (byname : list string) (pluginname : string)
    (deps : option (list value)) (moredeps : list value) (st : state) : state :=
  (* [args.deps || args.moredeps]: an array is truthy, even empty *)
  let deps := match deps with Some d => d | None => moredeps end in
  (every_dependency byname deps st).2.

(** *** [api_decorate] *)

(** [root_props] gives [root[property]] for every name, own or inherited;
    [decorations] is [private$.decorations], a plain object. *)
Record decorated : Type := { root_props : msg; decorations : msg }.

Definition api_decorate (property : string) (v : value) (d : decorated)
  : completion decorated :=
  if String.prefix "_" property
  then Thrown (new_Error "property cannot start with _")
  else if negb (isUndefined (member (decorations d) property))
  then Thrown (new_Error "seneca is already decorated with the property")
  else if negb (isUndefined (get (root_props d) property))
  then Thrown (new_Error ("cannot override a core seneca property: " ++ property))
  else Normal {| root_props := <[property := v]> (root_props d);
                 decorations := <[property := v]> (decorations d) |}.

(** *** [gate] and [ungate] *)

Section Gates.

Variable nid : nat -> string.
Variable so : options.

(** [this.delegate({gate$: true})] *)
Definition gate (self : instance) (st : state) : instance * state :=
  delegate_method nid so self (Some {[ "gate$" := VBool true ]}) st.

(** [this.fixedargs.gate$ = false; return this] *)
Definition ungate (self : instance) : instance :=
  set_fixedarg "gate$" (VBool false) self.

End Gates.

(** *** Logging: [make_log] and its helpers *)

(** The object that travels through the log functions: the first argument
    of the call (or the array of the arguments) and the properties the
    modifiers have assigned to it. *)
Record logdata : Type := { ld_base : value; ld_set : msg }.

Definition of_value (v : value) : logdata := {| ld_base := v; ld_set := ∅ |}.

(** [data.k] *)
Definition ld_get (data : logdata) (k : string) : value :=
  match ld_set data !! k with
  | Some v => v
  | None => prop (ld_base data) k
  end.

(** [data.k = v] *)
Definition ld_put (k : string) (v : value) (data : logdata) : logdata :=
  {| ld_base := ld_base data; ld_set := <[k := v]> (ld_set data) |}.

(** A log function, by what it makes of [this] and its arguments: the
    instance and the data that [private$.logger] is called with. *)
Definition logfn : Type := instance -> list logdata -> instance * logdata.

(** [arguments[0]] *)
Definition first_argument (args : list logdata) : logdata :=
  match args with a0 :: _ => a0 | [] => of_value VUndef end.

(** [function (data) { private$.logger(this, data) }] *)
Definition base_log : logfn := fun this args => (this, first_argument args).

Definition prepare_log (instance_ : instance) (log : logfn) : logfn :=
  fun _ args =>
    let a0 := first_argument args in
    let data :=
      if isArray (ld_base a0) then a0
      else if isObject (ld_base a0) then a0
      else of_value (VArr (map ld_base args)) in
    log instance_ [data].

Definition make_modified_log (log : logfn) (modifier : logdata -> logdata) : logfn :=
  fun this args => log this [modifier (first_argument args)].

(** [log_level(level)] of [make_log_levels] *)
Definition log_level (level : string) (data : logdata) : logdata :=
  ld_put "level" (VStr level) data.

(** The function [log] with its properties [debug], [info], [warn],
    [error] and [fatal]. *)
Record logger : Type := {
  log_plain : logfn;
  log_debug : logfn;
  log_info : logfn;
  log_warn : logfn;
  log_error : logfn;
  log_fatal : logfn
}.

(** [make_log(instance, modifier)], followed by what [make_log_levels] adds;
    [inherited] is [instance.log]. *)
Definition make_log (instance_ : instance) (inherited : option logfn)
    (modifier : logdata -> logdata) : logger :=
  let log := default base_log inherited in
  let log := prepare_log instance_ (make_modified_log log modifier) in
  {| log_plain := log;
     log_debug := prepare_log instance_ (make_modified_log log (log_level "debug"));
     log_info := prepare_log instance_ (make_modified_log log (log_level "info"));
     log_warn := prepare_log instance_ (make_modified_log log (log_level "warn"));
     log_error := prepare_log instance_ (make_modified_log log (log_level "error"));
     log_fatal := prepare_log instance_ (make_modified_log log (log_level "fatal")) |}.

(** The method of a logger for a level. *)
Definition log_method (l : logger) (level : string) : option logfn :=
  if String.eqb level "debug" then Some (log_debug l)
  else if String.eqb level "info" then Some (log_info l)
  else if String.eqb level "warn" then Some (log_warn l)
  else if String.eqb level "error" then Some (log_error l)
  else if String.eqb level "fatal" then Some (log_fatal l)
  else None.

Section Logging.

(** [root.id] and the reading of [Date.now()] when the entry is made. *)
Variable root_id : string.
Variable now : Z.

Definition default_log_modifier (data : logdata) : logdata :=
  let data :=
    ld_put "level" (if is_nullish (ld_get data "level") then VStr "debug"
                    else ld_get data "level") data in
  let data :=
    ld_put "seneca" (if is_nullish (ld_get data "seneca") then VStr root_id
                     else ld_get data "seneca") data in
  ld_put "when" (if is_nullish (ld_get data "when") then VNum now
                 else ld_get data "when") data.

(** [root.log = make_log(root, default_log_modifier)]: the root has no
    [log] yet. *)
Definition root_log (root_ : instance) : logger :=
  make_log root_ None default_log_modifier.

(** [act_delegate_log_modifier] of [act_make_delegate]; [actid] is
    [callargs.meta$.id]. *)
Definition act_delegate_log_modifier (actid : string) (meta : actmeta) (data : logdata)
  : logdata :=
  let data := ld_put "actid" (VStr actid) data in
  let data :=
    ld_put "plugin_name" (js_or (ld_get data "plugin_name") (VStr (am_plugin_name meta)))
      data in
  let data :=
    ld_put "plugin_tag" (js_or (ld_get data "plugin_tag") (VStr (am_plugin_tag meta)))
      data in
  ld_put "pattern" (js_or (ld_get data "pattern") (VStr (am_pattern meta))) data.

(** The loggers of the delegates of nested calls: [calls] lists, from the
    outermost, the delegate that [act_make_delegate] made for each call,
    the id of the call and the metadata of its action; each delegate
    inherits the [log] of the one before, the first that of the root. *)
Fixpoint delegate_log (calls : list (instance * string * actmeta)) (inherited : logger)
  : logger :=
  match calls with
  | [] => inherited
  | (delegate, actid, meta) :: calls' =>
      delegate_log calls'
        (make_log delegate (Some (log_plain inherited))
           (act_delegate_log_modifier actid meta))
  end.

End Logging.

(** ** Reading a call and a log *)

(** The call resolves to the action [am], which lets it through: the
    metadata given to [do_act] or else what the router finds, the loop
    check and the validator. *)
Definition resolves (find : list (msg * actmeta) -> msg -> bool -> option actmeta)
    (so : options) (given : option actmeta) (args : msg) (st : state) (am : actmeta) : Prop :=
  match given with
  | Some a => Some a
  | None => find (st_actrouter st) args (internal_catchall so)
  end = Some am /\
  loop_ok so args am = true /\
  valid am args = true.

(** The error as [callback_error] hands it on. *)
Definition callback_formatted (ex : error) : error :=
  if e_seneca ex then ex else internals_error_wrap ex "act_callback".

(** What a dispatch leaves alone. *)
Definition static (st : state)
  : list (msg * actmeta) * list (msg * sublist) * bool * list (actmeta -> actmeta) * bool :=
  (st_actrouter st, st_subrouter st, st_handle_sub st, st_action_modifiers st, st_closed st).

(** Every action of the router has its counters in [stats.actmap], and no
    action modifier is installed. *)
Definition counted_routes (st : state) : Prop :=
  st_action_modifiers st = [] /\
  forall r, r ∈ st_actrouter st -> is_Some (st_stats_actmap st !! am_pattern r.2).

(** The modifiers of the calls, the innermost first. *)
Definition modified (calls : list (instance * string * actmeta)) (data : logdata) : logdata :=
  foldr (fun c acc => act_delegate_log_modifier c.1.2 c.2 acc) data calls.

(** A logger made by [make_log] for some instance, whose plain function
    ends at the logger of the root with the data modified by [F]. *)
Definition made_for (root_ : instance) (F : logdata -> logdata) (l : logger) : Prop :=
  (forall this data, isObject (ld_base data) = true ->
                     log_plain l this [data] = (root_, F data)) /\
  exists inst, forall level method,
      log_method l level = Some method ->
      method = prepare_log inst (make_modified_log (log_plain l) (log_level level)).




(** The subscribers that the router of subscribers gives for a message
    emitted as [act-in] ([prop_] is [in$]) or as [act-out] ([out$]), and
    the message [handle_sub] calls them with. *)
Definition found_subs (subfind : list (msg * sublist) -> msg -> option nat) (st : state)
    (prop_ : string) (cm : msg) : list subfunc * msg :=
  match subfind (st_subrouter st) (sub_subject prop_ cm) ≫= (fun i => st_subrouter st !! i) with
  | Some (_, subs) => (subs_funcs subs, sub_args prop_ cm subs)
  | None => ([], sub_subject prop_ cm)
  end.

(** The calls of the subscribers [fs] with [(m, result)], and the
    exceptions that are logged. *)
Definition sub_calls (fs : list subfunc) (m : msg) (result : value)
  : list (string * msg * value) :=
  map (fun f => (sf_name f, m, result)) fs.

Definition sub_catches (fs : list subfunc) (m : msg) (result : value) : list unit :=
  map (fun _ => ()) (List.filter (sub_throws m result) fs).

(** [act_done] takes the tuple for a success, and emits [act-out]. *)
Definition succeeds (so : options) (callargs : msg) (t : tuple) : bool :=
  match t.1 with
  | EErr _ => false
  | _ => negb (bad_result so callargs t.1 t.2)
  end.

(** What the listeners that [api_sub] installs do with an emitted message. *)
Definition notes (subfind : list (msg * sublist) -> msg -> option nat) (st : state)
    (prop_ : string) (cm : msg) (result : value) : list event :=
  if st_handle_sub st && is_true (prop (get cm "meta$") "entry")
  then sub_events (found_subs subfind st prop_ cm).2 result (found_subs subfind st prop_ cm).1
  else [].

(** ** More objects for the examples *)

(** [function text (msg, done) { done(null, 'text') }] *)
Definition text_action : action :=
  {| fn_name := "text";
     fn_call := fun _ => Done ENull (VStr "text");
     fn_validate := VUndef;
     fn_handle := false |}.

(** [function odd (msg, done) { done(false, 'text') }] *)
Definition odd_action : action :=
  {| fn_name := "odd";
     fn_call := fun _ => Done EFalsy (VStr "text");
     fn_validate := VUndef;
     fn_handle := false |}.

(** The metadata of [role:math] with another function. *)
Definition meta_with (f : action) : actmeta :=
  {| am_raw := math; am_plugin_name := "root$"; am_plugin_tag := "";
     am_plugin_fullname := "root$"; am_sub := false; am_client := false;
     am_deprecate := VUndef; am_args := math; am_rules := ∅; am_id := "(n0)";
     am_func := f; am_pattern := "role:math"; am_priormeta := None;
     am_priorpath := ""; am_handle := false; am_validate := None |}.

(** The defaults with [actcache.active] off. *)
Definition uncached : options :=
  {| debug_act_caller := false; strict_result := true; strict_fixedargs := true;
     strict_add := false; strict_find := true; strict_maxloop := 11;
     actcache_active := false; trace_unknown := true; internal_catchall := false;
     legacy_error_codes := true; errhandler := None |}.

(** The context of a call at entry, and that of a prior call made by the
    action [(n1)]. *)
Definition at_entry : ctxt := {| chain := []; entry := true; depth := 1 |}.
Definition in_prior : ctxt := {| chain := ["(n1)"]; entry := false; depth := 2 |}.

(** [{role: 'math', x: 1}] *)
Definition math1 : msg := <["x" := VNum 1]> math.

(** A continuation that throws. *)
Definition throwing (t : tuple) : option error := Some (new_Error "oops").

(** A root with the core property [add] and no decoration. *)
Definition plain_root : decorated :=
  {| root_props := {[ "add" := VFun "api_add" ]}; decorations := ∅ |}.

(** [seneca.delegate({x: 2})] with the default options. *)
Definition fixed_strict : instance :=
  (api_delegate sample_nid defaults root (Some {[ "x" := VNum 2 ]}) initial).1.

(** [{role: 'math', x: 1, id$: 'X'}] *)
Definition bare_id : msg := <["id$" := VStr "X"]> (<["x" := VNum 1]> math).

(** The instance after a first [act] with that message. *)
Definition acted_once : state := sample_act defaults root bare_id added.

(** The defaults with a negative [strict.maxloop]. *)
Definition no_repeat : options :=
  {| debug_act_caller := false; strict_result := true; strict_fixedargs := true;
     strict_add := false; strict_find := true; strict_maxloop := -1;
     actcache_active := true; trace_unknown := true; internal_catchall := false;
     legacy_error_codes := true; errhandler := None |}.

(** A [history$] with [n] entries of the action [(n0)] among four that are
    not: another action, a number, an object without [action] and one whose
    [action] is not a string. *)
Definition history_with (n : nat) : list value :=
  VObj [("action", VStr "(n9)")] ::
  app (replicate n (VObj [("action", VStr "(n0)")]))
      [VNum 5; VObj [("id", VStr "(n0)")]; VObj [("action", VArr [VStr "(n0)"])]].

(** [{role: 'math', x: 1, history$: h}] *)
Definition with_history (h : list value) : msg := <["history$" := VArr h]> math1.

(** The defaults with [strict.add] on. *)
Definition strict_adding : options :=
  {| debug_act_caller := false; strict_result := true; strict_fixedargs := true;
     strict_add := true; strict_find := true; strict_maxloop := 11;
     actcache_active := true; trace_unknown := true; internal_catchall := false;
     legacy_error_codes := true; errhandler := None |}.

(** [{role: 'math', cmd: 'sum'}] *)
Definition math_sum : msg := <["cmd" := VStr "sum"]> math.

(** [seneca.add({role: 'math'}, close)], [close] having a [handle]. *)
Definition closable : state := sample_add defaults math close_action initial.

(** [seneca.add({}, sum)]: a catch-all. *)
Definition catchall_added : state := sample_add defaults ∅ sum_action initial.



(** [seneca.sub({role: 'math'}, bad); seneca.sub({role: 'math'}, good)]
    after [seneca.add({role: 'math'}, sum)]. *)
Definition listened : state :=
  api_sub sample_subfind root math sub_good (api_sub sample_subfind root math sub_bad added).

(** [seneca.delegate({meta$: {entry: true}})], the delegate that
    [act_make_delegate] makes for a call of the overriding action on it,
    and the prior call its handler makes with [{role: 'math', x: 1}]. *)
Definition entry_fixed : instance :=
  (api_delegate sample_nid defaults root (Some {[ "meta$" := VObj [("entry", VBool true)] ]})
     initial).1.
Definition entry_delegate : instance :=
  (act_make_delegate sample_nid defaults entry_fixed (VStr "T") math over_meta at_entry
     listened).1.
Definition entry_prior : prior_step :=
  delegate_prior entry_delegate (VStr "T") math over_meta at_entry math1.

(** ** Properties *)

Lemma push_pushes e st : push e st = pushes [e] st.
Proof. reflexivity. Qed.

Lemma pushes_nil st : pushes [] st = st.
Proof. destruct st; unfold pushes; simpl. by rewrite app_nil_r. Qed.

Lemma pushes_pushes a b st : pushes b (pushes a st) = pushes (app a b) st.
Proof. unfold pushes; simpl. by rewrite app_assoc. Qed.

Lemma seen_pushes {A} (sel : event -> option A) evs st :
  seen sel (pushes evs st) = app (seen sel st) (omap sel evs).
Proof. unfold seen; simpl. apply omap_app. Qed.

Lemma seen_push {A} (sel : event -> option A) e st :
  seen sel (push e st) = app (seen sel st) (match sel e with Some a => [a] | None => [] end).
Proof. rewrite push_pushes, seen_pushes. simpl. by destruct (sel e). Qed.

Lemma foldl_sub_events args result fs st :
  foldl (fun st subfunc =>
           let st := push (EvSub (sf_name subfunc) args result) st in
           match sf_call subfunc args result with
           | None => st
           | Some ex => push (EvLog "error" "sub" "sub_function_catch") st
           end) st fs
  = pushes (sub_events args result fs) st.
Proof.
  revert st. induction fs as [|f fs IH]; intros st; simpl.
  - by rewrite pushes_nil.
  - rewrite IH. destruct (sf_call f args result); simpl;
      rewrite !push_pushes, ?pushes_pushes; reflexivity.
Qed.

Lemma annotate_not_entry subfind prop_ args result st :
  is_true (prop (get (sub_subject prop_ args) "meta$") "entry") = false ->
  annotate subfind prop_ args result st = st.
Proof.
  intros H. unfold annotate, handle_sub. fold (sub_subject prop_ args).
  by rewrite H.
Qed.

Lemma annotate_entry subfind prop_ args result st p subs :
  is_true (prop (get (sub_subject prop_ args) "meta$") "entry") = true ->
  subfind (st_subrouter st) (sub_subject prop_ args)
    ≫= (fun i => st_subrouter st !! i) = Some (p, subs) ->
  annotate subfind prop_ args result st
  = pushes (sub_events (sub_args prop_ args subs) result (subs_funcs subs)) st.
Proof.
  intros H Hf. unfold annotate, handle_sub. fold (sub_subject prop_ args).
  rewrite H; simpl. rewrite Hf. apply foldl_sub_events.
Qed.

Lemma annotate_no_subs subfind prop_ args result st :
  subfind (st_subrouter st) (sub_subject prop_ args)
    ≫= (fun i => st_subrouter st !! i) = None ->
  annotate subfind prop_ args result st = st.
Proof.
  intros Hf. unfold annotate, handle_sub. fold (sub_subject prop_ args).
  rewrite Hf. by destruct (negb _).
Qed.

Lemma omap_sub_events args result fs :
  omap sel_sub (sub_events args result fs) = map (fun f => (sf_name f, args, result)) fs.
Proof.
  induction fs as [|f fs IH]; simpl; [done|].
  destruct (sf_call f args result); simpl; f_equal; exact IH.
Qed.

Lemma omap_sublog_events args result fs :
  omap sel_sublog (sub_events args result fs)
  = map (fun _ => ()) (List.filter (sub_throws args result) fs).
Proof.
  induction fs as [|f fs IH]; simpl; [done|].
  unfold sub_throws at 1.
  destruct (sf_call f args result) eqn:E; simpl.
  - f_equal. exact IH.
  - exact IH.
Qed.

Lemma sub_events_Forall args result fs : Forall sub_event (sub_events args result fs).
Proof.
  induction fs as [|f fs IH]; simpl; [constructor|].
  constructor; [exact I|].
  destruct (sf_call f args result); simpl; [constructor; [exact I|]|]; exact IH.
Qed.

Lemma annotate_pushes subfind prop_ args result st :
  exists evs, annotate subfind prop_ args result st = pushes evs st /\ Forall sub_event evs.
Proof.
  destruct (is_true (prop (get (sub_subject prop_ args) "meta$") "entry")) eqn:He.
  - destruct (subfind (st_subrouter st) (sub_subject prop_ args)
                ≫= (fun i => st_subrouter st !! i)) as [[p subs]|] eqn:Hf.
    + eexists. split; [by eapply annotate_entry|]. apply sub_events_Forall.
    + exists []. rewrite pushes_nil. split; [by apply annotate_no_subs|constructor].
  - exists []. rewrite pushes_nil. split; [by apply annotate_not_entry|constructor].
Qed.

Lemma blind_omap {A} (sel : event -> option A) evs :
  blind sel -> Forall sub_event evs -> omap sel evs = [].
Proof.
  intros Hb. induction 1 as [|e evs He _ IH]; [done|].
  simpl. rewrite (Hb e He). exact IH.
Qed.

Lemma blind_callback : blind sel_callback.
Proof. intros [] H; try done. Qed.
Lemma blind_handler : blind sel_handler.
Proof. intros [] H; try done. Qed.
Lemma blind_die : blind sel_die.
Proof. intros [] H; try done. Qed.
Lemma blind_acterr : blind sel_acterr.
Proof. intros [] H; try done. Qed.

Lemma emit_act_in_pushes subfind callargs st :
  exists evs, emit_act_in subfind callargs st = pushes (EvActIn callargs :: evs) st /\
              Forall sub_event evs.
Proof.
  unfold emit_act_in. simpl. destruct (st_handle_sub st).
  - destruct (annotate_pushes subfind "in$" callargs VUndef (push (EvActIn callargs) st))
      as (evs & -> & H).
    exists evs. split; [|done]. rewrite push_pushes, pushes_pushes. done.
  - exists []. split; [|constructor]. apply push_pushes.
Qed.

Lemma emit_act_out_pushes subfind callargs result st :
  exists evs, emit_act_out subfind callargs result st
              = pushes (EvActOut callargs result :: evs) st /\
              Forall sub_event evs.
Proof.
  unfold emit_act_out. simpl. destruct (st_handle_sub st).
  - destruct (annotate_pushes subfind "out$" callargs result
                (push (EvActOut callargs result) st)) as (evs & -> & H).
    exists evs. split; [|done]. rewrite push_pushes, pushes_pushes. done.
  - exists []. split; [|constructor]. apply push_pushes.
Qed.

Lemma act_error_eq so inst e actmeta result callargs origargs ctx st :
  act_error so inst e actmeta result callargs origargs ctx st
  = ((act_error_call_cb so callargs e, formatted e, act_error_result e result),
     pushes (EvLog "error" "act" "ERR" :: EvActErr callargs (formatted e) ::
             if errhandler_runs so callargs then [EvErrhandler (formatted e)] else []) st).
Proof.
  unfold act_error, act_error_call_cb, act_error_result, errhandler_runs, formatted, is_perm.
  destruct (e_seneca e); simpl.
  - destruct (e_orig e) as [o|]; simpl.
    + destruct (String.prefix "perm/" (e_code o)); simpl;
        destruct (errhandler so); simpl; try destruct (truthy (get callargs "fatal$")); simpl;
        rewrite !push_pushes, !pushes_pushes; reflexivity.
    + destruct (errhandler so); simpl; try destruct (truthy (get callargs "fatal$")); simpl;
        rewrite !push_pushes, !pushes_pushes; reflexivity.
  - destruct (errhandler so); simpl; try destruct (truthy (get callargs "fatal$")); simpl;
      rewrite !push_pushes, !pushes_pushes; reflexivity.
Qed.

Lemma callback_error_eq so inst ex actmeta result callargs origargs ctx st :
  exists result' e',
    callback_error so inst ex actmeta result callargs origargs ctx st
    = (result',
       pushes (EvLog "error" "act" "ERR" :: EvActErr callargs e' ::
               if bool_decide (is_Some (errhandler so)) then [EvErrhandler e'] else []) st).
Proof.
  unfold callback_error.
  destruct (e_seneca ex); simpl; destruct (errhandler so); simpl;
    do 2 eexists; rewrite !push_pushes, !pushes_pushes; reflexivity.
Qed.

Lemma actcache_set_eq so actid e st :
  actcache_set so actid e st
  = with_actcache (fun c => if actcache_active so then <[actid := e]> c else c) st.
Proof. unfold actcache_set. destruct (actcache_active so); [done|by destruct st]. Qed.

Lemma actcache_alias_eq so actid result st :
  actcache_alias so actid result st
  = with_actcache (fun c => if actcache_active so
                            then match c !! actid with
                                 | Some e => <[actid := {| ce_result := result;
                                                           ce_actmeta := ce_actmeta e |}]> c
                                 | None => c
                                 end
                            else c) st.
Proof. unfold actcache_alias. destruct (actcache_active so); [done|by destruct st]. Qed.

Ltac use_callback_error :=
  match goal with
  | |- context [callback_error ?a ?b ?c ?d ?e ?f ?g ?h ?i] =>
      let r := fresh "r" in let e' := fresh "e'" in let E := fresh "E" in
      destruct (callback_error_eq a b c d e f g h i) as (r & e' & E); rewrite E; clear E
  end.

Ltac fold_omap :=
  repeat match goal with
         | |- context [list_omap ?A ?B ?f ?l] => change (list_omap A B f l) with (omap f l)
         end.

Ltac see :=
  unfold callbacks, handled, subscribed, errhandled, died, acterrs, sublogs, seen;
  simpl; rewrite ?omap_app; simpl; fold_omap.


Lemma act_done_failing_eq subfind so inst actmeta ctx args callargs origargs actid actstats
    actdone err res st e :
  failing so actmeta callargs err res e ->
  act_done subfind so inst actmeta ctx args callargs origargs actid actstats actdone err res st
  = let st1 := actcache_set so actid {| ce_result := (err, res); ce_actmeta := actmeta |}
                 (timed actmeta ctx st) in
    let st3 := counted bump_fails actstats (with_stats_act bump_fails st1) in
    let st4 := pushes (EvLog "error" "act" "ERR" :: EvActErr callargs (formatted e) ::
                       if errhandler_runs so callargs then [EvErrhandler (formatted e)] else [])
                 st3 in
    let st5 := actcache_alias so actid (act_error_result e (err, res)) st4 in
    if truthy (get args "fatal$") then die (formatted e) st5
    else
      let result := (EErr (formatted e), res) in
      let st6 := actcache_alias so actid result st5 in
      if act_error_call_cb so callargs e then
        let st7 := push (EvCallback Now result) st6 in
        match actdone ≫= (fun k => k result) with
        | None => st7
        | Some ex =>
            let '(result, st) :=
              callback_error so inst ex actmeta result callargs origargs ctx st7 in
            actcache_alias so actid result st
        end
      else st6.
Proof.
  intros Hfail.
  assert (Hres2 : (act_error_result e (err, res)).2 = res).
  { unfold act_error_result. destruct (negb _); [done|].
    destruct (String.prefix _ _); [|done]. by destruct (e_orig e). }
  unfold act_done, timed, counted.
  destruct Hfail as [-> | (-> & Hn & Hobj & Hstrict & Hleg & [am ->] & ->)].
  - simpl. rewrite act_error_eq. simpl in *. rewrite Hres2. reflexivity.
  - simpl. rewrite Hn, Hobj, Hstrict, Hleg. simpl. rewrite act_error_eq. reflexivity.
Qed.

Lemma act_done_ok_eq subfind so inst actmeta ctx args callargs origargs actid actstats
    actdone err res st :
  err = ENull \/ err = EFalsy ->
  bad_result so callargs err res = false ->
  act_done subfind so inst actmeta ctx args callargs origargs actid actstats actdone err res st
  = let st1 := actcache_set so actid {| ce_result := (err, res); ce_actmeta := actmeta |}
                 (timed actmeta ctx st) in
    let st2 := emit_act_out subfind callargs res st1 in
    let result := (ENull, res) in
    let st3 := actcache_alias so actid result st2 in
    let st4 := push (EvLog "debug" "act" "OUT") st3 in
    let st5 := match actstats with
               | Some p => with_stats_actmap (bump_at bump_dones p)
                             (with_stats_act bump_dones st4)
               | None => st4
               end in
    let st7 := push (EvCallback Now result) st5 in
    match actdone ≫= (fun k => k result) with
    | None => st7
    | Some ex =>
        let '(result, st) :=
          callback_error so inst ex actmeta result callargs origargs ctx st7 in
        actcache_alias so actid result st
    end.
Proof.
  intros Herr Hbad. unfold act_done, timed. unfold bad_result in Hbad.
  destruct Herr as [-> | ->]; simpl in *.
  - destruct (negb (is_nullish res) && negb (objarr res) && strict_result so) eqn:E;
      simpl in *; [rewrite Hbad|]; reflexivity.
  - reflexivity.
Qed.

Lemma timed_frame actmeta ctx st :
  st_actcache (timed actmeta ctx st) = st_actcache st /\
  st_stats_act (timed actmeta ctx st) = st_stats_act st /\
  forall A (sel : event -> option A),
    (forall p, sel (EvTimePoint p) = None) ->
    omap sel (st_trace (timed actmeta ctx st)) = omap sel (st_trace st).
Proof.
  unfold timed. destruct actmeta as [am|]; [|done].
  destruct (_ <=? _)%Z; [|done]. simpl. split; [done|]. split; [done|].
  intros A sel Hsel. rewrite omap_app. simpl. rewrite Hsel. by rewrite app_nil_r.
Qed.

Ltac cache_simpl :=
  simpl; repeat (rewrite ?lookup_insert_eq, ?insert_insert_eq; simpl).

Ltac by_quiet Hk :=
  match goal with
  | Hq : quiet ?a |- _ =>
      let k := fresh "k" in
      destruct a as [k|]; simpl in Hk; try discriminate;
      rewrite (Hq k _ eq_refl) in Hk; discriminate
  end.

Ltac fin :=
  repeat split; try done; try (eexists; reflexivity);
  try (exists []; by rewrite ?app_nil_r).

Lemma act_done_failing_obs subfind so inst actmeta ctx args callargs origargs actid actstats
    actdone err res st e :
  failing so actmeta callargs err res e ->
  let st' := act_done subfind so inst actmeta ctx args callargs origargs actid actstats
               actdone err res st in
  handled st' = handled st /\
  (exists later, acterrs st' = app (acterrs st) (formatted e :: later)) /\
  (exists later, errhandled st' =
                 app (errhandled st)
                     (app (if errhandler_runs so callargs then [formatted e] else []) later)) /\
  died st' = app (died st) (if truthy (get args "fatal$") then [formatted e] else []) /\
  callbacks st' = app (callbacks st)
                    (if truthy (get args "fatal$") then []
                     else if act_error_call_cb so callargs e
                          then [(Now, (EErr (formatted e), res))] else []) /\
  cached (st_stats_act st') = cached (st_stats_act st) /\
  (exists r, st_actcache st' =
             if actcache_active so
             then <[actid := {| ce_result := r; ce_actmeta := actmeta |}]> (st_actcache st)
             else st_actcache st) /\
  (quiet actdone ->
   st_actcache st' =
   if actcache_active so
   then <[actid := {| ce_result := if truthy (get args "fatal$")
                                   then act_error_result e (err, res)
                                   else (EErr (formatted e), res);
                      ce_actmeta := actmeta |}]> (st_actcache st)
   else st_actcache st).
Proof.
  intros Hfail st'.
  assert (Hst' := act_done_failing_eq subfind so inst actmeta ctx args callargs origargs
                    actid actstats actdone err res st e Hfail).
  fold st' in Hst'. cbv zeta in Hst'.
  rewrite !actcache_set_eq, !actcache_alias_eq in Hst'.
  destruct (timed_frame actmeta ctx st) as (Hca & Hsa & Hst0).
  pose proof (Hst0 _ sel_die (fun _ => eq_refl)) as Hd.
  pose proof (Hst0 _ sel_callback (fun _ => eq_refl)) as Hc.
  pose proof (Hst0 _ sel_errhandler (fun _ => eq_refl)) as He.
  pose proof (Hst0 _ sel_handler (fun _ => eq_refl)) as Hh.
  pose proof (Hst0 _ sel_acterr (fun _ => eq_refl)) as Ha.
  clear Hst0. revert Hst' Hca Hsa Hd Hc He Hh Ha. generalize (timed actmeta ctx st).
  intros st0 Hst' Hca Hsa Hd Hc He Hh Ha.
  assert (Hq : quiet actdone -> forall t, actdone ≫= (fun k => k t) = None).
  { intros Hq t. destruct actdone as [k|]; [|done]. simpl. by apply Hq. }
  rewrite Hst'. clear Hst'.
  destruct (truthy (get args "fatal$")).
  { destruct actstats; destruct (errhandler_runs so callargs);
      destruct (actcache_active so); see; cache_simpl;
      rewrite ?Hd, ?Hc, ?He, ?Hh, ?Ha, ?Hca, ?Hsa, ?app_nil_r;
      fin. }
  destruct (act_error_call_cb so callargs e).
  2:{ destruct actstats; destruct (errhandler_runs so callargs);
      destruct (actcache_active so); see; cache_simpl;
      rewrite ?Hd, ?Hc, ?He, ?Hh, ?Ha, ?Hca, ?Hsa, ?app_nil_r;
      fin. }
  destruct (actdone ≫= (fun k => k (EErr (formatted e), res))) as [ex|] eqn:Hk.
  2:{ destruct actstats; destruct (errhandler_runs so callargs);
      destruct (actcache_active so); see; cache_simpl;
      rewrite ?Hd, ?Hc, ?He, ?Hh, ?Ha, ?Hca, ?Hsa, ?app_nil_r;
      fin. }
  use_callback_error. rewrite actcache_alias_eq.
  destruct actstats; destruct (errhandler_runs so callargs);
    destruct (actcache_active so); destruct (errhandler so); see; cache_simpl;
    rewrite ?Hd, ?Hc, ?He, ?Hh, ?Ha, ?Hca, ?Hsa, ?app_nil_r, <- ?app_assoc; simpl;
    fin; intros; by_quiet Hk.
Qed.

Lemma act_done_ok_obs subfind so inst actmeta ctx args callargs origargs actid actstats
    actdone err res st :
  err = ENull \/ err = EFalsy ->
  bad_result so callargs err res = false ->
  let st' := act_done subfind so inst actmeta ctx args callargs origargs actid actstats
               actdone err res st in
  handled st' = handled st /\
  died st' = died st /\
  callbacks st' = app (callbacks st) [(Now, (ENull, res))] /\
  cached (st_stats_act st') = cached (st_stats_act st) /\
  (exists r, st_actcache st' =
             if actcache_active so
             then <[actid := {| ce_result := r; ce_actmeta := actmeta |}]> (st_actcache st)
             else st_actcache st) /\
  (quiet actdone ->
   acterrs st' = acterrs st /\
   st_actcache st' =
   if actcache_active so
   then <[actid := {| ce_result := (ENull, res); ce_actmeta := actmeta |}]> (st_actcache st)
   else st_actcache st).
Proof.
  intros Herr Hbad st'.
  assert (Hst' := act_done_ok_eq subfind so inst actmeta ctx args callargs origargs
                    actid actstats actdone err res st Herr Hbad).
  fold st' in Hst'. cbv zeta in Hst'.
  destruct (emit_act_out_pushes subfind callargs res
              (actcache_set so actid {| ce_result := (err, res); ce_actmeta := actmeta |}
                 (timed actmeta ctx st))) as (evs & E & Hevs).
  rewrite E in Hst'. clear E.
  pose proof (blind_omap _ _ blind_callback Hevs) as Bc.
  pose proof (blind_omap _ _ blind_handler Hevs) as Bh.
  pose proof (blind_omap _ _ blind_die Hevs) as Bd.
  pose proof (blind_omap _ _ blind_acterr Hevs) as Ba.
  rewrite !actcache_set_eq, !actcache_alias_eq in Hst'.
  destruct (timed_frame actmeta ctx st) as (Hca & Hsa & Hst0).
  pose proof (Hst0 _ sel_die (fun _ => eq_refl)) as Hd.
  pose proof (Hst0 _ sel_callback (fun _ => eq_refl)) as Hc.
  pose proof (Hst0 _ sel_handler (fun _ => eq_refl)) as Hh.
  pose proof (Hst0 _ sel_acterr (fun _ => eq_refl)) as Ha.
  clear Hst0. revert Hst' Hca Hsa Hd Hc Hh Ha. generalize (timed actmeta ctx st).
  intros st0 Hst' Hca Hsa Hd Hc Hh Ha.
  rewrite Hst'. clear Hst'.
  destruct (actdone ≫= (fun k => k (ENull, res))) as [ex|] eqn:Hk.
  2:{ destruct actstats; destruct (actcache_active so); see; cache_simpl;
      rewrite ?Bc, ?Bh, ?Bd, ?Ba, ?Hd, ?Hc, ?Hh, ?Ha, ?Hca, ?Hsa, ?app_nil_r; fin. }
  use_callback_error. rewrite actcache_alias_eq.
  destruct actstats; destruct (actcache_active so); destruct (errhandler so); see; cache_simpl;
    rewrite ?Bc, ?Bh, ?Bd, ?Ba, ?Hd, ?Hc, ?Hh, ?Ha, ?Hca, ?Hsa, ?app_nil_r, <- ?app_assoc;
    simpl; fold_omap; rewrite ?Bc, ?Bh, ?Bd, ?Ba, ?app_nil_r;
    fin; intros; by_quiet Hk.
Qed.

Lemma act_done_cases subfind so inst actmeta ctx args callargs origargs actid actstats
    actdone err res st :
  (exists e, failing so actmeta callargs err res e) \/
  ((err = ENull \/ err = EFalsy) /\ bad_result so callargs err res = false) \/
  (actmeta = None /\ bad_result so callargs err res = true /\
   act_done subfind so inst actmeta ctx args callargs origargs actid actstats actdone err res st
   = die (new_Error "TypeError: actmeta is undefined") st).
Proof.
  destruct err as [| |e].
  - destruct (bad_result so callargs ENull res) eqn:Hbad.
    + destruct actmeta as [am|].
      * left. exists (internals_error "result_not_objarr"). right.
        unfold bad_result in Hbad. simpl in Hbad.
        apply andb_true_iff in Hbad as [Hbad Hleg].
        apply andb_true_iff in Hbad as [Hbad Hstrict].
        apply andb_true_iff in Hbad as [Hn Hobj].
        apply negb_true_iff in Hn, Hobj, Hleg. eauto 10.
      * right. right. split; [done|]. split; [done|].
        unfold act_done. unfold bad_result in Hbad. simpl in *.
        apply andb_true_iff in Hbad as [Hbad Hleg]. rewrite Hbad, Hleg. done.
    + right. left. eauto.
  - right. left. eauto.
  - left. exists e. by left.
Qed.

Lemma act_done_frame subfind so inst actmeta ctx args callargs origargs actid actstats
    actdone err res st :
  let st' := act_done subfind so inst actmeta ctx args callargs origargs actid actstats
               actdone err res st in
  handled st' = handled st /\
  cached (st_stats_act st') = cached (st_stats_act st) /\
  (st_actcache st' = st_actcache st \/
   exists r, st_actcache st' = <[actid := {| ce_result := r; ce_actmeta := actmeta |}]>
                                 (st_actcache st)).
Proof.
  intros st'.
  destruct (act_done_cases subfind so inst actmeta ctx args callargs origargs actid actstats
              actdone err res st) as [[e Hf] | [[He Hb] | (Ha & Hb & E)]].
  - destruct (act_done_failing_obs subfind so inst actmeta ctx args callargs origargs actid
                actstats actdone err res st e Hf) as (Hh & _ & _ & _ & _ & Hc & [r Hr] & _).
    fold st' in Hh, Hc, Hr. repeat split; try done.
    destruct (actcache_active so); eauto.
  - destruct (act_done_ok_obs subfind so inst actmeta ctx args callargs origargs actid
                actstats actdone err res st He Hb) as (Hh & _ & _ & Hc & [r Hr] & _).
    fold st' in Hh, Hc, Hr. repeat split; try done.
    destruct (actcache_active so); eauto.
  - subst st'. rewrite E. unfold die, handled. rewrite seen_push. simpl.
    rewrite app_nil_r. eauto.
Qed.

(** *** Identifiers *)

Lemma has_slash_app a b : has_slash (a ++ b) = has_slash a || has_slash b.
Proof.
  induction a as [|c a IH]; simpl; [done|]. rewrite IH. by rewrite orb_assoc.
Qed.

Lemma has_slash_actid id0 tx : has_slash (id0 ++ "/" ++ tx) = true.
Proof. rewrite has_slash_app. simpl. by rewrite orb_true_r. Qed.

Lemma split_no_slash s : has_slash s = false -> split_slash s = [s].
Proof.
  induction s as [|c s IH]; simpl; [done|].
  intros H. apply orb_false_iff in H as [Hc Hs]. rewrite Hc, (IH Hs). done.
Qed.

Lemma split_composed i t :
  has_slash i = false -> split_slash (i ++ "/" ++ t) = i :: split_slash t.
Proof.
  induction i as [|c i IH]; simpl; [done|].
  intros H. apply orb_false_iff in H as [Hc Hs]. rewrite Hc, (IH Hs). done.
Qed.

Lemma truthy_VStr s : truthy (VStr s) = negb (String.eqb s "").
Proof. reflexivity. Qed.

Lemma act_ids_frame nid inst origargs st actid tx st' :
  act_ids nid inst origargs st = Normal (actid, tx, st') ->
  has_slash actid = true /\ exists n, st' = with_nids n st.
Proof.
  unfold act_ids, idgen. intros H.
  assert (Hn : forall n m, with_nids n (with_nids m st) = with_nids n st) by done.
  assert (H0 : st = with_nids (st_nids st) st) by (by destruct st).
  repeat match type of H with
         | context [if ?b then _ else _] => destruct b
         | context [match ?v with VStr _ => _ | _ => _ end] => destruct v; try discriminate
         end; simpl in H; inversion H; subst; clear H;
    (split; [apply has_slash_actid|]); rewrite ?Hn; eauto.
Qed.

Lemma act_ids_total nid inst origargs st s :
  js_or (get origargs "id$") (get origargs "actid$") = VStr s ->
  exists actid tx st', act_ids nid inst origargs st = Normal (actid, tx, st').
Proof.
  unfold act_ids, js_or, idgen. intros H.
  destruct (truthy (get origargs "id$")) eqn:E1.
  - rewrite H. simpl.
    repeat match goal with |- context [if ?b then _ else _] => destruct b end; eauto.
  - rewrite H. destruct (truthy (VStr s)); simpl;
      repeat match goal with |- context [if ?b then _ else _] => destruct b end; eauto.
Qed.

Lemma act_ids_nullish nid inst origargs st :
  is_nullish (get origargs "id$") = true -> is_nullish (get origargs "actid$") = true ->
  exists actid tx st', act_ids nid inst origargs st = Normal (actid, tx, st').
Proof.
  unfold act_ids, idgen. intros H1 H2.
  destruct (get origargs "id$"); try discriminate;
    destruct (get origargs "actid$"); try discriminate; simpl;
    repeat match goal with |- context [if ?b then _ else _] => destruct b end; eauto.
Qed.

Lemma act_ids_composed nid inst origargs st i t :
  get origargs "id$" = VStr (i ++ "/" ++ t) ->
  i <> "" -> t <> "" -> has_slash i = false -> has_slash t = false ->
  act_ids nid inst origargs st = Normal (i ++ "/" ++ t, VStr t, st).
Proof.
  intros H Hi Ht Hsi Hst. unfold act_ids. rewrite H.
  assert (Hne : String.eqb (i ++ "/" ++ t) "" = false).
  { destruct i; simpl; done. }
  rewrite truthy_VStr, Hne. simpl.
  rewrite (split_composed _ _ Hsi), (split_no_slash _ Hst). simpl.
  apply String.eqb_neq in Hi, Ht. rewrite Hi, Ht. simpl. reflexivity.
Qed.

Lemma act_ids_bare nid inst origargs st x :
  get origargs "id$" = VStr x -> x <> "" -> has_slash x = false ->
  exists tx st', act_ids nid inst origargs st = Normal (x ++ "/" ++ to_str tx, tx, st').
Proof.
  intros H Hx Hs. unfold act_ids, idgen. rewrite H.
  apply String.eqb_neq in Hx. rewrite truthy_VStr, Hx. simpl.
  rewrite (split_no_slash _ Hs). simpl. rewrite Hx. simpl.
  repeat match goal with |- context [if ?b then _ else _] => destruct b end; eauto.
Qed.

(** *** Delegates *)

Lemma delegate_call_frame nid so holder this further st :
  exists d, delegate_call nid so holder this further st = (d, with_nids (S (st_nids st)) st).
Proof.
  revert further. induction holder as [f|self IH did f]; intros further; simpl.
  - unfold api_delegate, refnid, idgen. eauto.
  - apply IH.
Qed.

Lemma delegate_method_frame nid so i further st :
  exists d, delegate_method nid so i further st = (d, with_nids (S (st_nids st)) st).
Proof. apply delegate_call_frame. Qed.

(** *** The cache on dispatch *)

Lemma apply_actcache_eq so inst callargs origargs ctx actcb st :
  apply_actcache so inst callargs origargs ctx actcb st
  = match replayable so callargs st with
    | Some e => (true, push (EvCallback NextTick (ce_result e))
                         (push (EvLog "debug" "act" "CACHE") (with_stats_act bump_cached st)))
    | None => (false, st)
    end.
Proof.
  unfold apply_actcache, replayable.
  destruct (negb _ && _); [|done]. by destruct (actcache_get _ st).
Qed.

Lemma replayable_with_default so origargs st :
  replayable so (with_default so origargs) st = replayable so origargs st.
Proof.
  unfold replayable, with_default, get. by rewrite !lookup_insert_ne.
Qed.

Lemma replayable_with_nids so origargs n st :
  replayable so origargs (with_nids n st) = replayable so origargs st.
Proof. reflexivity. Qed.

Lemma do_act_replay nid find subfind so inst actmeta ctx origargs actdone st e :
  replayable so origargs st = Some e ->
  exists n,
    do_act nid find subfind so inst actmeta ctx origargs actdone st
    = Normal (push (EvCallback NextTick (ce_result e))
                (push (EvLog "debug" "act" "CACHE")
                   (with_stats_act bump_cached (with_nids n st)))).
Proof.
  intros Hr. unfold do_act.
  assert (exists s, js_or (get origargs "id$") (get origargs "actid$") = VStr s) as [s Hs].
  { unfold replayable in Hr. destruct (negb _ && _); [|done].
    unfold actcache_get in Hr. destruct (js_or _ _); try done. eauto. }
  destruct (act_ids_total nid inst origargs st s Hs) as (actid & tx & st1 & E).
  rewrite E. destruct (act_ids_frame _ _ _ _ _ _ _ E) as (_ & n & ->).
  rewrite apply_actcache_eq, replayable_with_default, replayable_with_nids, Hr. eauto.
Qed.

Lemma do_act_miss nid find subfind so inst actmeta ctx origargs actdone st actid tx st1 :
  act_ids nid inst origargs st = Normal (actid, tx, st1) ->
  replayable so origargs st = None ->
  exists xinst n,
    do_act nid find subfind so inst actmeta ctx origargs actdone st
    = Normal (execute_action nid find subfind so inst xinst actmeta
                (default {| chain := []; entry := true; depth := 1 |} ctx)
                (with_default so origargs) origargs actid tx actdone (with_nids n st)).
Proof.
  intros E Hr. unfold do_act. rewrite E.
  destruct (act_ids_frame _ _ _ _ _ _ _ E) as (_ & n & ->).
  rewrite apply_actcache_eq, replayable_with_default, replayable_with_nids, Hr.
  destruct (truthy (get (with_default so origargs) "gate$")).
  - destruct (delegate_method_frame nid so inst None (with_nids n st)) as (d & ->).
    simpl. eauto.
  - eauto.
Qed.

(** *** [executable_action] and [execute_action] *)

Lemma executable_action_found so ctx args callargs origargs am inst k st :
  executable_action so ctx args callargs origargs (Some am) inst k st
  = if loop_ok so args am then (true, st)
    else (false, k (EErr (internals_error "act_loop")) VUndef st).
Proof.
  unfold executable_action, loop_ok.
  destruct (get args "history$"); try done.
  destruct (0 <? _)%nat; [|done]. simpl. by destruct (_ <? _)%Z.
Qed.

Lemma delegate_call_fixed nid so holder this further st :
  fixedargs (delegate_call nid so holder this further st).1
  = delegate_fixed so holder this further.
Proof.
  revert further. induction holder as [f|self IH did f]; intros further; simpl.
  - unfold api_delegate, refnid, idgen. simpl. by destruct (strict_fixedargs so).
  - apply IH.
Qed.

Lemma act_make_delegate_eq nid so inst tx callargs am ctx st :
  exists d, act_make_delegate nid so inst tx callargs am ctx st
            = (d, with_nids (S (st_nids st)) st) /\
            fixedargs d = call_fixedargs so inst tx am.
Proof.
  unfold act_make_delegate, delegate_method, call_fixedargs.
  pose proof (delegate_call_fixed nid so inst inst
                (Some {[ "plugin$" := VObj [("name", VStr (am_plugin_name am));
                                            ("tag", VStr (am_plugin_tag am))] ]}) st) as Hf.
  destruct (delegate_call_frame nid so inst inst
              (Some {[ "plugin$" := VObj [("name", VStr (am_plugin_name am));
                                          ("tag", VStr (am_plugin_tag am))] ]}) st) as (d & E).
  rewrite E in Hf |- *. simpl in Hf. eexists. split; [reflexivity|].
  destruct (truthy tx); [|done]. rewrite <- Hf. by destruct d.
Qed.

Lemma validate_action_message_valid so args am (K : option error -> state -> state) st :
  valid am args = true -> validate_action_message so args am K st = K None st.
Proof.
  unfold valid, validate_action_message. intros Hv.
  destruct (am_validate am) as [v|]; [|done].
  apply bool_decide_eq_true in Hv. by rewrite Hv.
Qed.

Lemma validate_action_message_invalid so args am (K : option error -> state -> state) st :
  valid am args = false ->
  validate_action_message so args am K st
  = K (Some (internals_error (if legacy_error_codes so then "act_invalid_args"
                              else "act_invalid_msg"))) st.
Proof.
  unfold valid, validate_action_message. intros Hv.
  destruct (am_validate am) as [v|]; [|done].
  apply bool_decide_eq_false in Hv. destruct (v args); [done|by destruct Hv].
Qed.

Lemma execute_action_not_found nid find subfind so inst xinst ctx args origargs actid tx
    actdone st :
  find (st_actrouter st) args (internal_catchall so) = None ->
  execute_action nid find subfind so inst xinst None ctx args origargs actid tx actdone st
  = (executable_action so ctx args args origargs None xinst
       (act_done subfind so inst None ctx args args origargs actid None actdone) st).2.
Proof.
  intros Hf. unfold execute_action. rewrite Hf.
  by destruct (executable_action _ _ _ _ _ _ _ _ _) as [[] ?].
Qed.

Lemma execute_action_loop nid find subfind so inst xinst actmeta ctx args origargs actid tx
    actdone st am :
  match actmeta with
  | Some a => Some a
  | None => find (st_actrouter st) args (internal_catchall so)
  end = Some am ->
  loop_ok so args am = false ->
  execute_action nid find subfind so inst xinst actmeta ctx args origargs actid tx actdone st
  = act_done subfind so inst (Some am) ctx args args origargs actid None actdone
      (EErr (internals_error "act_loop")) VUndef st.
Proof.
  intros Hf Hl. unfold execute_action. rewrite Hf, executable_action_found, Hl. done.
Qed.

Lemma execute_action_found nid find subfind so inst xinst actmeta ctx args origargs actid tx
    actdone st am :
  match actmeta with
  | Some a => Some a
  | None => find (st_actrouter st) args (internal_catchall so)
  end = Some am ->
  loop_ok so args am = true ->
  valid am args = true ->
  let is_sync := bool_decide (is_Some actdone) in
  let args' := call_args args actid tx am ctx is_sync in
  let cm := call_message so xinst args actid tx am ctx is_sync in
  let action_done :=
    act_done subfind so inst (Some am) ctx args' cm origargs actid (Some (am_pattern am))
      actdone in
  exists evs, Forall sub_event evs /\
  execute_action nid find subfind so inst xinst actmeta ctx args origargs actid tx actdone st
  = let st4 :=
      pushes (app (if truthy (am_deprecate am) then [EvLog "warn" "act" "DEPRECATED"] else [])
                (app (if negb (am_sub am) then [EvLog "debug" "act" "IN"] else [])
                     (EvActIn cm :: evs)))
        (with_nids (S (st_nids st)) (act_stats_call (am_pattern am) st)) in
    if st_closed st && negb (truthy (get cm "closing$"))
    then action_done (EErr (internals_error "instance-closed")) VUndef st4
    else
      let t := outcome_tuple (fn_call (am_func am) cm) in
      action_done t.1 t.2 (push (EvHandler (am_id am) cm) st4).
Proof.
  intros Hf Hl Hv is_sync args' cm action_done.
  unfold execute_action. rewrite Hf, executable_action_found, Hl.
  rewrite (validate_action_message_valid so args am _ st Hv).
  fold is_sync.
  set (st2 := if truthy (am_deprecate am)
              then push (EvLog "warn" "act" "DEPRECATED") (act_stats_call (am_pattern am) st)
              else act_stats_call (am_pattern am) st).
  destruct (act_make_delegate_eq nid so xinst tx args' am ctx st2) as (d & E & Hd).
  subst args' cm action_done. unfold call_message, call_args in *.
  rewrite E. rewrite Hd.
  set (cm := extend _ {[ "tx$" := tx ]}).
  set (st3 := if negb (am_sub am)
              then push (EvLog "debug" "act" "IN") (with_nids (S (st_nids st2)) st2)
              else with_nids (S (st_nids st2)) st2).
  destruct (emit_act_in_pushes subfind cm st3) as (evs & Ein & Hevs).
  exists evs. split; [exact Hevs|]. rewrite Ein.
  assert (Hst4 : pushes (EvActIn cm :: evs) st3
                 = pushes (app (if truthy (am_deprecate am)
                                then [EvLog "warn" "act" "DEPRECATED"] else [])
                             (app (if negb (am_sub am) then [EvLog "debug" "act" "IN"] else [])
                                  (EvActIn cm :: evs)))
                     (with_nids (S (st_nids st)) (act_stats_call (am_pattern am) st))).
  { subst st3 st2. destruct (truthy (am_deprecate am)); destruct (negb (am_sub am)); simpl;
      unfold pushes, push; simpl; rewrite <- ?app_assoc; reflexivity. }
  rewrite Hst4. simpl.
  destruct (st_closed st && negb (truthy (get cm "closing$"))); [reflexivity|].
  destruct (fn_call (am_func am) cm); reflexivity.
Qed.

Lemma replayable_nullish so origargs st :
  is_nullish (get origargs "id$") = true ->
  is_nullish (get origargs "actid$") = true ->
  replayable so origargs st = None.
Proof.
  unfold replayable, js_or. intros H1 H2.
  destruct (get origargs "id$"); try discriminate;
    destruct (get origargs "actid$"); try discriminate; reflexivity.
Qed.

Lemma dispatched_nullish nid so inst origargs st :
  is_nullish (get origargs "id$") = true ->
  is_nullish (get origargs "actid$") = true ->
  dispatched nid so inst origargs st.
Proof.
  intros H1 H2. split; [by apply act_ids_nullish|by apply replayable_nullish].
Qed.

Lemma get_with_default so origargs k :
  k <> "default$" -> get (with_default so origargs) k = get origargs k.
Proof. intros H. unfold with_default, get. by rewrite lookup_insert_ne. Qed.

Lemma formatted_internal code : formatted (internals_error code) = internals_error code.
Proof. reflexivity. Qed.

(** C5 (as amended). When no pattern matches a dispatched message, with [d]
    the value of [default$] after [do_act] has
    replaced a falsy [default$] by [{}] when [strict.find] is off: if [d] is
    a plain object or an array the continuation is called with [(null, d)];
    otherwise the error is [act_default_bad] when [d] is not [undefined]
    and [act_not_found] when it is, and either the message carries a truthy
    [fatal$], the instance dies of the error and the continuation is not
    called, or the continuation is called with the error (unless an
    [errhandler] consumes it). The handler of no action is called. *)
Theorem C5_no_pattern_matches :
  forall (nid : nat -> string)
         (find : list (msg * actmeta) -> msg -> bool -> option actmeta)
         (subfind : list (msg * sublist) -> msg -> option nat)
         (so : options) (inst : instance) (ctx : option ctxt) (origargs : msg)
         (actdone : option (tuple -> option error)) (st : state),
    dispatched nid so inst origargs st ->
    find (st_actrouter st) (with_default so origargs) (internal_catchall so) = None ->
    let d := get (with_default so origargs) "default$" in
    let err := internals_error (if isUndefined d then "act_not_found" else "act_default_bad") in
    d = (if truthy (get origargs "default$") || strict_find so
         then get origargs "default$" else VObj []) /\
    exists st',
      do_act nid find subfind so inst None ctx origargs actdone st = Normal st' /\
      handled st' = handled st /\
      if isPlainObject d || isArray d then
        callbacks st' = app (callbacks st) [(Now, (ENull, d))] /\ died st' = died st
      else if truthy (get origargs "fatal$") then
        callbacks st' = callbacks st /\ died st' = app (died st) [err]
      else
        died st' = died st /\
        callbacks st' = app (callbacks st)
                          (if match errhandler so with Some h => h err | None => false end
                           then [] else [(Now, (EErr err, VUndef))]).
Proof.
  intros nid find subfind so inst ctx origargs actdone st
    [(actid & tx & st1 & E) Hr] Hfind d err.
  split.
  { subst d. unfold with_default, get at 1. rewrite lookup_insert_eq. simpl.
    unfold js_or. destruct (truthy (get origargs "default$")); simpl; [done|].
    by destruct (strict_find so). }
  destruct (do_act_miss nid find subfind so inst None ctx origargs actdone st actid tx st1 E
              Hr) as (xinst & n & ->).
  eexists. split; [reflexivity|].
  rewrite execute_action_not_found by exact Hfind.
  unfold executable_action. fold d.
  set (c := default {| chain := []; entry := true; depth := 1 |} ctx).
  rewrite (get_with_default so origargs "fatal$") by done.
  destruct (isPlainObject d || isArray d) eqn:Hd.
  - simpl.
    destruct (act_done_ok_obs subfind so inst None c (with_default so origargs)
                (with_default so origargs) origargs actid None actdone ENull d
                (push (EvLog "debug" "act" "DEFAULT") (with_nids n st)))
      as (Hh & Hdied & Hcb & _); [by left| |].
    { unfold bad_result, objarr. rewrite Hd. simpl.
      by rewrite !andb_false_r. }
    rewrite Hh, Hcb, Hdied. unfold handled, callbacks, died. rewrite !seen_push. simpl.
    rewrite !app_nil_r. done.
  - assert (Hcode : (if negb (isUndefined d) then "act_default_bad" else "act_not_found")
                    = (if isUndefined d then "act_not_found" else "act_default_bad"))
      by (by destruct (isUndefined d)).
    rewrite Hcode. fold err.
    destruct (truthy (get origargs "fatal$")) eqn:Hfatal; simpl.
    + unfold die, handled, callbacks, died. rewrite !seen_push. simpl.
      rewrite !app_nil_r. done.
    + destruct (act_done_failing_obs subfind so inst None c (with_default so origargs)
                  (with_default so origargs) origargs actid None actdone (EErr err) VUndef
                  (if trace_unknown so
                   then push (EvLog "warn" "act" "UNKNOWN") (with_nids n st)
                   else with_nids n st) err)
        as (Hh & _ & _ & Hdied & Hcb & _); [by left|].
      rewrite (get_with_default so origargs "fatal$"), Hfatal in Hdied, Hcb by done.
      fold err. rewrite Hh, Hcb, Hdied.
      unfold act_error_call_cb.
      rewrite (get_with_default so origargs "fatal$"), Hfatal by done. simpl.
      subst err. rewrite formatted_internal.
      destruct (trace_unknown so); unfold handled, callbacks, died; rewrite ?seen_push; simpl;
        rewrite ?app_nil_r; (split; [done|]); (split; [done|]);
        destruct (errhandler so) as [h|]; try done; by destruct (h _).
Qed.

Lemma handled_found_state so xinst args actid tx am ctx is_sync evs st0 :
  Forall sub_event evs ->
  handled
    (push (EvHandler (am_id am) (call_message so xinst args actid tx am ctx is_sync))
       (pushes
          (app (if truthy (am_deprecate am) then [EvLog "warn" "act" "DEPRECATED"] else [])
             (app (if negb (am_sub am) then [EvLog "debug" "act" "IN"] else [])
                  (EvActIn (call_message so xinst args actid tx am ctx is_sync) :: evs)))
          st0))
  = app (handled st0) [(am_id am, call_message so xinst args actid tx am ctx is_sync)].
Proof.
  intros Hevs. unfold handled. rewrite seen_push, seen_pushes, !omap_app. simpl.
  fold_omap. rewrite (blind_omap _ _ blind_handler Hevs).
  destruct (truthy (am_deprecate am)); destruct (negb (am_sub am)); simpl;
    rewrite ?app_nil_r; reflexivity.
Qed.

Lemma matches_action_iff id entry_ :
  matches_action id entry_ = true <-> prop entry_ "action" = VStr id.
Proof.
  unfold matches_action, is_str. destruct (prop entry_ "action"); try (split; discriminate).
  rewrite String.eqb_eq. split; [by intros ->|by intros [= ->]].
Qed.

Lemma loop_ok_refused so args am history :
  get args "history$" = VArr history ->
  loop_ok so args am
  = negb ((0 <? List.length history)%nat &&
          (strict_maxloop so <?
           Z.of_nat (List.length (List.filter (matches_action (am_id am)) history)))%Z).
Proof. intros H. unfold loop_ok. by rewrite H. Qed.

(** C6 (as amended). For a message whose [history$] is an array, with
    [repeat_count] the number of its entries whose [action] is the id of
    the resolved action: [executable_action] answers [act_loop] to its
    continuation and stops the call exactly when [history$] is not empty
    and [strict.maxloop < repeat_count]; for a [strict.maxloop] that is not
    negative this is exactly when [strict.maxloop < repeat_count], while on
    an empty [history$] no check is made, whatever [strict.maxloop] is.
    When the message is dispatched and the call is stopped, the dispatch
    emits the [act_loop] error and calls no handler; otherwise the check
    lets the call through and the handler is called (when the validator
    accepts the message and the instance is not closed). The default
    [strict.maxloop] is 11. *)
Theorem C6_loop_guard :
  forall (nid : nat -> string)
         (find : list (msg * actmeta) -> msg -> bool -> option actmeta)
         (subfind : list (msg * sublist) -> msg -> option nat)
         (so : options) (inst : instance) (given : option actmeta) (am : actmeta)
         (ctx : option ctxt) (origargs : msg)
         (actdone : option (tuple -> option error)) (st : state) (history : list value),
    get origargs "history$" = VArr history ->
    let repeat_count := List.length (List.filter (matches_action (am_id am)) history) in
    let stopped :=
      (0 <? List.length history)%nat && (strict_maxloop so <? Z.of_nat repeat_count)%Z in
    strict_maxloop defaults = 11%Z /\
    (forall entry_,
        matches_action (am_id am) entry_ = true <-> prop entry_ "action" = VStr (am_id am)) /\
    ((0 <= strict_maxloop so)%Z ->
     stopped = (strict_maxloop so <? Z.of_nat repeat_count)%Z) /\
    (history = [] -> stopped = false) /\
    (forall c callargs xinst k st0,
       executable_action so c (with_default so origargs) callargs origargs (Some am) xinst k st0
       = if stopped
         then (false, k (EErr (internals_error "act_loop")) VUndef st0)
         else (true, st0)) /\
    (dispatched nid so inst origargs st ->
     match given with
     | Some a => Some a
     | None => find (st_actrouter st) (with_default so origargs) (internal_catchall so)
     end = Some am ->
     exists st',
       do_act nid find subfind so inst given ctx origargs actdone st = Normal st' /\
       if stopped then
         handled st' = handled st /\
         exists later, acterrs st' = app (acterrs st) (internals_error "act_loop" :: later)
       else
         valid am (with_default so origargs) = true -> st_closed st = false ->
         exists callargs, handled st' = app (handled st) [(am_id am, callargs)]).
Proof.
  intros nid find subfind so inst given am ctx origargs actdone st history
    Hhist repeat_count stopped.
  assert (Hh : get (with_default so origargs) "history$" = VArr history)
    by (by rewrite get_with_default).
  pose proof (loop_ok_refused so (with_default so origargs) am history Hh) as Hloop.
  fold repeat_count in Hloop. fold stopped in Hloop.
  split; [reflexivity|]. split; [intros entry_; apply matches_action_iff|]. split.
  { intros Hmax. subst stopped. destruct history as [|h t]; [|reflexivity].
    simpl. symmetry. apply Z.ltb_ge. exact Hmax. }
  split; [by intros ->|]. split.
  { intros c callargs xinst k st0. rewrite executable_action_found, Hloop.
    by destruct stopped. }
  intros [(actid & tx & st1 & E) Hr] Hres.
  destruct (do_act_miss nid find subfind so inst given ctx origargs actdone st actid tx st1 E
              Hr) as (xinst & n & ->).
  eexists. split; [reflexivity|].
  set (c := default {| chain := []; entry := true; depth := 1 |} ctx).
  destruct stopped; simpl in Hloop.
  - rewrite (execute_action_loop nid find subfind so inst xinst given c
               (with_default so origargs) origargs actid tx actdone (with_nids n st) am
               Hres Hloop).
    destruct (act_done_failing_obs subfind so inst (Some am) c (with_default so origargs)
                (with_default so origargs) origargs actid None actdone
                (EErr (internals_error "act_loop")) VUndef (with_nids n st)
                (internals_error "act_loop")) as (Hhd & Hae & _); [by left|].
    rewrite Hhd. split; [done|]. exact Hae.
  - intros Hvalid Hclosed.
    destruct (execute_action_found nid find subfind so inst xinst given c
                (with_default so origargs) origargs actid tx actdone (with_nids n st) am
                Hres Hloop Hvalid) as (evs & Hevs & ->).
    cbv zeta. simpl st_closed. rewrite Hclosed. simpl.
    eexists.
    match goal with
    | |- handled (act_done ?a ?b ?c ?d ?e ?f ?g ?h ?i ?j ?k ?l ?m ?o) = _ =>
        destruct (act_done_frame a b c d e f g h i j k l m o) as (-> & _)
    end.
    rewrite (handled_found_state so xinst _ actid tx am c _ evs _ Hevs). reflexivity.
Qed.

(** *** What a dispatch does to the action cache *)

Lemma execute_action_invalid nid find subfind so inst xinst given ctx args origargs actid tx
    actdone st am :
  match given with
  | Some a => Some a
  | None => find (st_actrouter st) args (internal_catchall so)
  end = Some am ->
  loop_ok so args am = true ->
  valid am args = false ->
  execute_action nid find subfind so inst xinst given ctx args origargs actid tx actdone st
  = act_done subfind so inst (Some am) ctx args args origargs actid None actdone
      (EErr (internals_error (if legacy_error_codes so then "act_invalid_args"
                              else "act_invalid_msg"))) VUndef st.
Proof.
  intros Hf Hl Hv. unfold execute_action. rewrite Hf, executable_action_found, Hl.
  by rewrite (validate_action_message_invalid so args am _ st Hv).
Qed.

Lemma execute_action_frame nid find subfind so inst xinst given ctx args origargs actid tx
    actdone st :
  let st' := execute_action nid find subfind so inst xinst given ctx args origargs actid tx
               actdone st in
  cached (st_stats_act st') = cached (st_stats_act st) /\
  (st_actcache st' = st_actcache st \/
   exists e, st_actcache st' = <[actid := e]> (st_actcache st)).
Proof.
  intros st'. subst st'.
  destruct (match given with
            | Some a => Some a
            | None => find (st_actrouter st) args (internal_catchall so)
            end) as [am|] eqn:Hres.
  - destruct (loop_ok so args am) eqn:Hl.
    + destruct (valid am args) eqn:Hv.
      * destruct (execute_action_found nid find subfind so inst xinst given ctx args origargs
                    actid tx actdone st am Hres Hl Hv) as (evs & _ & ->).
        cbv zeta.
        destruct (st_closed st && _);
          match goal with
          | |- context [act_done ?a ?b ?c ?d ?e ?f ?g ?h ?i ?j ?k ?l ?m ?o] =>
              destruct (act_done_frame a b c d e f g h i j k l m o) as (_ & -> & [-> | [r ->]])
          end; simpl; eauto.
      * rewrite (execute_action_invalid nid find subfind so inst xinst given ctx args origargs
                   actid tx actdone st am Hres Hl Hv).
        match goal with
        | |- context [act_done ?a ?b ?c ?d ?e ?f ?g ?h ?i ?j ?k ?l ?m ?o] =>
            destruct (act_done_frame a b c d e f g h i j k l m o) as (_ & -> & [-> | [r ->]])
        end; eauto.
    + rewrite (execute_action_loop nid find subfind so inst xinst given ctx args origargs
                 actid tx actdone st am Hres Hl).
      match goal with
      | |- context [act_done ?a ?b ?c ?d ?e ?f ?g ?h ?i ?j ?k ?l ?m ?o] =>
          destruct (act_done_frame a b c d e f g h i j k l m o) as (_ & -> & [-> | [r ->]])
      end; eauto.
  - destruct given as [a|]; [discriminate|].
    rewrite execute_action_not_found by exact Hres.
    unfold executable_action.
    destruct (isPlainObject _ || isArray _); simpl.
    + match goal with
      | |- context [act_done ?a ?b ?c ?d ?e ?f ?g ?h ?i ?j ?k ?l ?m ?o] =>
          destruct (act_done_frame a b c d e f g h i j k l m o) as (_ & -> & [-> | [r ->]])
      end; simpl; eauto.
    + destruct (truthy (get args "fatal$")); simpl; [eauto|].
      match goal with
      | |- context [act_done ?a ?b ?c ?d ?e ?f ?g ?h ?i ?j ?k ?l ?m ?o] =>
          destruct (act_done_frame a b c d e f g h i j k l m o) as (_ & -> & [-> | [r ->]])
      end; destruct (trace_unknown so); simpl; eauto.
Qed.

Lemma slashed_insert st st' actid e :
  slashed st -> has_slash actid = true ->
  st_actcache st' = st_actcache st \/ st_actcache st' = <[actid := e]> (st_actcache st) ->
  slashed st'.
Proof.
  intros Hs Ha [E | E] k; rewrite E; [apply Hs|].
  destruct (decide (actid = k)) as [<-|Hne]; [done|].
  rewrite lookup_insert_ne by done. apply Hs.
Qed.

Lemma do_act_slashed nid find subfind so inst given ctx origargs actdone st st' :
  do_act nid find subfind so inst given ctx origargs actdone st = Normal st' ->
  slashed st -> slashed st'.
Proof.
  intros H Hs.
  destruct (act_ids nid inst origargs st) as [[[actid tx] st1]|ex] eqn:E.
  2:{ unfold do_act in H. by rewrite E in H. }
  destruct (replayable so origargs st) as [e|] eqn:Hr.
  - destruct (do_act_replay nid find subfind so inst given ctx origargs actdone st e Hr)
      as (n & E'). rewrite E' in H. inversion H; subst. exact Hs.
  - destruct (do_act_miss nid find subfind so inst given ctx origargs actdone st actid tx st1
                E Hr) as (xinst & n & E'). rewrite E' in H. inversion H; subst. clear H.
    destruct (act_ids_frame _ _ _ _ _ _ _ E) as (Ha & _).
    match goal with
    | |- slashed (execute_action ?a ?b ?c ?d ?e ?f ?g ?h ?i ?j ?k ?l ?m ?o) =>
        destruct (execute_action_frame a b c d e f g h i j k l m o) as (_ & [Hc | [e' Hc]])
    end.
    + eapply (slashed_insert (with_nids n st) _ actid (Build_cache_entry (ENull, VUndef) None));
        [exact Hs|exact Ha|by left].
    + eapply (slashed_insert (with_nids n st) _ actid e'); [exact Hs|exact Ha|by right].
Qed.

Lemma slashed_initial : slashed initial.
Proof. intros k [e H]. simpl in H. by rewrite lookup_empty in H. Qed.

Lemma replayable_key so origargs st e :
  replayable so origargs st = Some e ->
  exists k, js_or (get origargs "id$") (get origargs "actid$") = VStr k /\
            st_actcache st !! k = Some e.
Proof.
  unfold replayable, actcache_get. destruct (negb _ && _); [|done].
  destruct (js_or _ _); try done. eauto.
Qed.

Lemma replayable_bare so origargs st x :
  slashed st -> get origargs "id$" = VStr x -> x <> "" -> has_slash x = false ->
  replayable so origargs st = None.
Proof.
  intros Hs Hid Hx Hsl.
  destruct (replayable so origargs st) as [e|] eqn:Hr; [|done].
  destruct (replayable_key so origargs st e Hr) as (k & Hk & Hc).
  unfold js_or in Hk. rewrite Hid in Hk. apply String.eqb_neq in Hx.
  rewrite truthy_VStr, Hx in Hk. simpl in Hk. inversion Hk; subst.
  rewrite (Hs k) in Hsl; [done|eauto].
Qed.

Lemma act_done_stores subfind so inst am ctx args callargs origargs actid actstats
    actdone err res st :
  actcache_active so = true ->
  exists r,
    st_actcache (act_done subfind so inst (Some am) ctx args callargs origargs actid actstats
                   actdone err res st)
    = <[actid := {| ce_result := r; ce_actmeta := Some am |}]> (st_actcache st).
Proof.
  intros Hact.
  destruct (act_done_cases subfind so inst (Some am) ctx args callargs origargs actid actstats
              actdone err res st) as [[e Hf] | [[He Hb] | (Ha & _)]]; [| |discriminate].
  - destruct (act_done_failing_obs subfind so inst (Some am) ctx args callargs origargs actid
                actstats actdone err res st e Hf) as (_ & _ & _ & _ & _ & _ & [r Hr] & _).
    rewrite Hact in Hr. eauto.
  - destruct (act_done_ok_obs subfind so inst (Some am) ctx args callargs origargs actid
                actstats actdone err res st He Hb) as (_ & _ & _ & _ & [r Hr] & _).
    rewrite Hact in Hr. eauto.
Qed.

Lemma truthy_keys (m : msg) : truthy (keys m) = true.
Proof. reflexivity. Qed.

Lemma api_add_actcache nid find so self raw action_ actmeta_ st st' :
  api_add nid find so self raw action_ actmeta_ st = Normal (self, st') ->
  st_actcache st' = st_actcache st.
Proof.
  unfold api_add, add_actmeta. rewrite truthy_keys.
  cbv beta iota zeta delta [negb refnid idgen].
  intros H. inversion H; subst; clear H.
  destruct (select_prior _ _ _ _) as [pm|]; [destruct (am_handle pm)|]; reflexivity.
Qed.

Lemma api_sub_actcache subfind self pattern action_ st :
  st_actcache (api_sub subfind self pattern action_ st) = st_actcache st.
Proof.
  unfold api_sub.
  destruct (st_handle_sub st);
    match goal with
    | |- context [match ?x with _ => _ end] => destruct x as [[i [q subs]]|]
    end; reflexivity.
Qed.

Lemma run_prior_slashed nid find subfind so step prior_cb st st' :
  run_prior nid find subfind so step prior_cb st = Normal st' -> slashed st -> slashed st'.
Proof.
  destruct step as [d pm c a|r]; simpl.
  - apply do_act_slashed.
  - destruct prior_cb as [k|]; [|discriminate]. destruct (k r); [discriminate|].
    intros H Hs. inversion H; subst. exact Hs.
Qed.

(** Every key of the cache of an instance has a [/]. *)
Lemma reachable_slashed nid find subfind caller_text so st :
  reachable nid find subfind caller_text so st -> slashed st.
Proof.
  induction 1 as [|st self raw a m st' _ IH H|st self pat a _ IH
                  |st self pat cb st' _ IH H|st step cb st' _ IH H].
  - apply slashed_initial.
  - intros k. rewrite (api_add_actcache _ _ _ _ _ _ _ _ _ H). apply IH.
  - intros k. rewrite api_sub_actcache. apply IH.
  - unfold api_act in H.
    destruct (do_act _ _ _ _ _ _ _ _ _ _) as [st1|ex] eqn:E; [|discriminate].
    inversion H; subst. eapply do_act_slashed; [exact E|exact IH].
  - eapply run_prior_slashed; [exact H|exact IH].
Qed.

(** C4. The replay lookup of a dispatch takes the value of [id$] (or
    [actid$]) as it is for the key, while [act_done] stores under [actid],
    which is [<id>/<tx>]: every key of the cache has a [/]. So, in a state
    whose cache was filled by dispatches, an act whose [id$] has no [/] is
    never replayed, however often it is repeated: [do_act] goes on to
    [execute_action], the [act.cache] counter stays, the handler is called
    (when the action is found and lets the call through), and what the call
    stores goes under [id$ + '/' + tx]. A replay happens only for a message
    whose [id$] is a key of the cache. *)
Theorem C4_bare_id_misses_cache :
  forall (nid : nat -> string)
         (find : list (msg * actmeta) -> msg -> bool -> option actmeta)
         (subfind : list (msg * sublist) -> msg -> option nat)
         (so : options) (inst : instance) (given : option actmeta) (ctx : option ctxt)
         (origargs : msg) (actdone : option (tuple -> option error)) (st : state)
         (x : string),
    slashed st ->
    get origargs "id$" = VStr x -> x <> "" -> has_slash x = false ->
    replayable so origargs st = None /\
    (forall (m : msg) e,
        replayable so m st = Some e ->
        exists k, js_or (get m "id$") (get m "actid$") = VStr k /\
                  st_actcache st !! k = Some e /\ has_slash k = true) /\
    exists tx xinst n st',
      do_act nid find subfind so inst given ctx origargs actdone st = Normal st' /\
      st' = execute_action nid find subfind so inst xinst given
              (default {| chain := []; entry := true; depth := 1 |} ctx)
              (with_default so origargs) origargs (x ++ "/" ++ to_str tx) tx actdone
              (with_nids n st) /\
      cached (st_stats_act st') = cached (st_stats_act st) /\
      (st_actcache st' = st_actcache st \/
       exists e, st_actcache st' = <[x ++ "/" ++ to_str tx := e]> (st_actcache st)) /\
      slashed st' /\
      forall am,
        match given with
        | Some a => Some a
        | None => find (st_actrouter st) (with_default so origargs) (internal_catchall so)
        end = Some am ->
        loop_ok so (with_default so origargs) am = true ->
        valid am (with_default so origargs) = true ->
        st_closed st = false ->
        (exists callargs, handled st' = app (handled st) [(am_id am, callargs)]) /\
        (actcache_active so = true -> is_Some (st_actcache st' !! (x ++ "/" ++ to_str tx))).
Proof.
  intros nid find subfind so inst given ctx origargs actdone st x Hs Hid Hx Hsl.
  pose proof (replayable_bare so origargs st x Hs Hid Hx Hsl) as Hr.
  split; [exact Hr|]. split.
  { intros m e Hm. destruct (replayable_key so m st e Hm) as (k & Hk & Hc).
    exists k. repeat split; try done. apply Hs. eauto. }
  destruct (act_ids_bare nid inst origargs st x Hid Hx Hsl) as (tx & st1 & E).
  destruct (do_act_miss nid find subfind so inst given ctx origargs actdone st _ tx st1 E Hr)
    as (xinst & n & Hdo).
  exists tx, xinst, n. eexists. split; [exact Hdo|]. split; [reflexivity|].
  set (c := default {| chain := []; entry := true; depth := 1 |} ctx).
  destruct (execute_action_frame nid find subfind so inst xinst given c
              (with_default so origargs) origargs (x ++ "/" ++ to_str tx) tx actdone
              (with_nids n st)) as (Hc & Hcache).
  split; [exact Hc|]. split; [exact Hcache|]. split.
  { eapply do_act_slashed; [exact Hdo|exact Hs]. }
  intros am Hres Hloop Hvalid Hclosed.
  destruct (execute_action_found nid find subfind so inst xinst given c
              (with_default so origargs) origargs (x ++ "/" ++ to_str tx) tx actdone
              (with_nids n st) am Hres Hloop Hvalid) as (evs & Hevs & ->).
  cbv zeta. simpl st_closed. rewrite Hclosed. simpl. split.
  - eexists.
    match goal with
    | |- handled (act_done ?a ?b ?c ?d ?e ?f ?g ?h ?i ?j ?k ?l ?m ?o) = _ =>
        destruct (act_done_frame a b c d e f g h i j k l m o) as (-> & _)
    end.
    rewrite (handled_found_state so xinst _ _ tx am c _ evs _ Hevs). reflexivity.
  - intros Hact.
    match goal with
    | |- context [act_done ?a ?b ?i0 (Some ?am') ?d ?e ?f ?g ?h ?i ?j ?k ?l ?m] =>
        destruct (act_done_stores a b i0 am' d e f g h i j k l m Hact) as (r & ->)
    end.
    rewrite lookup_insert_eq. eauto.
Qed.

(** *** Storing and replaying *)

Lemma act_done_quiet_store subfind so inst actmeta ctx args callargs origargs actid actstats
    actdone err res st :
  actcache_active so = true -> quiet actdone ->
  is_Some actmeta \/ bad_result so callargs err res = false ->
  let st' := act_done subfind so inst actmeta ctx args callargs origargs actid actstats
               actdone err res st in
  exists r new,
    st_actcache st' = <[actid := {| ce_result := r; ce_actmeta := actmeta |}]> (st_actcache st) /\
    callbacks st' = app (callbacks st) new /\
    Forall (fun c => c = (Now, r)) new.
Proof.
  intros Hact Hq Hok st'.
  destruct (act_done_cases subfind so inst actmeta ctx args callargs origargs actid actstats
              actdone err res st) as [[e Hf] | [[He Hb] | (Ha & Hb & _)]].
  - destruct (act_done_failing_obs subfind so inst actmeta ctx args callargs origargs actid
                actstats actdone err res st e Hf) as (_ & _ & _ & _ & Hcb & _ & _ & Hc).
    specialize (Hc Hq). rewrite Hact in Hc. fold st' in Hc, Hcb.
    do 2 eexists. split; [exact Hc|]. split; [exact Hcb|].
    destruct (truthy (get args "fatal$")); [constructor|].
    destruct (act_error_call_cb so callargs e); repeat constructor.
  - destruct (act_done_ok_obs subfind so inst actmeta ctx args callargs origargs actid
                actstats actdone err res st He Hb) as (_ & _ & Hcb & _ & _ & Hc).
    destruct (Hc Hq) as (_ & Hc'). rewrite Hact in Hc'. fold st' in Hc', Hcb.
    do 2 eexists. split; [exact Hc'|]. split; [exact Hcb|]. repeat constructor.
  - subst actmeta. destruct Hok as [[? ?]|Hok]; [discriminate|congruence].
Qed.

Lemma execute_action_quiet_store nid find subfind so inst xinst given ctx args origargs
    actid tx actdone st :
  actcache_active so = true -> quiet actdone ->
  truthy (get args "fatal$") = false \/
  is_Some (match given with
           | Some a => Some a
           | None => find (st_actrouter st) args (internal_catchall so)
           end) ->
  let st' := execute_action nid find subfind so inst xinst given ctx args origargs actid tx
               actdone st in
  exists e new,
    st_actcache st' !! actid = Some e /\
    callbacks st' = app (callbacks st) new /\
    Forall (fun c => c = (Now, ce_result e)) new.
Proof.
  intros Hact Hq Hfat st'. subst st'.
  assert (Hgo : forall actmeta args' callargs actstats err res st0,
             is_Some actmeta \/ bad_result so callargs err res = false ->
             callbacks st0 = callbacks st ->
             exists e new,
               st_actcache (act_done subfind so inst actmeta ctx args' callargs origargs actid
                              actstats actdone err res st0) !! actid = Some e /\
               callbacks (act_done subfind so inst actmeta ctx args' callargs origargs actid
                            actstats actdone err res st0) = app (callbacks st) new /\
               Forall (fun c => c = (Now, ce_result e)) new).
  { intros actmeta args' callargs actstats err res st0 Hok Hcb.
    destruct (act_done_quiet_store subfind so inst actmeta ctx args' callargs origargs actid
                actstats actdone err res st0 Hact Hq Hok) as (r & new & Hc & Hn & Hall).
    rewrite Hc, Hn, Hcb, lookup_insert_eq. eauto. }
  destruct (match given with
            | Some a => Some a
            | None => find (st_actrouter st) args (internal_catchall so)
            end) as [am|] eqn:Hres.
  - destruct (loop_ok so args am) eqn:Hl.
    + destruct (valid am args) eqn:Hv.
      * destruct (execute_action_found nid find subfind so inst xinst given ctx args origargs
                    actid tx actdone st am Hres Hl Hv) as (evs & Hevs & ->).
        cbv zeta.
        destruct (st_closed st && _); apply Hgo; eauto;
          unfold callbacks; rewrite ?seen_push, seen_pushes, !omap_app; simpl; fold_omap;
          rewrite (blind_omap _ _ blind_callback Hevs);
          destruct (truthy (am_deprecate am)); destruct (negb (am_sub am)); simpl;
          rewrite ?app_nil_r; reflexivity.
      * rewrite (execute_action_invalid nid find subfind so inst xinst given ctx args origargs
                   actid tx actdone st am Hres Hl Hv). apply Hgo; eauto.
    + rewrite (execute_action_loop nid find subfind so inst xinst given ctx args origargs
                 actid tx actdone st am Hres Hl). apply Hgo; eauto.
  - destruct Hfat as [Hfat | [? ?]]; [|discriminate].
    destruct given as [a|]; [discriminate|].
    rewrite execute_action_not_found by exact Hres.
    unfold executable_action. rewrite Hfat.
    destruct (isPlainObject _ || isArray _) eqn:Hd; simpl.
    + apply Hgo.
      * right. unfold bad_result, objarr. rewrite Hd. simpl. by rewrite !andb_false_r.
      * unfold callbacks. rewrite seen_push. simpl. by rewrite app_nil_r.
    + apply Hgo; [by right|].
      destruct (trace_unknown so); [|done].
      unfold callbacks. rewrite seen_push. simpl. by rewrite app_nil_r.
Qed.

(** C3 (as amended). With [actcache.active] on and an [id$] of the form
    [<id>/<tx>] (both parts non-empty and without [/]): a first act with
    that [id$] runs to completion (it does not die of a missing action),
    and then the cache holds a tuple under that [id$], error or not; every
    call of the first continuation was made with that tuple; and any later
    act with the same [id$] calls no handler, hands the stored tuple to its
    continuation at the next tick, increments [act.cache], and stops
    there. *)
Theorem C3_replay_of_composed_id :
  forall (nid : nat -> string)
         (find : list (msg * actmeta) -> msg -> bool -> option actmeta)
         (subfind : list (msg * sublist) -> msg -> option nat)
         (so : options) (inst : instance) (given : option actmeta) (ctx : option ctxt)
         (m1 m2 : msg) (cb1 : option (tuple -> option error)) (st : state)
         (i t : string),
    actcache_active so = true ->
    i <> "" -> t <> "" -> has_slash i = false -> has_slash t = false ->
    get m1 "id$" = VStr (i ++ "/" ++ t) ->
    get m2 "id$" = VStr (i ++ "/" ++ t) ->
    quiet cb1 ->
    truthy (get m1 "fatal$") = false \/
    is_Some (match given with
             | Some a => Some a
             | None => find (st_actrouter st) (with_default so m1) (internal_catchall so)
             end) ->
    exists st1 e new,
      do_act nid find subfind so inst given ctx m1 cb1 st = Normal st1 /\
      st_actcache st1 !! (i ++ "/" ++ t) = Some e /\
      callbacks st1 = app (callbacks st) new /\
      Forall (fun c => c.2 = ce_result e) new /\
      forall inst2 given2 ctx2 cb2,
      exists st2,
        do_act nid find subfind so inst2 given2 ctx2 m2 cb2 st1 = Normal st2 /\
        handled st2 = handled st1 /\
        callbacks st2 = app (callbacks st1) [(NextTick, ce_result e)] /\
        cached (st_stats_act st2) = S (cached (st_stats_act st1)) /\
        st_actcache st2 = st_actcache st1.
Proof.
  intros nid find subfind so inst given ctx m1 m2 cb1 st i t
    Hact Hi Ht Hsi Hst Hm1 Hm2 Hq Hfat.
  assert (Hne : truthy (VStr (i ++ "/" ++ t)) = true) by (destruct i; done).
  assert (Hsecond : forall st1 e,
            st_actcache st1 !! (i ++ "/" ++ t) = Some e ->
            forall inst2 given2 ctx2 cb2,
            exists st2,
              do_act nid find subfind so inst2 given2 ctx2 m2 cb2 st1 = Normal st2 /\
              handled st2 = handled st1 /\
              callbacks st2 = app (callbacks st1) [(NextTick, ce_result e)] /\
              cached (st_stats_act st2) = S (cached (st_stats_act st1)) /\
              st_actcache st2 = st_actcache st1).
  { intros st1 e Hc inst2 given2 ctx2 cb2.
    assert (Hr : replayable so m2 st1 = Some e).
    { unfold replayable, js_or. rewrite Hm2, Hne, Hact. simpl. exact Hc. }
    destruct (do_act_replay nid find subfind so inst2 given2 ctx2 m2 cb2 st1 e Hr) as (n & ->).
    eexists. split; [reflexivity|].
    unfold handled, callbacks. rewrite !seen_push. simpl. rewrite !app_nil_r. done. }
  destruct (replayable so m1 st) as [e0|] eqn:Hr.
  - destruct (do_act_replay nid find subfind so inst given ctx m1 cb1 st e0 Hr) as (n & E).
    destruct (replayable_key so m1 st e0 Hr) as (k & Hk & Hc).
    unfold js_or in Hk. rewrite Hm1, Hne in Hk. inversion Hk; subst k. clear Hk.
    eexists. exists e0, [(NextTick, ce_result e0)].
    split; [exact E|]. split; [exact Hc|]. split.
    { unfold callbacks. rewrite !seen_push. simpl. by rewrite app_nil_r. }
    split; [by repeat constructor|]. apply Hsecond. exact Hc.
  - pose proof (act_ids_composed nid inst m1 st i t Hm1 Hi Ht Hsi Hst) as E.
    destruct (do_act_miss nid find subfind so inst given ctx m1 cb1 st _ _ _ E Hr)
      as (xinst & n & Hdo).
    destruct (execute_action_quiet_store nid find subfind so inst xinst given
                (default {| chain := []; entry := true; depth := 1 |} ctx)
                (with_default so m1) m1 (i ++ "/" ++ t) (VStr t) cb1 (with_nids n st)
                Hact Hq) as (e & new & Hc & Hcb & Hall).
    { destruct Hfat as [Hfat|Hfat]; [left|right; exact Hfat].
      by rewrite get_with_default. }
    eexists. exists e, new. split; [exact Hdo|]. split; [exact Hc|]. split; [exact Hcb|].
    split.
    { eapply Forall_impl; [exact Hall|]. by intros c ->. }
    apply Hsecond. exact Hc.
Qed.

(** *** Prior calls *)

(** C8. When the action overrides another ([priormeta]), [this.prior(args,
    cb)] calls [do_act] on the delegate with the metadata of the overridden
    action given, so that the router is not asked (the dispatch is the same
    whatever the router would find), with a context whose [chain] is the
    chain of the caller followed by the id of the calling action, whose
    [entry] is [false] and whose [depth] is one more; the message has lost
    [id$], [gate$], [actid$], [meta$] and [transport$], carries [tx$ = tx],
    and keeps the other attributes of the [args] given ([default$] apart,
    which is taken from the call message when it has one). *)
Theorem C8_prior_call :
  forall (nid : nat -> string)
         (find find' : list (msg * actmeta) -> msg -> bool -> option actmeta)
         (subfind : list (msg * sublist) -> msg -> option nat)
         (so : options) (delegate : instance) (tx : value) (callargs : msg)
         (am pm : actmeta) (ctx : ctxt) (prior_args : msg)
         (prior_cb : option (tuple -> option error)) (st : state),
    am_priormeta am = Some pm ->
    let sub_ctx := {| chain := app (chain ctx) [am_id am];
                      entry := false;
                      depth := depth ctx + 1 |} in
    exists args' : msg,
      delegate_prior delegate tx callargs am ctx prior_args
      = PriorAct delegate pm sub_ctx args' /\
      args' !! "id$" = None /\ args' !! "gate$" = None /\ args' !! "actid$" = None /\
      args' !! "meta$" = None /\ args' !! "transport$" = None /\
      args' !! "tx$" = Some tx /\
      (forall k, k <> "id$" -> k <> "gate$" -> k <> "actid$" -> k <> "meta$" ->
                 k <> "transport$" -> k <> "default$" -> k <> "tx$" ->
                 args' !! k = prior_args !! k) /\
      run_prior nid find subfind so (PriorAct delegate pm sub_ctx args') prior_cb st
      = do_act nid find' subfind so delegate (Some pm) (Some sub_ctx) args' prior_cb st.
Proof.
  intros nid find find' subfind so delegate tx callargs am pm ctx prior_args prior_cb st
    Hpm sub_ctx.
  unfold delegate_prior. rewrite Hpm. fold sub_ctx.
  eexists. split; [reflexivity|].
  destruct (truthy (get callargs "default$"));
    repeat (split; [by simplify_map_eq|]);
    (split; [intros k ?; intros; by simplify_map_eq|]); reflexivity.
Qed.

(** *** [api_add] *)

Lemma api_add_returns_self nid find so self raw action_ actmeta_ st :
  exists st', api_add nid find so self raw action_ actmeta_ st = Normal (self, st').
Proof.
  unfold api_add, add_actmeta. rewrite truthy_keys. simpl. eauto.
Qed.

(** C1. The code where it departs from the specification: an [add] whose
    cleaned pattern has no key is not refused with
    [add_empty_pattern]; it returns the instance, as every [add] does
    ([!_.keys(pattern)] is [false] for every pattern, [_.keys] giving an
    array). *)
Theorem C1_add_empty_pattern_accepted :
  forall (nid : nat -> string)
         (find : list (msg * actmeta) -> msg -> bool -> option actmeta)
         (so : options) (self : instance) (raw_pattern : msg) (action_ : option action)
         (actmeta_ : option actmeta) (st : state),
    clean raw_pattern = ∅ ->
    api_add nid find so self raw_pattern action_ actmeta_ st
      <> Thrown (internals_error "add_empty_pattern") /\
    exists st', api_add nid find so self raw_pattern action_ actmeta_ st = Normal (self, st').
Proof.
  intros nid find so self raw_pattern action_ actmeta_ st _.
  destruct (api_add_returns_self nid find so self raw_pattern action_ actmeta_ st) as (st' & E).
  rewrite E. split; [discriminate|eauto].
Qed.

(** C7 (as amended). [api_add] takes its two flags from the pattern first:
    [catchall] is [!!raw_pattern.internal$.catchall] when the pattern has a
    truthy [internal$] whose [catchall] is not [null], and the option
    [internal.catchall] otherwise; [strict] is read in the same way from
    [strict$.add] and [strict.add]. It looks up the prior with the cleaned
    pattern, and keeps none when nothing is found, when what is found is the
    catch-all (its pattern is empty) and [catchall] is off, or when [strict]
    is on and its canonical pattern is not that of the new action: then
    [priorpath] is the empty string, [handle] is not called and the action
    is routed. Otherwise [priorpath] is [prior.id + ";" + prior.priorpath];
    [priormeta] is the prior and the action is routed, unless the prior has
    a [handle] function, in which case [handle(pattern, action)] is called
    once, no [priormeta] is recorded and no route is added. *)
Theorem C7_prior_selection :
  forall (nid : nat -> string)
         (find : list (msg * actmeta) -> msg -> bool -> option actmeta)
         (so : options) (self : instance) (raw_pattern : msg) (action_ : option action)
         (actmeta_ : option actmeta) (st : state)
         (m : actmeta) (addroute : bool) (pattern : msg) (st1 : state),
    add_actmeta nid find so self raw_pattern action_ actmeta_ st
    = Normal (m, addroute, pattern, st1) ->
    let catchall :=
      if truthy (get raw_pattern "internal$")
      then match prop (get raw_pattern "internal$") "catchall" with
           | VNull => internal_catchall so
           | v => truthy v
           end
      else internal_catchall so in
    let strict :=
      if truthy (get raw_pattern "strict$")
      then match prop (get raw_pattern "strict$") "add" with
           | VNull => strict_add so
           | v => truthy v
           end
      else strict_add so in
    let prior :=
      match find (st_actrouter st) pattern false with
      | Some p =>
          if negb catchall && String.eqb "" (am_pattern p) then None
          else if strict && negb (String.eqb (am_pattern p) (am_pattern m)) then None
          else Some p
      | None => None
      end in
    let given := am_priormeta (default no_actmeta actmeta_) in
    pattern = filter (fun kv => isObject kv.2 = false) (clean raw_pattern) /\
    am_pattern m = canon pattern /\
    am_priorpath m = match prior with
                     | Some p => am_id p ++ ";" ++ am_priorpath p
                     | None => ""
                     end /\
    am_priormeta m = match prior with
                     | Some p => if am_handle p then given else Some p
                     | None => given
                     end /\
    addroute = match prior with Some p => negb (am_handle p) | None => true end /\
    st_trace st1
    = app (st_trace st)
          (match prior with
           | Some p =>
               if am_handle p
               then [EvHandle (am_id p) raw_pattern (default default_action action_)]
               else []
           | None => []
           end) /\
    exists st',
      api_add nid find so self raw_pattern action_ actmeta_ st = Normal (self, st') /\
      st_actrouter st'
      = if addroute then app (st_actrouter st) [(pattern, modify_action self m st)]
        else st_actrouter st.
Proof.
  intros nid find so self raw_pattern action_ actmeta_ st m addroute pattern st1 H
    catchall strict prior given.
  assert (Hc : catchall = add_internal_catchall so raw_pattern).
  { subst catchall. unfold add_internal_catchall.
    destruct (truthy (get raw_pattern "internal$")); [|done].
    by destruct (prop (get raw_pattern "internal$") "catchall"). }
  assert (Hs : strict = add_strict_add so raw_pattern).
  { subst strict. unfold add_strict_add.
    destruct (truthy (get raw_pattern "strict$")); [|done].
    by destruct (prop (get raw_pattern "strict$") "add"). }
  clearbody catchall strict. subst catchall strict.
  unfold api_add. rewrite H.
  unfold add_actmeta in H. rewrite truthy_keys in H.
  cbv beta iota zeta delta [negb refnid idgen] in H.
  inversion H; subst; clear H.
  subst prior given.
  cbn [am_priorpath am_priormeta am_pattern am_handle am_id st_actrouter with_nids].
  split; [reflexivity|]. split; [reflexivity|].
  set (cp := canon _).
  set (pat := filter _ (clean raw_pattern)).
  unfold select_prior.
  destruct (find (st_actrouter st) pat false) as [p|].
  2:{ repeat (split; [try reflexivity; simpl; by rewrite ?app_nil_r|]).
      eexists. split; [reflexivity|]. reflexivity. }
  destruct (negb (add_internal_catchall so raw_pattern) && String.eqb "" (am_pattern p)).
  { repeat (split; [try reflexivity; simpl; by rewrite ?app_nil_r|]).
    eexists. split; [reflexivity|]. reflexivity. }
  destruct (add_strict_add so raw_pattern && negb (String.eqb (am_pattern p) cp)).
  { repeat (split; [try reflexivity; simpl; by rewrite ?app_nil_r|]).
    eexists. split; [reflexivity|]. reflexivity. }
  destruct (am_handle p);
    repeat (split; [try reflexivity; simpl; by rewrite ?app_nil_r|]);
    (eexists; split; [reflexivity|]); reflexivity.
Qed.

(** *** Fixed arguments *)

Lemma get_extend dst src k :
  get (extend dst src) k = match src !! k with Some v => v | None => get dst k end.
Proof.
  unfold get, extend. rewrite lookup_union. by destruct (src !! k), (dst !! k).
Qed.

(** C2 (as amended). [api_act] assigns the fixedargs of the instance onto
    the message, so a fixed value replaces the value of the caller whatever
    [strict.fixedargs] is, and the message the handler is called with gets
    the fixedargs of the delegate of the call in the same way.
    [strict.fixedargs] decides the merge that [delegate] makes: when it is
    on, the fixedargs the instance has win over those given to [delegate];
    when it is off, those given win. *)
Theorem C2_fixedargs_merge :
  forall (nid : nat -> string) (caller_text : msg -> string) (so : options)
         (self : instance) (pattern : msg) (further : option msg) (st : state)
         (k : string),
    k <> "caller$" \/ debug_act_caller so = false ->
    get (api_act_args caller_text so self pattern) k
    = match fixedargs self !! k with Some v => v | None => get pattern k end /\
    (forall xinst args actid tx am ctx is_sync,
        k <> "tx$" ->
        get (call_message so xinst args actid tx am ctx is_sync) k
        = match call_fixedargs so xinst tx am !! k with
          | Some v => v
          | None => get (call_args args actid tx am ctx is_sync) k
          end) /\
    get (fixedargs (api_delegate nid so self further st).1) k
    = if strict_fixedargs so
      then match fixedargs self !! k with
           | Some v => v
           | None => get (default ∅ further) k
           end
      else match default ∅ further !! k with
           | Some v => v
           | None => get (fixedargs self) k
           end.
Proof.
  intros nid caller_text so self pattern further st k Hk.
  split; [|split].
  - unfold api_act_args. destruct (debug_act_caller so) eqn:Hd.
    + destruct Hk as [Hk|Hk]; [|discriminate].
      unfold get at 1. rewrite lookup_insert_ne by done. apply get_extend.
    + apply get_extend.
  - intros xinst args actid tx am ctx is_sync Htx. unfold call_message.
    rewrite get_extend, lookup_singleton_ne by done. rewrite get_extend.
    destruct (call_fixedargs so xinst tx am !! k); [done|].
    rewrite get_extend. unfold get. by destruct (call_args _ _ _ _ _ _ !! k).
  - unfold api_delegate, refnid, idgen. simpl.
    destruct (strict_fixedargs so); simpl; rewrite !get_extend.
    + destruct (fixedargs self !! k); [done|].
      unfold get. destruct (default ∅ further !! k); [done|]. by rewrite lookup_empty.
    + destruct (default ∅ further !! k); [done|].
      unfold get. destruct (fixedargs self !! k); [done|]. by rewrite lookup_empty.
Qed.

(** ** Further properties of the code *)

(** *** What a call does before its handler runs *)

Lemma prelude_seen {A} (sel : event -> option A) am (cm : msg) evs st0 :
  blind sel ->
  (forall a b c, sel (EvLog a b c) = None) ->
  (forall m, sel (EvActIn m) = None) ->
  Forall sub_event evs ->
  seen sel
    (pushes (app (if truthy (am_deprecate am) then [EvLog "warn" "act" "DEPRECATED"] else [])
               (app (if negb (am_sub am) then [EvLog "debug" "act" "IN"] else [])
                    (EvActIn cm :: evs)))
       (with_nids (S (st_nids st0)) (act_stats_call (am_pattern am) st0)))
  = seen sel st0.
Proof.
  intros Hb Hlog Hin Hevs. rewrite seen_pushes, !omap_app. simpl.
  rewrite Hin. fold_omap. rewrite (blind_omap _ _ Hb Hevs).
  destruct (truthy (am_deprecate am)); destruct (negb (am_sub am)); simpl;
    rewrite ?Hlog, ?app_nil_r; reflexivity.
Qed.

Lemma callback_error_exact so inst ex actmeta result callargs origargs ctx st :
  callback_error so inst ex actmeta result callargs origargs ctx st
  = ((if e_seneca ex then result else (EErr (callback_formatted ex), result.2)),
     pushes (EvLog "error" "act" "ERR" :: EvActErr callargs (callback_formatted ex) ::
             if bool_decide (is_Some (errhandler so)) then [EvErrhandler (callback_formatted ex)]
             else []) st).
Proof.
  unfold callback_error, callback_formatted.
  destruct (e_seneca ex); simpl; destruct (errhandler so); simpl;
    rewrite !push_pushes, !pushes_pushes; reflexivity.
Qed.

(** *** The counters *)

Lemma timed_pushes actmeta ctx st : exists evs, timed actmeta ctx st = pushes evs st.
Proof.
  unfold timed. destruct actmeta as [am|].
  - destruct (_ <=? _)%Z; [eexists; apply push_pushes|exists []; by rewrite pushes_nil].
  - exists []. by rewrite pushes_nil.
Qed.

Lemma act_done_failing_stats subfind so inst actmeta ctx args callargs origargs actid actstats
    actdone err res st e :
  failing so actmeta callargs err res e ->
  let st' := act_done subfind so inst actmeta ctx args callargs origargs actid actstats
               actdone err res st in
  st_stats_act st' = bump_fails (st_stats_act st) /\
  st_stats_actmap st' = match actstats with
                        | Some p => bump_at bump_fails p (st_stats_actmap st)
                        | None => st_stats_actmap st
                        end.
Proof.
  intros Hfail st'. subst st'.
  rewrite (act_done_failing_eq subfind so inst actmeta ctx args callargs origargs actid
             actstats actdone err res st e Hfail).
  cbv zeta. destruct (timed_pushes actmeta ctx st) as (evs & ->).
  rewrite !actcache_set_eq, !actcache_alias_eq.
  destruct (truthy (get args "fatal$")); [by destruct actstats|].
  destruct (act_error_call_cb so callargs e); [|by destruct actstats].
  match goal with
  | |- context [mbind ?f actdone] => destruct (mbind f actdone) as [ex|]
  end; [|by destruct actstats].
  rewrite callback_error_exact, actcache_alias_eq. by destruct actstats.
Qed.

Lemma act_done_ok_stats subfind so inst actmeta ctx args callargs origargs actid actstats
    actdone err res st :
  err = ENull \/ err = EFalsy ->
  bad_result so callargs err res = false ->
  let st' := act_done subfind so inst actmeta ctx args callargs origargs actid actstats
               actdone err res st in
  st_stats_act st' = match actstats with
                     | Some _ => bump_dones (st_stats_act st)
                     | None => st_stats_act st
                     end /\
  st_stats_actmap st' = match actstats with
                        | Some p => bump_at bump_dones p (st_stats_actmap st)
                        | None => st_stats_actmap st
                        end.
Proof.
  intros Herr Hbad st'. subst st'.
  rewrite (act_done_ok_eq subfind so inst actmeta ctx args callargs origargs actid
             actstats actdone err res st Herr Hbad).
  cbv zeta. destruct (timed_pushes actmeta ctx st) as (evs & ->).
  match goal with
  | |- context [emit_act_out ?a ?b ?c ?d] =>
      destruct (emit_act_out_pushes a b c d) as (evs' & -> & _)
  end.
  rewrite !actcache_set_eq, !actcache_alias_eq.
  match goal with
  | |- context [mbind ?f actdone] => destruct (mbind f actdone) as [ex|]
  end; [|by destruct actstats].
  rewrite callback_error_exact, actcache_alias_eq. by destruct actstats.
Qed.

Lemma get_call_args args actid tx am ctx is_sync k :
  k <> "meta$" -> k <> "id$" -> k <> "actid$" ->
  get (call_args args actid tx am ctx is_sync) k = get args k.
Proof.
  intros H1 H2 H3. unfold call_args, get.
  by rewrite lookup_insert_ne, !lookup_delete_ne.
Qed.

(** *** A closed instance *)

(** X1. Once the root is closed ([root.closed]), a call that resolves to an
    action is refused unless the message made for the handler carries a
    truthy [closing$]: the handler is not called, the error
    [instance-closed] is emitted as [act-err], the call is counted as a
    call and as a failure, and (without [fatal$]) the instance does not die
    and the continuation gets the error, unless the [errhandler] keeps it.
    With [closing$] the handler is called as on an open instance. *)
Theorem closed_instance_rejects :
  forall (nid : nat -> string)
         (find : list (msg * actmeta) -> msg -> bool -> option actmeta)
         (subfind : list (msg * sublist) -> msg -> option nat)
         (so : options) (inst xinst : instance) (given : option actmeta) (ctx : ctxt)
         (args origargs : msg) (actid : string) (tx : value)
         (actdone : option (tuple -> option error)) (st : state) (am : actmeta),
    resolves find so given args st am ->
    st_closed st = true ->
    let cm := call_message so xinst args actid tx am ctx (bool_decide (is_Some actdone)) in
    let st' := execute_action nid find subfind so inst xinst given ctx args origargs actid tx
                 actdone st in
    let err := internals_error "instance-closed" in
    if truthy (get cm "closing$") then
      handled st' = app (handled st) [(am_id am, cm)]
    else
      handled st' = handled st /\
      (exists later, acterrs st' = app (acterrs st) (err :: later)) /\
      calls (st_stats_act st') = S (calls (st_stats_act st)) /\
      fails (st_stats_act st') = S (fails (st_stats_act st)) /\
      (truthy (get args "fatal$") = false ->
       died st' = died st /\
       callbacks st' = app (callbacks st)
                         (if act_error_call_cb so cm err then [(Now, (EErr err, VUndef))]
                          else [])).
Proof.
  intros nid find subfind so inst xinst given ctx args origargs actid tx actdone st am
    (Hres & Hloop & Hvalid) Hclosed cm st' err.
  destruct (execute_action_found nid find subfind so inst xinst given ctx args origargs
              actid tx actdone st am Hres Hloop Hvalid) as (evs & Hevs & E).
  subst st' cm. rewrite E. clear E. cbv zeta. rewrite Hclosed. simpl.
  destruct (truthy (get (call_message _ _ _ _ _ _ _ _) "closing$")); simpl.
  - match goal with
    | |- handled (act_done ?a ?b ?c ?d ?e ?f ?g ?h ?i ?j ?k ?l ?m ?o) = _ =>
        destruct (act_done_frame a b c d e f g h i j k l m o) as (-> & _)
    end.
    rewrite (handled_found_state so xinst _ actid tx am ctx _ evs _ Hevs). reflexivity.
  - match goal with
    | |- context [act_done ?a ?b ?c ?d ?e ?f ?g ?h ?i ?j ?k ?l ?m ?o] =>
        pose proof (act_done_failing_obs a b c d e f g h i j k l m o err (or_introl eq_refl))
          as (Hh & [later Hae] & _ & Hd & Hc & _)
    end.
    cbv zeta in Hh, Hae, Hd, Hc.
    unfold handled, acterrs, died, callbacks in *.
    rewrite prelude_seen in Hh by (auto using blind_handler).
    rewrite prelude_seen in Hae by (auto using blind_acterr).
    rewrite prelude_seen in Hd by (auto using blind_die).
    rewrite prelude_seen in Hc by (auto using blind_callback).
    split; [exact Hh|]. split; [by exists later|].
    match goal with
    | |- context [act_done ?a ?b ?c ?d ?e ?f ?g ?h ?i ?j ?k ?l ?m ?o] =>
        destruct (act_done_failing_stats a b c d e f g h i j k l m o err (or_introl eq_refl))
          as (Hs & _)
    end.
    rewrite Hs. simpl. split; [done|]. split; [done|].
    intros Hfatal. rewrite get_call_args, Hfatal in Hd, Hc by done.
    rewrite Hd, Hc, app_nil_r. done.
Qed.

(** *** The result of a handler *)

Lemma handled_handler_state so xinst args actid tx am ctx is_sync evs st :
  Forall sub_event evs ->
  forall A (sel : event -> option A),
    blind sel ->
    (forall a b c, sel (EvLog a b c) = None) ->
    (forall m, sel (EvActIn m) = None) ->
    (forall i m, sel (EvHandler i m) = None) ->
    seen sel
      (push (EvHandler (am_id am) (call_message so xinst args actid tx am ctx is_sync))
         (pushes
            (app (if truthy (am_deprecate am) then [EvLog "warn" "act" "DEPRECATED"] else [])
               (app (if negb (am_sub am) then [EvLog "debug" "act" "IN"] else [])
                    (EvActIn (call_message so xinst args actid tx am ctx is_sync) :: evs)))
            (with_nids (S (st_nids st)) (act_stats_call (am_pattern am) st))))
    = seen sel st.
Proof.
  intros Hevs A sel Hb Hlog Hin Hh. rewrite seen_push, Hh, app_nil_r.
  by apply prelude_seen.
Qed.

(** X2. When a handler answers [(null, res)] with a [res] that is neither
    [null] nor [undefined], nor a plain object, an array or an object with a
    truthy [entity$] or [force$]: with [strict.result] on and a message
    that is not one of the legacy patterns, the call fails with
    [result_not_objarr], and the continuation is given the error together
    with [res] as its second argument; otherwise the continuation is given
    [(null, res)] and the call is counted as done. *)
Theorem strict_result_enforced :
  forall (nid : nat -> string)
         (find : list (msg * actmeta) -> msg -> bool -> option actmeta)
         (subfind : list (msg * sublist) -> msg -> option nat)
         (so : options) (inst xinst : instance) (given : option actmeta) (ctx : ctxt)
         (args origargs : msg) (actid : string) (tx : value)
         (actdone : option (tuple -> option error)) (st : state) (am : actmeta)
         (res : value),
    resolves find so given args st am ->
    st_closed st = false ->
    let cm := call_message so xinst args actid tx am ctx (bool_decide (is_Some actdone)) in
    fn_call (am_func am) cm = Done ENull res ->
    is_nullish res = false -> objarr res = false ->
    truthy (get args "fatal$") = false ->
    let st' := execute_action nid find subfind so inst xinst given ctx args origargs actid tx
                 actdone st in
    let err := internals_error "result_not_objarr" in
    handled st' = app (handled st) [(am_id am, cm)] /\
    died st' = died st /\
    if strict_result so && negb (legacy_pattern cm) then
      (exists later, acterrs st' = app (acterrs st) (err :: later)) /\
      callbacks st' = app (callbacks st)
                        (if act_error_call_cb so cm err then [(Now, (EErr err, res))] else []) /\
      fails (st_stats_act st') = S (fails (st_stats_act st)) /\
      dones (st_stats_act st') = dones (st_stats_act st)
    else
      callbacks st' = app (callbacks st) [(Now, (ENull, res))] /\
      dones (st_stats_act st') = S (dones (st_stats_act st)) /\
      fails (st_stats_act st') = fails (st_stats_act st).
Proof.
  intros nid find subfind so inst xinst given ctx args origargs actid tx actdone st am res
    (Hres & Hloop & Hvalid) Hclosed cm Hfn Hnull Hobj Hfatal st' err.
  destruct (execute_action_found nid find subfind so inst xinst given ctx args origargs
              actid tx actdone st am Hres Hloop Hvalid) as (evs & Hevs & E).
  subst st' cm. rewrite E. clear E. cbv zeta. rewrite Hclosed, Hfn. simpl.
  pose proof (handled_handler_state so xinst args actid tx am ctx
                (bool_decide (is_Some actdone)) evs st Hevs) as Hpre.
  split.
  { match goal with
    | |- handled (act_done ?a ?b ?c ?d ?e ?f ?g ?h ?i ?j ?k ?l ?m ?o) = _ =>
        destruct (act_done_frame a b c d e f g h i j k l m o) as (-> & _)
    end.
    rewrite (handled_found_state so xinst _ actid tx am ctx _ evs _ Hevs). reflexivity. }
  destruct (strict_result so && negb (legacy_pattern _)) eqn:Hstrict.
  - apply andb_true_iff in Hstrict as [Hs Hl]. apply negb_true_iff in Hl.
    match goal with
    | |- context [act_done ?a ?b ?c ?d ?e ?f ?g ?h ?i ?j ?k ?l ?m ?o] =>
        assert (Hf : failing b d g l m err) by (right; eauto 10);
        destruct (act_done_failing_obs a b c d e f g h i j k l m o err Hf)
          as (_ & [later Hae] & _ & Hd & Hc & _);
        destruct (act_done_failing_stats a b c d e f g h i j k l m o err Hf) as (Hst & _)
    end.
    unfold acterrs, died, callbacks in *.
    rewrite Hpre in Hae by (auto using blind_acterr).
    rewrite Hpre in Hd by (auto using blind_die).
    rewrite Hpre in Hc by (auto using blind_callback).
    rewrite get_call_args, Hfatal in Hd, Hc by done.
    rewrite Hd, Hc, app_nil_r, Hst. simpl. split; [done|]. split; [by exists later|]. done.
  - match goal with
    | |- context [act_done ?a ?b ?c ?d ?e ?f ?g ?h ?i ?j ?k ?l ?m ?o] =>
        assert (Hb : bad_result b g l m = false)
          by (unfold bad_result; simpl; rewrite Hnull, Hobj; simpl; exact Hstrict);
        destruct (act_done_ok_obs a b c d e f g h i j k l m o (or_introl eq_refl) Hb)
          as (_ & Hd & Hc & _);
        destruct (act_done_ok_stats a b c d e f g h i j k l m o (or_introl eq_refl) Hb)
          as (Hst & _)
    end.
    unfold died, callbacks in *.
    rewrite Hpre in Hd by (auto using blind_die).
    rewrite Hpre in Hc by (auto using blind_callback).
    rewrite Hd, Hc, Hst. done.
Qed.

(** X3. When a handler answers with an error argument that is falsy
    without being [null] or [undefined] ([false], [0], ['']), the call is a
    success whatever the result is: the check of [strict.result] is not
    made, the continuation is given [(null, res)], the call is counted as
    done and no error is emitted. *)
Theorem falsy_error_is_success :
  forall (nid : nat -> string)
         (find : list (msg * actmeta) -> msg -> bool -> option actmeta)
         (subfind : list (msg * sublist) -> msg -> option nat)
         (so : options) (inst xinst : instance) (given : option actmeta) (ctx : ctxt)
         (args origargs : msg) (actid : string) (tx : value)
         (actdone : option (tuple -> option error)) (st : state) (am : actmeta)
         (res : value),
    resolves find so given args st am ->
    st_closed st = false ->
    let cm := call_message so xinst args actid tx am ctx (bool_decide (is_Some actdone)) in
    fn_call (am_func am) cm = Done EFalsy res ->
    let st' := execute_action nid find subfind so inst xinst given ctx args origargs actid tx
                 actdone st in
    bad_result so cm EFalsy res = false /\
    callbacks st' = app (callbacks st) [(Now, (ENull, res))] /\
    died st' = died st /\
    dones (st_stats_act st') = S (dones (st_stats_act st)) /\
    fails (st_stats_act st') = fails (st_stats_act st) /\
    (quiet actdone -> acterrs st' = acterrs st).
Proof.
  intros nid find subfind so inst xinst given ctx args origargs actid tx actdone st am res
    (Hres & Hloop & Hvalid) Hclosed cm Hfn st'.
  destruct (execute_action_found nid find subfind so inst xinst given ctx args origargs
              actid tx actdone st am Hres Hloop Hvalid) as (evs & Hevs & E).
  subst st' cm. rewrite E. clear E. cbv zeta. rewrite Hclosed, Hfn. simpl.
  pose proof (handled_handler_state so xinst args actid tx am ctx
                (bool_decide (is_Some actdone)) evs st Hevs) as Hpre.
  split; [reflexivity|].
  match goal with
  | |- context [act_done ?a ?b ?c ?d ?e ?f ?g ?h ?i ?j ?k ?l ?m ?o] =>
      destruct (act_done_ok_obs a b c d e f g h i j k l m o (or_intror eq_refl) eq_refl)
        as (_ & Hd & Hc & _ & _ & Hq);
      destruct (act_done_ok_stats a b c d e f g h i j k l m o (or_intror eq_refl) eq_refl)
        as (Hst & _)
  end.
  unfold died, callbacks, acterrs in *.
  rewrite Hpre in Hd by (auto using blind_die).
  rewrite Hpre in Hc by (auto using blind_callback).
  rewrite Hd, Hc, Hst. repeat split; try done.
  intros Hquiet. destruct (Hq Hquiet) as (Ha & _).
  rewrite Hpre in Ha by (auto using blind_acterr). exact Ha.
Qed.

(** *** Accounting *)

Lemma bump_at_lookup f p (m : gmap string counters) c :
  m !! p = Some c -> bump_at f p m = <[p := f c]> m.
Proof. intros H. unfold bump_at. by rewrite H. Qed.

(** X4. A call that resolves to an action whose pattern has counters in
    [stats.actmap] is counted once as a call and once as either done or
    failed, in the totals and in the counters of the pattern, which move
    together; [act.cache] and the counters of the other patterns stay. *)
Theorem call_accounting :
  forall (nid : nat -> string)
         (find : list (msg * actmeta) -> msg -> bool -> option actmeta)
         (subfind : list (msg * sublist) -> msg -> option nat)
         (so : options) (inst xinst : instance) (given : option actmeta) (ctx : ctxt)
         (args origargs : msg) (actid : string) (tx : value)
         (actdone : option (tuple -> option error)) (st : state) (am : actmeta)
         (c0 : counters),
    resolves find so given args st am ->
    st_stats_actmap st !! am_pattern am = Some c0 ->
    let st' := execute_action nid find subfind so inst xinst given ctx args origargs actid tx
                 actdone st in
    let t := st_stats_act st in
    let t' := st_stats_act st' in
    calls t' = S (calls t) /\
    (dones t' + fails t' = S (dones t + fails t))%nat /\
    cached t' = cached t /\
    (exists c1, st_stats_actmap st' !! am_pattern am = Some c1 /\
                calls c1 = S (calls c0) /\
                (dones c1 + fails c1 = S (dones c0 + fails c0))%nat /\
                (dones c1 = S (dones c0) <-> dones t' = S (dones t))) /\
    (forall q, q <> am_pattern am -> st_stats_actmap st' !! q = st_stats_actmap st !! q).
Proof.
  intros nid find subfind so inst xinst given ctx args origargs actid tx actdone st am c0
    (Hres & Hloop & Hvalid) Hc0 st' t t'.
  destruct (execute_action_found nid find subfind so inst xinst given ctx args origargs
              actid tx actdone st am Hres Hloop Hvalid) as (evs & Hevs & E).
  subst st' t t'. rewrite E. clear E. cbv zeta.
  assert (Hgo : forall err res st4,
            st_stats_act st4 = bump_calls (st_stats_act st) ->
            st_stats_actmap st4 = bump_at bump_calls (am_pattern am) (st_stats_actmap st) ->
            let st' := act_done subfind so inst (Some am) ctx
                         (call_args args actid tx am ctx (bool_decide (is_Some actdone)))
                         (call_message so xinst args actid tx am ctx
                            (bool_decide (is_Some actdone)))
                         origargs actid (Some (am_pattern am)) actdone err res st4 in
            (st_stats_act st' = bump_fails (bump_calls (st_stats_act st)) /\
             st_stats_actmap st' = <[am_pattern am := bump_fails (bump_calls c0)]>
                                     (st_stats_actmap st)) \/
            (st_stats_act st' = bump_dones (bump_calls (st_stats_act st)) /\
             st_stats_actmap st' = <[am_pattern am := bump_dones (bump_calls c0)]>
                                     (st_stats_actmap st))).
  { intros err res st4 H1 H2 st'. subst st'.
    rewrite (bump_at_lookup _ _ _ _ Hc0) in H2.
    match goal with
    | |- context [act_done ?a ?b ?c ?d ?e ?f ?g ?h ?i ?j ?k ?l ?m ?o] =>
        destruct (act_done_cases a b c d e f g h i j k l m o)
          as [[e0 Hf] | [[He Hb] | (Ha & _)]];
        [destruct (act_done_failing_stats a b c d e f g h i j k l m o e0 Hf) as (-> & ->)
        |destruct (act_done_ok_stats a b c d e f g h i j k l m o He Hb) as (-> & ->)
        |discriminate Ha]
    end.
    - left. rewrite H1, H2. split; [done|].
      rewrite (bump_at_lookup _ _ _ (bump_calls c0)) by apply lookup_insert_eq.
      by rewrite insert_insert_eq.
    - right. rewrite H1, H2. split; [done|].
      rewrite (bump_at_lookup _ _ _ (bump_calls c0)) by apply lookup_insert_eq.
      by rewrite insert_insert_eq. }
  assert (Hfin : forall st',
            (st_stats_act st' = bump_fails (bump_calls (st_stats_act st)) /\
             st_stats_actmap st' = <[am_pattern am := bump_fails (bump_calls c0)]>
                                     (st_stats_actmap st)) \/
            (st_stats_act st' = bump_dones (bump_calls (st_stats_act st)) /\
             st_stats_actmap st' = <[am_pattern am := bump_dones (bump_calls c0)]>
                                     (st_stats_actmap st)) ->
            calls (st_stats_act st') = S (calls (st_stats_act st)) /\
            (dones (st_stats_act st') + fails (st_stats_act st')
             = S (dones (st_stats_act st) + fails (st_stats_act st)))%nat /\
            cached (st_stats_act st') = cached (st_stats_act st) /\
            (exists c1, st_stats_actmap st' !! am_pattern am = Some c1 /\
                        calls c1 = S (calls c0) /\
                        (dones c1 + fails c1 = S (dones c0 + fails c0))%nat /\
                        (dones c1 = S (dones c0) <->
                         dones (st_stats_act st') = S (dones (st_stats_act st)))) /\
            (forall q, q <> am_pattern am ->
                       st_stats_actmap st' !! q = st_stats_actmap st !! q)).
  { intros st' [[-> ->] | [-> ->]]; simpl;
      (split; [done|]); (split; [lia|]); (split; [done|]);
      (split; [|intros q Hq; by rewrite lookup_insert_ne]);
      eexists; (split; [apply lookup_insert_eq|]); simpl;
      (split; [done|]); (split; [lia|]); lia. }
  destruct (st_closed st && _); apply Hfin, Hgo; reflexivity.
Qed.

(** X5. A call for which no action is found is never counted as a call nor
    as done, and touches no counter of a pattern; the total of failures is
    incremented exactly when the error goes to [act_done]: not when
    [default$] answers, and not when [fatal$] makes the instance die. *)
Theorem unknown_action_accounting :
  forall (nid : nat -> string)
         (find : list (msg * actmeta) -> msg -> bool -> option actmeta)
         (subfind : list (msg * sublist) -> msg -> option nat)
         (so : options) (inst xinst : instance) (ctx : ctxt)
         (args origargs : msg) (actid : string) (tx : value)
         (actdone : option (tuple -> option error)) (st : state),
    find (st_actrouter st) args (internal_catchall so) = None ->
    let st' := execute_action nid find subfind so inst xinst None ctx args origargs actid tx
                 actdone st in
    let answered := isPlainObject (get args "default$") || isArray (get args "default$") in
    st_stats_actmap st' = st_stats_actmap st /\
    calls (st_stats_act st') = calls (st_stats_act st) /\
    dones (st_stats_act st') = dones (st_stats_act st) /\
    cached (st_stats_act st') = cached (st_stats_act st) /\
    fails (st_stats_act st')
    = if answered || truthy (get args "fatal$") then fails (st_stats_act st)
      else S (fails (st_stats_act st)).
Proof.
  intros nid find subfind so inst xinst ctx args origargs actid tx actdone st Hfind st' answered.
  subst st' answered. rewrite execute_action_not_found by exact Hfind.
  unfold executable_action.
  destruct (isPlainObject (get args "default$") || isArray (get args "default$")) eqn:Hd; simpl.
  - match goal with
    | |- context [act_done ?a ?b ?c ?d ?e ?f ?g ?h ?i ?j ?k ?l ?m ?o] =>
        assert (Hb : bad_result b g l m = false)
          by (unfold bad_result, objarr; rewrite Hd; simpl; by rewrite !andb_false_r);
        destruct (act_done_ok_stats a b c d e f g h i j k l m o (or_introl eq_refl) Hb)
          as (-> & ->)
    end.
    done.
  - destruct (truthy (get args "fatal$")); simpl; [done|].
    match goal with
    | |- context [act_done ?a ?b ?c ?d ?e ?f ?g ?h ?i ?j ?k (EErr ?e0) ?m ?o] =>
        destruct (act_done_failing_stats a b c d e f g h i j k (EErr e0) m o e0
                    (or_introl eq_refl)) as (-> & ->)
    end.
    by destruct (trace_unknown so).
Qed.

(** *** A continuation that throws *)

(** X6. When the continuation of a successful call throws, the exception is
    caught: it is emitted as [act-err] (wrapped as [act_callback] unless it
    is one of seneca's), handed to the [errhandler] if there is one, the
    instance does not die and the continuation is not called again. The
    array kept by the action cache is the one [callback_error] writes to, so
    with the cache active the entry of this call then holds the wrapped
    exception in place of [null], and a later call with this [id$] is given
    that error, with the result, without running the handler. *)
Theorem throwing_continuation :
  forall (nid : nat -> string)
         (find : list (msg * actmeta) -> msg -> bool -> option actmeta)
         (subfind : list (msg * sublist) -> msg -> option nat)
         (so : options) (inst : instance) (actmeta : option actmeta) (ctx : ctxt)
         (args callargs origargs : msg) (actid : string) (actstats : option string)
         (k : tuple -> option error) (err : errarg) (res : value) (st : state) (ex : error),
    err = ENull \/ err = EFalsy ->
    bad_result so callargs err res = false ->
    k (ENull, res) = Some ex ->
    let st' := act_done subfind so inst actmeta ctx args callargs origargs actid actstats
                 (Some k) err res st in
    let e' := callback_formatted ex in
    let kept := (if e_seneca ex then ENull else EErr e', res) in
    callbacks st' = app (callbacks st) [(Now, (ENull, res))] /\
    died st' = died st /\
    acterrs st' = app (acterrs st) [e'] /\
    errhandled st' = app (errhandled st)
                       (if bool_decide (is_Some (errhandler so)) then [e'] else []) /\
    (actcache_active so = true ->
     st_actcache st' !! actid = Some {| ce_result := kept; ce_actmeta := actmeta |} /\
     forall inst2 given2 ctx2 cb2 (m : msg),
       get m "id$" = VStr actid -> actid <> "" ->
       exists st2,
         do_act nid find subfind so inst2 given2 ctx2 m cb2 st' = Normal st2 /\
         handled st2 = handled st' /\
         callbacks st2 = app (callbacks st') [(NextTick, kept)]).
Proof.
  intros nid find subfind so inst actmeta ctx args callargs origargs actid actstats k err res
    st ex Herr Hbad Hk st' e' kept.
  assert (Hst' := act_done_ok_eq subfind so inst actmeta ctx args callargs origargs
                    actid actstats (Some k) err res st Herr Hbad).
  fold st' in Hst'. cbv zeta in Hst'. simpl in Hst'. rewrite Hk in Hst'.
  rewrite callback_error_exact in Hst'. simpl in Hst'. fold e' kept in Hst'.
  destruct (emit_act_out_pushes subfind callargs res
              (actcache_set so actid {| ce_result := (err, res); ce_actmeta := actmeta |}
                 (timed actmeta ctx st))) as (evs & E & Hevs).
  rewrite E in Hst'. clear E.
  pose proof (blind_omap _ _ blind_callback Hevs) as Bc.
  pose proof (blind_omap _ _ blind_die Hevs) as Bd.
  pose proof (blind_omap _ _ blind_acterr Hevs) as Ba.
  assert (Be : omap sel_errhandler evs = []).
  { apply blind_omap; [|exact Hevs]. intros [] H; try done. }
  rewrite !actcache_set_eq, !actcache_alias_eq in Hst'.
  destruct (timed_frame actmeta ctx st) as (Hca & _ & Hst0).
  pose proof (Hst0 _ sel_die (fun _ => eq_refl)) as Hd.
  pose proof (Hst0 _ sel_callback (fun _ => eq_refl)) as Hc.
  pose proof (Hst0 _ sel_errhandler (fun _ => eq_refl)) as He.
  pose proof (Hst0 _ sel_acterr (fun _ => eq_refl)) as Ha.
  clear Hst0. revert Hst' Hca Hd Hc He Ha. generalize (timed actmeta ctx st).
  intros st0 Hst' Hca Hd Hc He Ha.
  assert (Hobs :
    callbacks st' = app (callbacks st) [(Now, (ENull, res))] /\
    died st' = died st /\
    acterrs st' = app (acterrs st) [e'] /\
    errhandled st' = app (errhandled st)
                       (if bool_decide (is_Some (errhandler so)) then [e'] else [])).
  { rewrite Hst'.
    destruct actstats; destruct (errhandler so); see;
      rewrite ?Bc, ?Bd, ?Ba, ?Be, ?Hd, ?Hc, ?He, ?Ha, ?app_nil_r, <- ?app_assoc; simpl;
      fold_omap; rewrite ?Bc, ?Bd, ?Ba, ?Be, ?app_nil_r; done. }
  destruct Hobs as (H1 & H2 & H3 & H4). repeat (split; [assumption|]).
  intros Hact.
  assert (Hcache : st_actcache st' !! actid
                   = Some {| ce_result := kept; ce_actmeta := actmeta |}).
  { rewrite Hst', Hact. destruct actstats; destruct (e_seneca ex) eqn:Hsen; subst kept;
      rewrite ?Hsen; cache_simpl; rewrite ?lookup_insert_eq; reflexivity. }
  split; [exact Hcache|].
  intros inst2 given2 ctx2 cb2 m Hm Hne.
  assert (Hr : replayable so m st' = Some {| ce_result := kept; ce_actmeta := actmeta |}).
  { unfold replayable, js_or. rewrite Hm, truthy_VStr.
    apply String.eqb_neq in Hne. rewrite Hne, Hact. simpl. exact Hcache. }
  destruct (do_act_replay nid find subfind so inst2 given2 ctx2 m cb2 st' _ Hr) as (n & ->).
  eexists. split; [reflexivity|].
  unfold handled, callbacks. rewrite !seen_push. simpl. by rewrite !app_nil_r.
Qed.

(** *** The cache switched off *)

Lemma act_done_inactive subfind so inst actmeta ctx args callargs origargs actid actstats
    actdone err res st :
  actcache_active so = false ->
  st_actcache (act_done subfind so inst actmeta ctx args callargs origargs actid actstats
                 actdone err res st) = st_actcache st.
Proof.
  intros Hact.
  destruct (act_done_cases subfind so inst actmeta ctx args callargs origargs actid actstats
              actdone err res st) as [[e Hf] | [[He Hb] | (_ & _ & ->)]].
  - destruct (act_done_failing_obs subfind so inst actmeta ctx args callargs origargs actid
                actstats actdone err res st e Hf) as (_ & _ & _ & _ & _ & _ & [r Hr] & _).
    by rewrite Hr, Hact.
  - destruct (act_done_ok_obs subfind so inst actmeta ctx args callargs origargs actid
                actstats actdone err res st He Hb) as (_ & _ & _ & _ & [r Hr] & _).
    by rewrite Hr, Hact.
  - reflexivity.
Qed.

Lemma execute_action_inactive nid find subfind so inst xinst given ctx args origargs actid tx
    actdone st :
  actcache_active so = false ->
  st_actcache (execute_action nid find subfind so inst xinst given ctx args origargs actid tx
                 actdone st) = st_actcache st.
Proof.
  intros Hact.
  destruct (match given with
            | Some a => Some a
            | None => find (st_actrouter st) args (internal_catchall so)
            end) as [am|] eqn:Hres.
  - destruct (loop_ok so args am) eqn:Hl.
    + destruct (valid am args) eqn:Hv.
      * destruct (execute_action_found nid find subfind so inst xinst given ctx args origargs
                    actid tx actdone st am Hres Hl Hv) as (evs & _ & ->).
        cbv zeta. destruct (st_closed st && _); by rewrite act_done_inactive.
      * rewrite (execute_action_invalid nid find subfind so inst xinst given ctx args origargs
                   actid tx actdone st am Hres Hl Hv). by rewrite act_done_inactive.
    + rewrite (execute_action_loop nid find subfind so inst xinst given ctx args origargs
                 actid tx actdone st am Hres Hl). by rewrite act_done_inactive.
  - destruct given as [a|]; [discriminate|].
    rewrite execute_action_not_found by exact Hres.
    unfold executable_action.
    destruct (isPlainObject _ || isArray _); simpl.
    + by rewrite act_done_inactive.
    + destruct (truthy (get args "fatal$")); simpl; [done|].
      rewrite act_done_inactive by done. by destruct (trace_unknown so).
Qed.

(** X7. With [actcache.active] off a dispatch that returns leaves the cache
    and the [act.cache] counter as they were, and is never a replay: it
    always goes through [execute_action]. *)
Theorem inactive_cache_stores_nothing :
  forall (nid : nat -> string)
         (find : list (msg * actmeta) -> msg -> bool -> option actmeta)
         (subfind : list (msg * sublist) -> msg -> option nat)
         (so : options) (inst : instance) (given : option actmeta) (ctx : option ctxt)
         (origargs : msg) (actdone : option (tuple -> option error)) (st st' : state),
    actcache_active so = false ->
    do_act nid find subfind so inst given ctx origargs actdone st = Normal st' ->
    st_actcache st' = st_actcache st /\
    cached (st_stats_act st') = cached (st_stats_act st) /\
    exists actid tx xinst n,
      st' = execute_action nid find subfind so inst xinst given
              (default {| chain := []; entry := true; depth := 1 |} ctx)
              (with_default so origargs) origargs actid tx actdone (with_nids n st).
Proof.
  intros nid find subfind so inst given ctx origargs actdone st st' Hact Hdo.
  assert (Hr : replayable so origargs st = None).
  { unfold replayable. by rewrite Hact, andb_false_r. }
  destruct (act_ids nid inst origargs st) as [[[actid tx] st1]|ex] eqn:E.
  - destruct (do_act_miss nid find subfind so inst given ctx origargs actdone st actid tx st1
                E Hr) as (xinst & n & Hdo').
    rewrite Hdo' in Hdo. inversion Hdo; subst st'; clear Hdo.
    split; [by rewrite execute_action_inactive|]. split.
    + by destruct (execute_action_frame nid find subfind so inst xinst given
                     (default {| chain := []; entry := true; depth := 1 |} ctx)
                     (with_default so origargs) origargs actid tx actdone (with_nids n st))
        as (-> & _).
    + eauto.
  - unfold do_act in Hdo. by rewrite E in Hdo.
Qed.

(** *** Identifiers that are not strings *)

(** X8. [do_act] throws to its caller exactly when the first truthy value
    among [id$] and [actid$] is not a string ([split] is not a function of
    it): every other failure is handed to [act_done]. *)
Theorem act_throws_on_non_string_id :
  forall (nid : nat -> string)
         (find : list (msg * actmeta) -> msg -> bool -> option actmeta)
         (subfind : list (msg * sublist) -> msg -> option nat)
         (so : options) (inst : instance) (given : option actmeta) (ctx : option ctxt)
         (origargs : msg) (actdone : option (tuple -> option error)) (st : state),
    let given_id := js_or (get origargs "id$") (get origargs "actid$") in
    (truthy given_id = true /\ forall s, given_id <> VStr s) <->
    exists ex, do_act nid find subfind so inst given ctx origargs actdone st = Thrown ex.
Proof.
  intros nid find subfind so inst given ctx origargs actdone st given_id.
  assert (Hdo : forall ex,
            do_act nid find subfind so inst given ctx origargs actdone st = Thrown ex <->
            act_ids nid inst origargs st = Thrown ex).
  { intros ex. unfold do_act.
    destruct (act_ids nid inst origargs st) as [[[actid tx] st1]|ex0];
      [|split; intros [= ->]; reflexivity].
    destruct (apply_actcache _ _ _ _ _ _ _) as [[] ?];
      [split; intros H; discriminate H|].
    destruct (truthy (get (with_default so origargs) "gate$"));
      [destruct (delegate_method _ _ _ _ _)|]; split; intros H; discriminate H. }
  split.
  - intros [Ht Hs]. exists (new_Error "TypeError: split is not a function").
    apply Hdo. subst given_id. unfold act_ids, js_or in *.
    destruct (truthy (get origargs "id$")) eqn:E1.
    + destruct (get origargs "id$"); try done. by destruct (Hs s).
    + rewrite Ht. destruct (get origargs "actid$"); try done. by destruct (Hs s).
  - intros [ex Hex]. apply Hdo in Hex. subst given_id. unfold act_ids, js_or, idgen in *.
    destruct (truthy (get origargs "id$")) eqn:E1.
    + split; [done|]. intros s Hs. rewrite Hs in Hex.
      repeat match type of Hex with
             | context [if ?b then _ else _] => destruct b
             end; discriminate.
    + destruct (truthy (get origargs "actid$")) eqn:E2.
      * split; [done|]. intros s Hs. rewrite Hs in Hex.
        repeat match type of Hex with
               | context [if ?b then _ else _] => destruct b
               end; discriminate.
      * exfalso.
        repeat match type of Hex with
               | context [if ?b then _ else _] => destruct b
               end; discriminate.
Qed.

(** *** The counters of the patterns *)

Lemma act_done_static subfind so inst actmeta ctx args callargs origargs actid actstats
    actdone err res st :
  static (act_done subfind so inst actmeta ctx args callargs origargs actid actstats
            actdone err res st) = static st.
Proof.
  destruct (act_done_cases subfind so inst actmeta ctx args callargs origargs actid actstats
              actdone err res st) as [[e Hf] | [[He Hb] | (_ & _ & ->)]].
  - rewrite (act_done_failing_eq subfind so inst actmeta ctx args callargs origargs actid
               actstats actdone err res st e Hf).
    cbv zeta. destruct (timed_pushes actmeta ctx st) as (evs & ->).
    rewrite !actcache_set_eq, !actcache_alias_eq.
    destruct (truthy (get args "fatal$")); [by destruct actstats|].
    destruct (act_error_call_cb so callargs e); [|by destruct actstats].
    match goal with
    | |- context [mbind ?f actdone] => destruct (mbind f actdone) as [ex|]
    end; [|by destruct actstats].
    rewrite callback_error_exact, actcache_alias_eq. by destruct actstats.
  - rewrite (act_done_ok_eq subfind so inst actmeta ctx args callargs origargs actid
               actstats actdone err res st He Hb).
    cbv zeta. destruct (timed_pushes actmeta ctx st) as (evs & ->).
    match goal with
    | |- context [emit_act_out ?a ?b ?c ?d] =>
        destruct (emit_act_out_pushes a b c d) as (evs' & -> & _)
    end.
    rewrite !actcache_set_eq, !actcache_alias_eq.
    match goal with
    | |- context [mbind ?f actdone] => destruct (mbind f actdone) as [ex|]
    end; [|by destruct actstats].
    rewrite callback_error_exact, actcache_alias_eq. by destruct actstats.
  - reflexivity.
Qed.

Lemma act_done_actmap subfind so inst actmeta ctx args callargs origargs actid actstats
    actdone err res st p :
  is_Some (st_stats_actmap st !! p) ->
  is_Some (st_stats_actmap (act_done subfind so inst actmeta ctx args callargs origargs actid
                              actstats actdone err res st) !! p).
Proof.
  intros Hp.
  assert (Hb : forall f q, is_Some (bump_at f q (st_stats_actmap st) !! p)).
  { intros f q. unfold bump_at. destruct (decide (q = p)) as [->|Hne].
    - rewrite lookup_insert_eq. eauto.
    - by rewrite lookup_insert_ne. }
  destruct (act_done_cases subfind so inst actmeta ctx args callargs origargs actid actstats
              actdone err res st) as [[e Hf] | [[He Hb'] | (_ & _ & ->)]].
  - destruct (act_done_failing_stats subfind so inst actmeta ctx args callargs origargs actid
                actstats actdone err res st e Hf) as (_ & ->). by destruct actstats.
  - destruct (act_done_ok_stats subfind so inst actmeta ctx args callargs origargs actid
                actstats actdone err res st He Hb') as (_ & ->). by destruct actstats.
  - exact Hp.
Qed.

Lemma execute_action_static nid find subfind so inst xinst given ctx args origargs actid tx
    actdone st :
  let st' := execute_action nid find subfind so inst xinst given ctx args origargs actid tx
               actdone st in
  static st' = static st /\
  forall p, is_Some (st_stats_actmap st !! p) -> is_Some (st_stats_actmap st' !! p).
Proof.
  intros st'. subst st'.
  assert (Hgo : forall actmeta args' callargs actstats err res st0,
            static st0 = static st ->
            (forall p, is_Some (st_stats_actmap st !! p) ->
                       is_Some (st_stats_actmap st0 !! p)) ->
            static (act_done subfind so inst actmeta ctx args' callargs origargs actid
                      actstats actdone err res st0) = static st /\
            forall p, is_Some (st_stats_actmap st !! p) ->
                      is_Some (st_stats_actmap
                                 (act_done subfind so inst actmeta ctx args' callargs origargs
                                    actid actstats actdone err res st0) !! p)).
  { intros actmeta args' callargs actstats err res st0 Hs Hm.
    rewrite act_done_static. split; [exact Hs|].
    intros p Hp. apply act_done_actmap, Hm, Hp. }
  destruct (match given with
            | Some a => Some a
            | None => find (st_actrouter st) args (internal_catchall so)
            end) as [am|] eqn:Hres.
  - destruct (loop_ok so args am) eqn:Hl.
    + destruct (valid am args) eqn:Hv.
      * destruct (execute_action_found nid find subfind so inst xinst given ctx args origargs
                    actid tx actdone st am Hres Hl Hv) as (evs & _ & ->).
        cbv zeta.
        assert (Hm : forall p, is_Some (st_stats_actmap st !! p) ->
                               is_Some (bump_at bump_calls (am_pattern am)
                                          (st_stats_actmap st) !! p)).
        { intros p Hp. unfold bump_at. destruct (decide (am_pattern am = p)) as [->|Hne].
          - rewrite lookup_insert_eq. eauto.
          - by rewrite lookup_insert_ne. }
        destruct (st_closed st && _); apply Hgo; try done.
      * rewrite (execute_action_invalid nid find subfind so inst xinst given ctx args origargs
                   actid tx actdone st am Hres Hl Hv). by apply Hgo.
    + rewrite (execute_action_loop nid find subfind so inst xinst given ctx args origargs
                 actid tx actdone st am Hres Hl). by apply Hgo.
  - destruct given as [a|]; [discriminate|].
    rewrite execute_action_not_found by exact Hres.
    unfold executable_action.
    destruct (isPlainObject _ || isArray _); simpl.
    + by apply Hgo.
    + destruct (truthy (get args "fatal$")); simpl; [done|].
      apply Hgo; by destruct (trace_unknown so).
Qed.

Lemma do_act_static nid find subfind so inst given ctx origargs actdone st st' :
  do_act nid find subfind so inst given ctx origargs actdone st = Normal st' ->
  static st' = static st /\
  forall p, is_Some (st_stats_actmap st !! p) -> is_Some (st_stats_actmap st' !! p).
Proof.
  intros Hdo.
  destruct (act_ids nid inst origargs st) as [[[actid tx] st1]|ex] eqn:E.
  - destruct (replayable so origargs st) as [e|] eqn:Hr.
    + destruct (do_act_replay nid find subfind so inst given ctx origargs actdone st e Hr)
        as (n & Hdo').
      rewrite Hdo' in Hdo. by inversion Hdo; subst st'.
    + destruct (do_act_miss nid find subfind so inst given ctx origargs actdone st actid tx
                  st1 E Hr) as (xinst & n & Hdo').
      rewrite Hdo' in Hdo. inversion Hdo; subst st'; clear Hdo.
      apply (execute_action_static nid find subfind so inst xinst given _ _ origargs actid tx
               actdone (with_nids n st)).
  - unfold do_act in Hdo. by rewrite E in Hdo.
Qed.

Lemma counted_routes_static st st' :
  static st' = static st ->
  (forall p, is_Some (st_stats_actmap st !! p) -> is_Some (st_stats_actmap st' !! p)) ->
  counted_routes st -> counted_routes st'.
Proof.
  unfold static, counted_routes. intros Hs Hm [Hmod Hr].
  inversion Hs as [[H1 H2 H3 H4 H5]]. rewrite H1, H4. split; [exact Hmod|].
  intros r Hin. apply Hm, Hr, Hin.
Qed.

(** X9. In every state an instance without action modifiers goes through,
    each action of the router has counters in [stats.actmap] under its
    pattern: [act_stats_call] finds them and increments their [calls]. *)
Theorem routed_actions_are_counted :
  forall (nid : nat -> string)
         (find : list (msg * actmeta) -> msg -> bool -> option actmeta)
         (subfind : list (msg * sublist) -> msg -> option nat)
         (caller_text : msg -> string) (so : options) (st : state),
    reachable nid find subfind caller_text so st ->
    forall pattern am,
      (pattern, am) ∈ st_actrouter st ->
      exists c, st_stats_actmap st !! am_pattern am = Some c /\
                st_stats_actmap (act_stats_call (am_pattern am) st) !! am_pattern am
                = Some (bump_calls c).
Proof.
  intros nid find subfind caller_text so st Hreach.
  assert (Hc : counted_routes st).
  { induction Hreach as [|st self raw a m st' _ IH H|st self pat a _ IH
                         |st self pat cb st' _ IH H|st step cb st' _ IH H].
    - split; [done|]. intros r Hr. by apply elem_of_nil in Hr.
    - destruct IH as [Hmod IH].
      unfold api_add, add_actmeta in H. rewrite truthy_keys in H.
      cbv beta iota zeta delta [negb refnid idgen] in H.
      set (p := canon (filter (fun kv : string * value => isObject kv.2 = false)
                         (clean raw))) in H.
      assert (Hkeep : forall q (m0 : gmap string counters),
                is_Some (m0 !! q) ->
                is_Some (match m0 !! p with
                         | Some _ => m0
                         | None => <[p := zero]> m0
                         end !! q)).
      { intros q m0 Hq. destruct (m0 !! p) eqn:Hp; [done|].
        destruct (decide (p = q)) as [<-|Hne]; [by rewrite lookup_insert_eq|].
        by rewrite lookup_insert_ne. }
      assert (Hnew : forall m0 : gmap string counters,
                is_Some (match m0 !! p with
                         | Some _ => m0
                         | None => <[p := zero]> m0
                         end !! p)).
      { intros m0. destruct (m0 !! p) eqn:Hp; [by rewrite Hp|by rewrite lookup_insert_eq]. }
      match type of H with
      | context [select_prior ?a ?b ?c ?d] => destruct (select_prior a b c d) as [pm|]
      end; [destruct (am_handle pm)|];
        unfold modify_action in H; simpl in H; rewrite ?Hmod in H; simpl in H;
        inversion H; subst st'; clear H; simpl;
        (split; [exact Hmod|]); intros r Hr; simpl in *;
        try (apply Hkeep, IH, Hr);
        (apply elem_of_app in Hr as [Hr|Hr];
         [apply Hkeep, IH, Hr|apply list_elem_of_singleton in Hr; subst r; apply Hnew]).
    - destruct IH as [Hmod IH]. split.
      + unfold api_sub. destruct (st_handle_sub st);
          match goal with
          | |- context [match ?x with _ => _ end] => destruct x as [[i [q subs]]|]
          end; exact Hmod.
      + intros r. unfold api_sub. destruct (st_handle_sub st);
          match goal with
          | |- context [match ?x with _ => _ end] => destruct x as [[i [q subs]]|]
          end; apply IH.
    - unfold api_act in H.
      destruct (do_act _ _ _ _ _ _ _ _ _ _) as [st1|ex] eqn:E; [|discriminate].
      inversion H; subst st1. destruct (do_act_static _ _ _ _ _ _ _ _ _ _ _ E) as [Hs Hm].
      by apply (counted_routes_static st st').
    - destruct step as [d pm c a|r]; simpl in H.
      + destruct (do_act_static _ _ _ _ _ _ _ _ _ _ _ H) as [Hs Hm].
        by apply (counted_routes_static st st').
      + destruct cb as [k|]; [|discriminate]. destruct (k r); [discriminate|].
        inversion H; subst st'. exact IH. }
  destruct Hc as [Hmod Hr].
  intros pattern am Hin. destruct (Hr _ Hin) as [c Hc]. simpl in Hc.
  exists c. split; [exact Hc|].
  unfold act_stats_call, bump_at. simpl. rewrite Hc. simpl. apply lookup_insert_eq.
Qed.

(** X10. [api_add] leaves the totals alone and never resets the counters of
    a pattern: the counters of the canonical pattern of the new action are
    those it had, or zeros when it had none, and the counters of the other
    patterns stay. *)
Theorem add_keeps_counters :
  forall (nid : nat -> string)
         (find : list (msg * actmeta) -> msg -> bool -> option actmeta)
         (so : options) (self : instance) (raw_pattern : msg) (action_ : option action)
         (actmeta_ : option actmeta) (st st' : state),
    api_add nid find so self raw_pattern action_ actmeta_ st = Normal (self, st') ->
    let p := canon (filter (fun kv : string * value => isObject kv.2 = false)
                      (clean raw_pattern)) in
    st_stats_act st' = st_stats_act st /\
    st_stats_actmap st' !! p = Some (default zero (st_stats_actmap st !! p)) /\
    (forall q, q <> p -> st_stats_actmap st' !! q = st_stats_actmap st !! q).
Proof.
  intros nid find so self raw_pattern action_ actmeta_ st st' H p.
  unfold api_add, add_actmeta in H. rewrite truthy_keys in H.
  cbv beta iota zeta delta [negb refnid idgen] in H. fold p in H.
  assert (Hp : forall m0 : gmap string counters,
            match m0 !! p with
            | Some _ => m0
            | None => <[p := zero]> m0
            end !! p = Some (default zero (m0 !! p))).
  { intros m0. destruct (m0 !! p) eqn:E; [by rewrite E|by rewrite lookup_insert_eq]. }
  assert (Hq : forall (m0 : gmap string counters) q, q <> p ->
            match m0 !! p with
            | Some _ => m0
            | None => <[p := zero]> m0
            end !! q = m0 !! q).
  { intros m0 q Hne. destruct (m0 !! p); [done|]. by rewrite lookup_insert_ne. }
  match type of H with
  | context [select_prior ?a ?b ?c ?d] => destruct (select_prior a b c d) as [pm|]
  end; [destruct (am_handle pm)|];
    simpl in H; inversion H; subst st'; clear H; simpl;
    (split; [done|]); (split; [apply Hp|apply Hq]).
Qed.

(** *** Subscribers and calls that are not entries *)

Lemma sub_subject_entry prop_ (args : msg) :
  prop_ = "in$" \/ prop_ = "out$" ->
  prop (get (sub_subject prop_ args) "meta$") "entry" = prop (get args "meta$") "entry".
Proof.
  intros Hprop. unfold sub_subject, get at 1. rewrite lookup_insert_eq; simpl.
  unfold get at 1 2.
  rewrite lookup_insert_ne by (destruct Hprop; by subst). unfold js_or.
  destruct (args !! "meta$") as [v|]; simpl; [|reflexivity].
  destruct (truthy v) eqn:Ht; [reflexivity|]. by destruct v.
Qed.

Lemma emit_act_in_silent subfind (callargs : msg) st :
  is_true (prop (get callargs "meta$") "entry") = false ->
  emit_act_in subfind callargs st = push (EvActIn callargs) st.
Proof.
  intros H. unfold emit_act_in. simpl. destruct (st_handle_sub st); [|done].
  apply annotate_not_entry. rewrite sub_subject_entry by auto. exact H.
Qed.

Lemma emit_act_out_silent subfind (callargs : msg) result st :
  is_true (prop (get callargs "meta$") "entry") = false ->
  emit_act_out subfind callargs result st = push (EvActOut callargs result) st.
Proof.
  intros H. unfold emit_act_out. simpl. destruct (st_handle_sub st); [|done].
  apply annotate_not_entry. rewrite sub_subject_entry by auto. exact H.
Qed.

Lemma call_message_meta so xinst args actid tx am ctx is_sync :
  call_fixedargs so xinst tx am !! "meta$" = None ->
  get (call_message so xinst args actid tx am ctx is_sync) "meta$"
  = make_meta actid tx am ctx is_sync.
Proof.
  intros H. unfold call_message. rewrite get_extend, lookup_singleton_ne by done.
  rewrite get_extend, H, get_extend.
  unfold call_args. by rewrite lookup_insert_eq.
Qed.

Lemma act_done_failing_silent subfind so inst actmeta ctx args callargs origargs actid
    actstats actdone err res st e :
  failing so actmeta callargs err res e ->
  let st' := act_done subfind so inst actmeta ctx args callargs origargs actid actstats
               actdone err res st in
  subscribed st' = subscribed st /\ sublogs st' = sublogs st.
Proof.
  intros Hf st'. subst st'.
  destruct (timed_frame actmeta ctx st) as (_ & _ & Hst0).
  pose proof (Hst0 _ sel_sub (fun _ => eq_refl)) as Hs.
  pose proof (Hst0 _ sel_sublog (fun _ => eq_refl)) as Hl.
  clear Hst0.
  rewrite (act_done_failing_eq subfind so inst actmeta ctx args callargs origargs actid
             actstats actdone err res st e Hf).
  cbv zeta. revert Hs Hl. generalize (timed actmeta ctx st). intros st0 Hs Hl.
  rewrite !actcache_set_eq, !actcache_alias_eq.
  destruct (truthy (get args "fatal$")).
  { destruct actstats; destruct (errhandler_runs so callargs); see;
      rewrite ?Hs, ?Hl, ?app_nil_r; done. }
  destruct (act_error_call_cb so callargs e).
  2:{ destruct actstats; destruct (errhandler_runs so callargs); see;
        rewrite ?Hs, ?Hl, ?app_nil_r; done. }
  match goal with
  | |- context [mbind ?f actdone] => destruct (mbind f actdone) as [ex|]
  end.
  2:{ destruct actstats; destruct (errhandler_runs so callargs); see;
        rewrite ?Hs, ?Hl, ?app_nil_r; done. }
  rewrite callback_error_exact, actcache_alias_eq.
  destruct actstats; destruct (errhandler_runs so callargs); destruct (errhandler so); see;
    rewrite ?Hs, ?Hl, ?app_nil_r; done.
Qed.

Lemma act_done_silent subfind so inst am ctx args callargs origargs actid actstats
    actdone err res st :
  is_true (prop (get callargs "meta$") "entry") = false ->
  let st' := act_done subfind so inst (Some am) ctx args callargs origargs actid actstats
               actdone err res st in
  subscribed st' = subscribed st /\ sublogs st' = sublogs st.
Proof.
  intros Hsilent st'. subst st'.
  destruct (act_done_cases subfind so inst (Some am) ctx args callargs origargs actid actstats
              actdone err res st) as [[e Hf] | [[He Hb] | (Ha & _)]]; [| |discriminate Ha].
  - by apply (act_done_failing_silent subfind so inst (Some am) ctx args callargs origargs
                actid actstats actdone err res st e).
  - destruct (timed_frame (Some am) ctx st) as (_ & _ & Hst0).
    pose proof (Hst0 _ sel_sub (fun _ => eq_refl)) as Hs.
    pose proof (Hst0 _ sel_sublog (fun _ => eq_refl)) as Hl.
    clear Hst0.
    rewrite (act_done_ok_eq subfind so inst (Some am) ctx args callargs origargs actid
               actstats actdone err res st He Hb).
    cbv zeta. revert Hs Hl. generalize (timed (Some am) ctx st). intros st0 Hs Hl.
    rewrite emit_act_out_silent by exact Hsilent.
    rewrite !actcache_set_eq, !actcache_alias_eq.
    match goal with
    | |- context [mbind ?f actdone] => destruct (mbind f actdone) as [ex|]
    end.
    2:{ destruct actstats; see; rewrite ?Hs, ?Hl, ?app_nil_r; done. }
    rewrite callback_error_exact, actcache_alias_eq.
    destruct actstats; destruct (errhandler so); see; rewrite ?Hs, ?Hl, ?app_nil_r; done.
Qed.

(** X11. A call that is not an entry (the context that [delegate.prior]
    makes has [entry = false]) and resolves to an action calls no
    subscriber, neither at [act-in] nor at [act-out], provided the
    fixedargs of the delegate of the call do not replace [meta$]. *)
Theorem no_subscriber_off_entry :
  forall (nid : nat -> string)
         (find : list (msg * actmeta) -> msg -> bool -> option actmeta)
         (subfind : list (msg * sublist) -> msg -> option nat)
         (so : options) (inst xinst : instance) (given : option actmeta) (ctx : ctxt)
         (args origargs : msg) (actid : string) (tx : value)
         (actdone : option (tuple -> option error)) (st : state) (am : actmeta),
    match given with
    | Some a => Some a
    | None => find (st_actrouter st) args (internal_catchall so)
    end = Some am ->
    entry ctx = false ->
    call_fixedargs so xinst tx am !! "meta$" = None ->
    let st' := execute_action nid find subfind so inst xinst given ctx args origargs actid tx
                 actdone st in
    subscribed st' = subscribed st /\ sublogs st' = sublogs st.
Proof.
  intros nid find subfind so inst xinst given ctx args origargs actid tx actdone st am
    Hres Hentry Hfixed st'. subst st'.
  destruct (loop_ok so args am) eqn:Hl.
  2:{ rewrite (execute_action_loop nid find subfind so inst xinst given ctx args origargs
                 actid tx actdone st am Hres Hl).
      eapply act_done_failing_silent. by left. }
  destruct (valid am args) eqn:Hv.
  2:{ rewrite (execute_action_invalid nid find subfind so inst xinst given ctx args origargs
                 actid tx actdone st am Hres Hl Hv).
      eapply act_done_failing_silent. by left. }
  set (is_sync := bool_decide (is_Some actdone)).
  set (cm := call_message so xinst args actid tx am ctx is_sync).
  assert (Hcm : is_true (prop (get cm "meta$") "entry") = false).
  { subst cm. rewrite call_message_meta by exact Hfixed. simpl. by rewrite Hentry. }
  unfold execute_action. rewrite Hres, executable_action_found, Hl.
  rewrite (validate_action_message_valid so args am _ st Hv).
  fold is_sync.
  set (args' := <["meta$" := make_meta actid tx am ctx is_sync]>
                  (delete "actid$" (delete "id$" args))).
  set (st2 := if truthy (am_deprecate am)
              then push (EvLog "warn" "act" "DEPRECATED") (act_stats_call (am_pattern am) st)
              else act_stats_call (am_pattern am) st).
  destruct (act_make_delegate_eq nid so xinst tx args' am ctx st2) as (d & E & Hd).
  rewrite E, Hd.
  change (extend (extend (extend ∅ args') (call_fixedargs so xinst tx am)) {[ "tx$" := tx ]})
    with cm.
  rewrite emit_act_in_silent by exact Hcm.
  assert (Hpre : forall st3, st3 = (if negb (am_sub am)
                                    then push (EvLog "debug" "act" "IN")
                                           (with_nids (S (st_nids st2)) st2)
                                    else with_nids (S (st_nids st2)) st2) ->
                 subscribed (push (EvActIn cm) st3) = subscribed st /\
                 sublogs (push (EvActIn cm) st3) = sublogs st).
  { intros st3 ->. subst st2.
    assert (Hn : forall A (sel : event -> option A) n x,
               seen sel (with_nids n x) = seen sel x) by done.
    destruct (truthy (am_deprecate am)); destruct (negb (am_sub am));
      unfold subscribed, sublogs; rewrite ?seen_push, ?Hn, ?seen_push; simpl;
      rewrite ?app_nil_r; done. }
  match goal with
  | |- context [push (EvActIn cm) ?s] => destruct (Hpre s eq_refl) as [Hs1 Hl1]
  end.
  simpl st_closed.
  destruct (_ && _).
  - match goal with
    | |- context [act_done ?a ?b ?c (Some ?d) ?e ?f ?g ?h ?i ?j ?k ?l ?m ?o] =>
        destruct (act_done_silent a b c d e f g h i j k l m o Hcm) as [-> ->]
    end. done.
  - destruct (fn_call (am_func am) cm);
      match goal with
      | |- context [act_done ?a ?b ?c (Some ?d) ?e ?f ?g ?h ?i ?j ?k ?l ?m ?o] =>
          destruct (act_done_silent a b c d e f g h i j k l m o Hcm) as [-> ->]
      end; unfold subscribed, sublogs in *;
      (split; [rewrite seen_push; simpl; rewrite app_nil_r; exact Hs1
              |rewrite seen_push; simpl; rewrite app_nil_r; exact Hl1]).
Qed.

(** *** Transactions *)

Lemma act_ids_tx nid inst (origargs : msg) st t :
  is_nullish (get origargs "id$") = true ->
  is_nullish (get origargs "actid$") = true ->
  nid (st_nids st) <> "" -> has_slash (nid (st_nids st)) = false ->
  get origargs "tx$" = VStr t -> t <> "" ->
  act_ids nid inst origargs st
  = Normal (nid (st_nids st) ++ "/" ++ t, VStr t, with_nids (S (st_nids st)) st).
Proof.
  intros H1 H2 Hn Hs Ht Hne. unfold act_ids, idgen.
  destruct (get origargs "id$"); try discriminate;
    destruct (get origargs "actid$"); try discriminate; simpl;
    rewrite (split_no_slash _ Hs); simpl; rewrite Ht, truthy_VStr;
    apply String.eqb_neq in Hn, Hne; rewrite Hn, Hne; reflexivity.
Qed.

Lemma call_message_tx so xinst args actid tx am ctx is_sync :
  get (call_message so xinst args actid tx am ctx is_sync) "tx$" = tx.
Proof. unfold call_message. by rewrite get_extend, lookup_singleton_eq. Qed.

(** X12. A dispatched call that resolves to an action on an open instance
    calls the handler with [tx$] set to the transaction of the call, and
    stores its result under [<id>/<tx>]. The transaction is the part of
    [id$] after the [/] when [id$] has the form [<id>/<tx>], whatever [tx$]
    is; without [id$] and [actid$] it is the [tx$] of the message, and the
    id is a new one. *)
Theorem transaction_of_call :
  forall (nid : nat -> string)
         (find : list (msg * actmeta) -> msg -> bool -> option actmeta)
         (subfind : list (msg * sublist) -> msg -> option nat)
         (so : options) (inst : instance) (given : option actmeta) (ctx : option ctxt)
         (origargs : msg) (actdone : option (tuple -> option error)) (st : state)
         (am : actmeta),
    dispatched nid so inst origargs st ->
    resolves find so given (with_default so origargs) st am ->
    st_closed st = false ->
    exists actid tx st' cm,
      do_act nid find subfind so inst given ctx origargs actdone st = Normal st' /\
      handled st' = app (handled st) [(am_id am, cm)] /\
      get cm "tx$" = tx /\
      (exists id0, actid = id0 ++ "/" ++ to_str tx) /\
      (actcache_active so = true -> is_Some (st_actcache st' !! actid)) /\
      (forall i t, get origargs "id$" = VStr (i ++ "/" ++ t) ->
                   i <> "" -> t <> "" -> has_slash i = false -> has_slash t = false ->
                   tx = VStr t /\ actid = i ++ "/" ++ t) /\
      (forall t, is_nullish (get origargs "id$") = true ->
                 is_nullish (get origargs "actid$") = true ->
                 nid (st_nids st) <> "" -> has_slash (nid (st_nids st)) = false ->
                 get origargs "tx$" = VStr t -> t <> "" ->
                 tx = VStr t /\ actid = nid (st_nids st) ++ "/" ++ t).
Proof.
  intros nid find subfind so inst given ctx origargs actdone st am
    [(actid & tx & st1 & E) Hr] (Hres & Hloop & Hvalid) Hclosed.
  destruct (do_act_miss nid find subfind so inst given ctx origargs actdone st actid tx st1 E
              Hr) as (xinst & n & Hdo).
  set (c := default {| chain := []; entry := true; depth := 1 |} ctx) in *.
  exists actid, tx. eexists.
  exists (call_message so xinst (with_default so origargs) actid tx am c
            (bool_decide (is_Some actdone))).
  split; [exact Hdo|].
  destruct (execute_action_found nid find subfind so inst xinst given c
              (with_default so origargs) origargs actid tx actdone (with_nids n st) am
              Hres Hloop Hvalid) as (evs & Hevs & ->).
  cbv zeta. simpl st_closed. rewrite Hclosed. simpl.
  split.
  { match goal with
    | |- handled (act_done ?a ?b ?c ?d ?e ?f ?g ?h ?i ?j ?k ?l ?m ?o) = _ =>
        destruct (act_done_frame a b c d e f g h i j k l m o) as (-> & _)
    end.
    rewrite (handled_found_state so xinst _ actid tx am c _ evs _ Hevs). reflexivity. }
  split; [apply call_message_tx|].
  split.
  { unfold act_ids in E.
    repeat match type of E with
           | context [if ?b then _ else _] => destruct b
           | context [match ?v with VStr _ => _ | _ => _ end] => destruct v; try discriminate
           | context [let '(_, _) := idgen ?f ?s in _] => destruct (idgen f s)
           end; simpl in E; inversion E; subst; eauto. }
  split.
  { intros Hact.
    match goal with
    | |- context [act_done ?a ?b ?i0 (Some ?am') ?d ?e ?f ?g ?h ?i ?j ?k ?l ?m] =>
        destruct (act_done_stores a b i0 am' d e f g h i j k l m Hact) as (r & ->)
    end.
    rewrite lookup_insert_eq. eauto. }
  split.
  - intros i t Hid Hi Ht Hsi Hst.
    rewrite (act_ids_composed nid inst origargs st i t Hid Hi Ht Hsi Hst) in E.
    by inversion E.
  - intros t H1 H2 Hn Hs Ht Hne.
    rewrite (act_ids_tx nid inst origargs st t H1 H2 Hn Hs Ht Hne) in E.
    by inversion E.
Qed.

(** *** Time statistics *)




(** *** Subscriptions *)


(** *** Delegates of delegates, [gate] and [ungate] *)

Lemma lookup_extend (dst src : msg) k :
  extend dst src !! k = match src !! k with Some v => Some v | None => dst !! k end.
Proof. unfold extend. rewrite lookup_union. by destruct (src !! k), (dst !! k). Qed.

(** What is given to [delegate] reaches [api_delegate] through the
    wrappers of the delegates in between. *)
Lemma delegate_fixed_further so holder this (further : msg) k v :
  further !! k = Some v ->
  delegate_fixed so holder this (Some further) !! k
  = if strict_fixedargs so
    then match fixedargs this !! k with Some w => Some w | None => Some v end
    else Some v.
Proof.
  revert further. induction holder as [f|self IH did f]; intros further Hk; simpl.
  - destruct (strict_fixedargs so); rewrite !lookup_extend, ?Hk; [|done].
    by destruct (fixedargs this !! k).
  - apply IH. by rewrite lookup_extend, Hk.
Qed.

Lemma delegate_fixed_own so holder this (further : option msg) k v :
  fixedargs this !! k = Some v ->
  strict_fixedargs so = true \/
  (default ∅ further !! k = None /\ fixedargs holder = fixedargs this) ->
  delegate_fixed so holder this further !! k = Some v.
Proof.
  intros Hk Hor. destruct holder as [f|self did f]; simpl in *.
  - destruct (strict_fixedargs so) eqn:Hs; rewrite !lookup_extend, ?Hk; [done|].
    destruct Hor as [?|[Hf _]]; [done|]. by rewrite Hf.
  - destruct (strict_fixedargs so) eqn:Hs.
    + clear Hor. generalize (Some (extend (extend ∅ f) (default ∅ further))).
      induction self as [f'|self' IH did' f']; intros further'; simpl.
      * by rewrite Hs, !lookup_extend, Hk.
      * apply IH.
    + destruct Hor as [?|[Hf Hfix]]; [done|]. subst f.
      rewrite (delegate_fixed_further so self this _ k v), Hs; [done|].
      by rewrite !lookup_extend, Hf, Hk.
Qed.

(** X13. The fixedargs of [self.delegate(further)], for a root or for a
    delegate at any depth: with [strict.fixedargs] on, what [self] has
    fixed is kept; with it off, what is given in [further] wins; and an
    attribute that only one of the two has is taken from that one. *)
Theorem delegate_fixedargs_sticky :
  forall (nid : nat -> string) (so : options) (self : instance) (further : option msg)
         (st : state) (k : string) (v : value),
    let made := (delegate_method nid so self further st).1 in
    (strict_fixedargs so = true -> fixedargs self !! k = Some v ->
     fixedargs made !! k = Some v) /\
    (strict_fixedargs so = false -> default ∅ further !! k = Some v ->
     fixedargs made !! k = Some v) /\
    (fixedargs self !! k = None -> default ∅ further !! k = Some v ->
     fixedargs made !! k = Some v) /\
    (default ∅ further !! k = None -> fixedargs self !! k = Some v ->
     fixedargs made !! k = Some v).
Proof.
  intros nid so self further st k v made. subst made.
  unfold delegate_method. rewrite delegate_call_fixed.
  assert (Hf : forall w, default ∅ further !! k = Some w ->
                         delegate_fixed so self self further !! k
                         = if strict_fixedargs so
                           then match fixedargs self !! k with
                                | Some u => Some u | None => Some w end
                           else Some w).
  { intros w Hw. destruct further as [f|]; [by apply delegate_fixed_further|].
    unfold default in Hw. by rewrite lookup_empty in Hw. }
  repeat split.
  - intros Hs Hk. apply delegate_fixed_own; auto.
  - intros Hs Hk. by rewrite (Hf v Hk), Hs.
  - intros Hn Hk. rewrite (Hf v Hk), Hn. by destruct (strict_fixedargs so).
  - intros Hn Hk. apply delegate_fixed_own; auto.
Qed.

Lemma fixedargs_set_fixedarg k v i : fixedargs (set_fixedarg k v i) = <[k := v]> (fixedargs i).
Proof. by destruct i. Qed.

(** X14. [gate()] gives a delegate with [gate$ = true] on an instance that
    has no [gate$] of its own. After [ungate()], which sets [gate$ = false]
    on the instance itself, [gate()] gives a delegate whose [gate$] is
    still [false] when [strict.fixedargs] is on (the default), and [true]
    when it is off. *)
Theorem gate_after_ungate :
  forall (nid : nat -> string) (so : options) (self : instance) (st : state),
    get (fixedargs (gate nid so (ungate self) st).1) "gate$"
    = VBool (negb (strict_fixedargs so)) /\
    (fixedargs self !! "gate$" = None ->
     get (fixedargs (gate nid so self st).1) "gate$" = VBool true) /\
    get (fixedargs (ungate self)) "gate$" = VBool false.
Proof.
  intros nid so self st. unfold gate, delegate_method. rewrite !delegate_call_fixed.
  unfold get.
  rewrite !(delegate_fixed_further so _ _ _ "gate$" (VBool true))
    by (by rewrite lookup_singleton_eq).
  unfold ungate. rewrite fixedargs_set_fixedarg, lookup_insert_eq.
  split; [by destruct (strict_fixedargs so)|]. split; [|done].
  intros ->. by destruct (strict_fixedargs so).
Qed.

(** *** Exports, dependencies and decorations *)

(** X15. [export(key)] reads [util] as [basic] and never returns a falsy
    value: it returns the value of [private$.exports[key]] when that is
    truthy (an inherited member of the object included), and otherwise the
    instance dies of [export_not_found], once, as for a key that was never
    exported. *)
Theorem export_never_falsy :
  forall (exports : msg) (key : string) (st : state),
    let key' := if String.eqb key "util" then "basic" else key in
    api_export exports "util" st = api_export exports "basic" st /\
    match api_export exports key st with
    | (Some v, st') => v = member exports key' /\ truthy v = true /\ st' = st
    | (None, st') =>
        truthy (member exports key') = false /\
        died st' = app (died st) [internals_error "export_not_found"] /\
        callbacks st' = callbacks st
    end.
Proof.
  intros exports key st key'. split; [reflexivity|].
  unfold api_export. fold key'.
  destruct (truthy (member exports key')) eqn:E; simpl.
  - done.
  - unfold die, died, callbacks. rewrite !seen_push. simpl. by rewrite app_nil_r.
Qed.

Lemma every_dependency_eq byname deps st :
  every_dependency byname deps st
  = (forallb (includes_plugin byname) deps,
     if forallb (includes_plugin byname) deps then st
     else die (internals_error "plugin_required") st).
Proof.
  induction deps as [|d deps IH]; simpl; [done|].
  destruct (includes_plugin byname d); simpl; [exact IH|done].
Qed.

(** X16. [depends(pluginname, deps)] leaves the instance alone when every
    dependency is registered under its name or under [seneca-] followed by
    its name, and otherwise makes it die of [plugin_required] exactly once,
    however many dependencies are missing: the iteration stops at the
    first. *)
Theorem depends_dies_once :
  forall (byname : list string) (pluginname : string) (deps : option (list value))
         (moredeps : list value) (st : state),
    let wanted := match deps with Some d => d | None => moredeps end in
    let st' := api_depends byname pluginname deps moredeps st in
    (forallb (includes_plugin byname) wanted = true -> st' = st) /\
    (forallb (includes_plugin byname) wanted = false ->
     st' = die (internals_error "plugin_required") st /\
     died st' = app (died st) [internals_error "plugin_required"]) /\
    (forall d, includes_plugin byname (VStr d) = true <->
               d ∈ byname \/ "seneca-" ++ d ∈ byname).
Proof.
  intros byname pluginname deps moredeps st wanted st'.
  subst st'. unfold api_depends. fold wanted. rewrite every_dependency_eq. simpl.
  split; [by intros ->|]. split.
  - intros ->. split; [done|]. unfold die, died. by rewrite seen_push.
  - intros d. unfold includes_plugin. simpl. rewrite orb_true_iff, !bool_decide_eq_true. done.
Qed.

Lemma member_insert o k v : member (<[k := v]> o) k = v.
Proof. unfold member. by rewrite lookup_insert_eq. Qed.

(** X17. [decorate(property, value)] returns only for a name that does not
    start with [_], is not decorated and is not a property of the root; it
    then defines this property and no other, and, the value not being
    [undefined], any later [decorate] of the same name throws. *)
Theorem decorate_write_once :
  forall (property : string) (v : value) (d d' : decorated),
    api_decorate property v d = Normal d' ->
    (String.prefix "_" property = false /\
     member (decorations d) property = VUndef /\
     get (root_props d) property = VUndef) /\
    (get (root_props d') property = v /\
     forall q, q <> property ->
               root_props d' !! q = root_props d !! q /\
               decorations d' !! q = decorations d !! q) /\
    (v <> VUndef -> forall w, exists ex, api_decorate property w d' = Thrown ex).
Proof.
  intros property v d d' H. unfold api_decorate in H.
  destruct (String.prefix "_" property) eqn:Hp; [discriminate|].
  destruct (member (decorations d) property) eqn:Hm; try discriminate.
  destruct (get (root_props d) property) eqn:Hr; try discriminate.
  simpl in H. inversion H; subst d'; clear H. simpl.
  split; [done|]. split.
  - split; [unfold get; by rewrite lookup_insert_eq|].
    intros q Hq. by rewrite !lookup_insert_ne.
  - intros Hv w. unfold api_decorate. rewrite Hp. simpl. rewrite member_insert.
    destruct v; try done; eauto.
Qed.

(** *** Logging *)

(** The data [prepare_log] hands on. *)
Lemma prepare_log_objectlike inst log this args :
  exists data, prepare_log inst log this args = log inst [data] /\
               isObject (ld_base data) = true /\
               (isObject (ld_base (first_argument args)) = true -> data = first_argument args).
Proof.
  unfold prepare_log.
  destruct (isArray (ld_base (first_argument args))) eqn:Ha.
  - eexists. split; [reflexivity|]. split; [|done].
    by destruct (ld_base (first_argument args)).
  - destruct (isObject (ld_base (first_argument args))) eqn:Ho.
    + eexists. split; [reflexivity|]. done.
    + eexists. split; [reflexivity|]. done.
Qed.

Lemma prepare_log_object inst log this data :
  isObject (ld_base data) = true -> prepare_log inst log this [data] = log inst [data].
Proof.
  intros H. unfold prepare_log. simpl.
  destruct (isArray (ld_base data)); [done|]. by rewrite H.
Qed.

Lemma ld_get_put k v data k' :
  ld_get (ld_put k v data) k' = if decide (k = k') then v else ld_get data k'.
Proof.
  unfold ld_get, ld_put. simpl. destruct (decide (k = k')) as [->|Hne].
  - by rewrite lookup_insert_eq.
  - by rewrite lookup_insert_ne.
Qed.

Lemma modified_base calls data : ld_base (modified calls data) = ld_base data.
Proof. induction calls as [|[[d i] m] calls IH]; simpl; [done|exact IH]. Qed.

Lemma modified_other calls data k :
  k <> "actid" -> k <> "plugin_name" -> k <> "plugin_tag" -> k <> "pattern" ->
  ld_get (modified calls data) k = ld_get data k.
Proof.
  intros H1 H2 H3 H4. induction calls as [|[[d i] m] calls IH]; simpl; [done|].
  unfold act_delegate_log_modifier. rewrite !ld_get_put.
  repeat (destruct (decide _) as [E|_]; [by subst|]). exact IH.
Qed.

Lemma make_log_made root_ F inst inherited modifier :
  (forall data, isObject (ld_base data) = true ->
                default base_log inherited inst [data] = (root_, F data)) ->
  (forall data, ld_base (modifier data) = ld_base data) ->
  made_for root_ (fun data => F (modifier data)) (make_log inst inherited modifier).
Proof.
  intros HF Hm. split.
  - intros this data Hd. unfold make_log. simpl.
    rewrite prepare_log_object by done. unfold make_modified_log. simpl.
    apply HF. by rewrite Hm.
  - exists inst. intros level method. unfold log_method, make_log. simpl.
    do 5 (match goal with
          | |- context [String.eqb level ?s] =>
              destruct (String.eqb_spec level s) as [->|_];
              [intros H; cbv iota in H; congruence|]
          end).
    intros H; discriminate H.
Qed.

Lemma root_log_made root_id now root_ :
  made_for root_ (default_log_modifier root_id now) (root_log root_id now root_).
Proof.
  apply (make_log_made root_ (fun d => d) root_ None (default_log_modifier root_id now)).
  - intros data _. reflexivity.
  - intros data. reflexivity.
Qed.

Lemma delegate_log_made root_ F calls l :
  made_for root_ F l ->
  made_for root_ (fun data => F (modified calls data)) (delegate_log calls l).
Proof.
  revert F l. induction calls as [|[[d i] m] calls IH]; intros F l Hl; simpl.
  - destruct Hl as [Hp Hm]. split; [exact Hp|exact Hm].
  - pose proof (make_log_made root_ F d (Some (log_plain l))
                  (act_delegate_log_modifier i m)) as Hmade.
    specialize (IH (fun data => F (act_delegate_log_modifier i m data))
                  (make_log d (Some (log_plain l)) (act_delegate_log_modifier i m))).
    destruct IH as [Hp Hm].
    { apply Hmade; [|done]. intros data Hd. simpl. by apply Hl. }
    split; [|exact Hm].
    intros this data Hd. by rewrite Hp.
Qed.

Lemma default_log_modifier_level root_id now data :
  ld_get (default_log_modifier root_id now data) "level"
  = if is_nullish (ld_get data "level") then VStr "debug" else ld_get data "level".
Proof. unfold default_log_modifier. by rewrite !ld_get_put. Qed.

Lemma default_log_modifier_other root_id now data k :
  k <> "level" -> k <> "seneca" -> k <> "when" ->
  ld_get (default_log_modifier root_id now data) k = ld_get data k.
Proof.
  intros H1 H2 H3. unfold default_log_modifier. rewrite !ld_get_put.
  repeat (destruct (decide _) as [E|_]; [by subst|]). done.
Qed.

Lemma method_of_made root_ F l level method this args :
  made_for root_ F l ->
  log_method l level = Some method ->
  exists data,
    method this args = (root_, F (log_level level data)) /\
    isObject (ld_base data) = true /\
    (isObject (ld_base (first_argument args)) = true -> data = first_argument args).
Proof.
  intros [Hp [inst Hm]] Hl. rewrite (Hm _ _ Hl).
  destruct (prepare_log_objectlike inst (make_modified_log (log_plain l) (log_level level))
              this args) as (data & -> & Ho & Ha).
  exists data. split; [|done]. unfold make_modified_log. simpl. by apply Hp.
Qed.

(** X18. For the log of the root or of the delegate of a call, however
    deeply nested: an entry made through [log.debug], [log.info],
    [log.warn], [log.error] or [log.fatal] reaches the logger with the root
    as instance and that level, whatever [level] the data had, and with
    [seneca] and [when] defined; an entry made through [log] itself keeps
    its [level], and gets [debug] when it has none. *)
Theorem log_level_forced :
  forall (root_id : string) (now : Z) (root_ : instance)
         (calls : list (instance * string * actmeta))
         (level : string) (method : logfn) (this : instance) (args : list logdata),
    let l := delegate_log calls (root_log root_id now root_) in
    log_method l level = Some method ->
    (method this args).1 = root_ /\
    ld_get (method this args).2 "level" = VStr level /\
    is_nullish (ld_get (method this args).2 "seneca") = false /\
    is_nullish (ld_get (method this args).2 "when") = false /\
    (forall data, isObject (ld_base data) = true ->
       (log_plain l this [data]).1 = root_ /\
       ld_get (log_plain l this [data]).2 "level"
       = if is_nullish (ld_get data "level") then VStr "debug" else ld_get data "level").
Proof.
  intros root_id now root_ calls level method this args l Hl.
  pose proof (delegate_log_made root_ _ calls _ (root_log_made root_id now root_)) as Hmade.
  fold l in Hmade.
  destruct (method_of_made root_ _ l level method this args Hmade Hl) as (data & -> & _).
  simpl. split; [done|]. split.
  { rewrite default_log_modifier_level, modified_other by done.
    unfold log_level. by rewrite ld_get_put. }
  split.
  { unfold default_log_modifier. rewrite !ld_get_put. simpl.
    by destruct (is_nullish (ld_get _ "seneca")) eqn:E. }
  split.
  { unfold default_log_modifier. rewrite !ld_get_put. simpl.
    by destruct (is_nullish (ld_get _ "when")) eqn:E. }
  intros d Hd. destruct Hmade as [Hp _]. rewrite (Hp this d Hd). simpl.
  split; [done|]. by rewrite default_log_modifier_level, modified_other.
Qed.

(** X19. For the log of the delegate of a call made inside other calls:
    every entry reaches the logger with the root as instance and with the
    [actid] of the outermost call, each modifier replacing the [actid] set
    by the one before; its [pattern] is that of the innermost action
    when the data gives none. *)
Theorem delegate_log_actid :
  forall (root_id : string) (now : Z) (root_ : instance)
         (outer : instance) (outer_id : string) (outer_meta : actmeta)
         (calls : list (instance * string * actmeta))
         (level : string) (method : logfn) (this : instance) (args : list logdata),
    let l := delegate_log ((outer, outer_id, outer_meta) :: calls)
               (root_log root_id now root_) in
    log_method l level = Some method ->
    (method this args).1 = root_ /\
    ld_get (method this args).2 "actid" = VStr outer_id /\
    (forall inner inner_id inner_meta,
       last ((outer, outer_id, outer_meta) :: calls) = Some (inner, inner_id, inner_meta) ->
       truthy (ld_get (first_argument args) "pattern") = false ->
       isObject (ld_base (first_argument args)) = true ->
       am_pattern inner_meta <> "" ->
       ld_get (method this args).2 "pattern" = VStr (am_pattern inner_meta)).
Proof.
  intros root_id now root_ outer outer_id outer_meta calls level method this args l Hl.
  pose proof (delegate_log_made root_ _ ((outer, outer_id, outer_meta) :: calls) _
                (root_log_made root_id now root_)) as Hmade.
  fold l in Hmade.
  destruct (method_of_made root_ _ l level method this args Hmade Hl)
    as (data & -> & Ho & Ha).
  simpl. split; [done|]. split.
  { rewrite default_log_modifier_other by done.
    unfold act_delegate_log_modifier. by rewrite !ld_get_put. }
  intros inner inner_id inner_meta Hlast Hpat Hobj Hne.
  rewrite (Ha Hobj). clear Ha Ho data.
  rewrite default_log_modifier_other by done.
  assert (Hstep : forall i m d, truthy (ld_get d "pattern") = true ->
                    ld_get (act_delegate_log_modifier i m d) "pattern" = ld_get d "pattern").
  { intros i m d Ht. unfold act_delegate_log_modifier. rewrite !ld_get_put. simpl.
    unfold js_or. rewrite ?ld_get_put. simpl. by rewrite Ht. }
  change (act_delegate_log_modifier outer_id outer_meta
            (modified calls (log_level level (first_argument args))))
    with (modified ((outer, outer_id, outer_meta) :: calls)
            (log_level level (first_argument args))).
  set (all := (outer, outer_id, outer_meta) :: calls) in *.
  clearbody all. clear Hl Hmade l.
  revert Hlast. induction all as [|[[d i] m] all IH]; [done|].
  intros Hlast. destruct all as [|c all'].
  - simpl in Hlast. inversion Hlast; subst. simpl.
    unfold act_delegate_log_modifier. rewrite !ld_get_put. simpl.
    unfold js_or. rewrite ?ld_get_put. simpl.
    unfold log_level. rewrite ?ld_get_put. simpl. by rewrite Hpat.
  - change (modified ((d, i, m) :: c :: all') ?x)
      with (act_delegate_log_modifier i m (modified (c :: all') x)).
    rewrite Hstep; rewrite IH; try done.
    simpl. apply negb_true_iff. by apply String.eqb_neq.
Qed.

(** ** Errors and subscribers of a dispatch *)

(** *** The [errhandler] and [fatal$] *)




(** *** Subscribers *)

Lemma annotate_exact subfind prop_ cm result st :
  prop_ = "in$" \/ prop_ = "out$" ->
  annotate subfind prop_ cm result st
  = pushes (if is_true (prop (get cm "meta$") "entry")
            then sub_events (found_subs subfind st prop_ cm).2 result
                   (found_subs subfind st prop_ cm).1
            else []) st.
Proof.
  intros Hp. unfold found_subs.
  destruct (is_true (prop (get cm "meta$") "entry")) eqn:He.
  - destruct (subfind (st_subrouter st) (sub_subject prop_ cm)
                ≫= (fun i => st_subrouter st !! i)) as [[p subs]|] eqn:Hf.
    + simpl. eapply annotate_entry; [by rewrite sub_subject_entry|exact Hf].
    + simpl. rewrite pushes_nil. by apply annotate_no_subs.
  - rewrite pushes_nil. apply annotate_not_entry. by rewrite sub_subject_entry.
Qed.

Lemma emit_act_in_exact subfind cm st :
  emit_act_in subfind cm st = pushes (EvActIn cm :: notes subfind st "in$" cm VUndef) st.
Proof.
  unfold emit_act_in, notes. simpl. destruct (st_handle_sub st); simpl.
  - rewrite annotate_exact by auto. rewrite push_pushes, pushes_pushes. reflexivity.
  - apply push_pushes.
Qed.

Lemma emit_act_out_exact subfind cm result st :
  emit_act_out subfind cm result st
  = pushes (EvActOut cm result :: notes subfind st "out$" cm result) st.
Proof.
  unfold emit_act_out, notes. simpl. destruct (st_handle_sub st); simpl.
  - rewrite annotate_exact by auto. rewrite push_pushes, pushes_pushes. reflexivity.
  - apply push_pushes.
Qed.

Lemma notes_subscribed subfind st prop_ cm result :
  omap sel_sub (notes subfind st prop_ cm result)
  = if st_handle_sub st && is_true (prop (get cm "meta$") "entry")
    then sub_calls (found_subs subfind st prop_ cm).1 (found_subs subfind st prop_ cm).2 result
    else [].
Proof. unfold notes. destruct (_ && _); [apply omap_sub_events|done]. Qed.

Lemma notes_sublogs subfind st prop_ cm result :
  omap sel_sublog (notes subfind st prop_ cm result)
  = if st_handle_sub st && is_true (prop (get cm "meta$") "entry")
    then sub_catches (found_subs subfind st prop_ cm).1 (found_subs subfind st prop_ cm).2
           result
    else [].
Proof. unfold notes. destruct (_ && _); [apply omap_sublog_events|done]. Qed.

Lemma notes_Forall subfind st prop_ cm result :
  Forall sub_event (notes subfind st prop_ cm result).
Proof. unfold notes. destruct (_ && _); [apply sub_events_Forall|constructor]. Qed.

Lemma notes_static subfind st1 st prop_ cm result :
  static st1 = static st ->
  notes subfind st1 prop_ cm result = notes subfind st prop_ cm result.
Proof.
  unfold static, notes, found_subs. intros [= _ Hs Hh _ _]. by rewrite Hs, Hh.
Qed.

Lemma execute_action_found_exact nid find subfind so inst xinst actmeta ctx args origargs
    actid tx actdone st am :
  match actmeta with
  | Some a => Some a
  | None => find (st_actrouter st) args (internal_catchall so)
  end = Some am ->
  loop_ok so args am = true ->
  valid am args = true ->
  let is_sync := bool_decide (is_Some actdone) in
  let args' := call_args args actid tx am ctx is_sync in
  let cm := call_message so xinst args actid tx am ctx is_sync in
  let action_done :=
    act_done subfind so inst (Some am) ctx args' cm origargs actid (Some (am_pattern am))
      actdone in
  execute_action nid find subfind so inst xinst actmeta ctx args origargs actid tx actdone st
  = let st4 :=
      pushes (app (if truthy (am_deprecate am) then [EvLog "warn" "act" "DEPRECATED"] else [])
                (app (if negb (am_sub am) then [EvLog "debug" "act" "IN"] else [])
                     (EvActIn cm :: notes subfind st "in$" cm VUndef)))
        (with_nids (S (st_nids st)) (act_stats_call (am_pattern am) st)) in
    if st_closed st && negb (truthy (get cm "closing$"))
    then action_done (EErr (internals_error "instance-closed")) VUndef st4
    else
      let t := outcome_tuple (fn_call (am_func am) cm) in
      action_done t.1 t.2 (push (EvHandler (am_id am) cm) st4).
Proof.
  intros Hf Hl Hv is_sync args' cm action_done.
  unfold execute_action. rewrite Hf, executable_action_found, Hl.
  rewrite (validate_action_message_valid so args am _ st Hv).
  fold is_sync.
  set (st2 := if truthy (am_deprecate am)
              then push (EvLog "warn" "act" "DEPRECATED") (act_stats_call (am_pattern am) st)
              else act_stats_call (am_pattern am) st).
  destruct (act_make_delegate_eq nid so xinst tx args' am ctx st2) as (d & E & Hd).
  subst args' cm action_done. unfold call_message, call_args in *.
  rewrite E. rewrite Hd.
  set (cm := extend _ {[ "tx$" := tx ]}).
  set (st3 := if negb (am_sub am)
              then push (EvLog "debug" "act" "IN") (with_nids (S (st_nids st2)) st2)
              else with_nids (S (st_nids st2)) st2).
  rewrite emit_act_in_exact.
  assert (Hn : notes subfind st3 "in$" cm VUndef = notes subfind st "in$" cm VUndef).
  { apply notes_static. subst st3 st2.
    destruct (truthy (am_deprecate am)); destruct (negb (am_sub am)); reflexivity. }
  rewrite Hn.
  assert (Hst4 : pushes (EvActIn cm :: notes subfind st "in$" cm VUndef) st3
                 = pushes (app (if truthy (am_deprecate am)
                                then [EvLog "warn" "act" "DEPRECATED"] else [])
                             (app (if negb (am_sub am) then [EvLog "debug" "act" "IN"] else [])
                                  (EvActIn cm :: notes subfind st "in$" cm VUndef)))
                     (with_nids (S (st_nids st)) (act_stats_call (am_pattern am) st))).
  { subst st3 st2. destruct (truthy (am_deprecate am)); destruct (negb (am_sub am)); simpl;
      unfold pushes, push; simpl; rewrite <- ?app_assoc; reflexivity. }
  rewrite Hst4. simpl.
  destruct (st_closed st && negb (truthy (get cm "closing$"))); [reflexivity|].
  destruct (fn_call (am_func am) cm); reflexivity.
Qed.

Lemma failing_not_succeeds so actmeta callargs err res e :
  failing so actmeta callargs err res e -> succeeds so callargs (err, res) = false.
Proof.
  intros [-> | (-> & Hn & Hobj & Hstrict & Hleg & _ & _)]; [done|].
  unfold succeeds, bad_result. simpl. by rewrite Hn, Hobj, Hstrict, Hleg.
Qed.

Lemma act_done_subs subfind so inst am ctx args callargs origargs actid actstats actdone
    err res st :
  let st' := act_done subfind so inst (Some am) ctx args callargs origargs actid actstats
               actdone err res st in
  let evs := if succeeds so callargs (err, res) then notes subfind st "out$" callargs res
             else [] in
  subscribed st' = app (subscribed st) (omap sel_sub evs) /\
  sublogs st' = app (sublogs st) (omap sel_sublog evs).
Proof.
  intros st' evs. subst st' evs.
  destruct (act_done_cases subfind so inst (Some am) ctx args callargs origargs actid actstats
              actdone err res st) as [[e Hf] | [[He Hb] | (Ha & _)]]; [| |discriminate Ha].
  - rewrite (failing_not_succeeds _ _ _ _ _ _ Hf). simpl. rewrite !app_nil_r.
    by apply (act_done_failing_silent subfind so inst (Some am) ctx args callargs origargs
                actid actstats actdone err res st e).
  - assert (Hs : succeeds so callargs (err, res) = true).
    { unfold succeeds. simpl. rewrite Hb. by destruct He as [-> | ->]. }
    rewrite Hs.
    destruct (timed_frame (Some am) ctx st) as (_ & _ & Hst0).
    pose proof (Hst0 _ sel_sub (fun _ => eq_refl)) as Hsub.
    pose proof (Hst0 _ sel_sublog (fun _ => eq_refl)) as Hlog.
    clear Hst0.
    assert (Hn : notes subfind
                   (actcache_set so actid {| ce_result := (err, res); ce_actmeta := Some am |}
                      (timed (Some am) ctx st)) "out$" callargs res
                 = notes subfind st "out$" callargs res).
    { apply notes_static. rewrite actcache_set_eq. unfold timed.
      by destruct (_ <=? _)%Z. }
    rewrite (act_done_ok_eq subfind so inst (Some am) ctx args callargs origargs actid
               actstats actdone err res st He Hb).
    cbv zeta. rewrite emit_act_out_exact, Hn. clear Hn.
    generalize (notes subfind st "out$" callargs res). intros evs.
    revert Hsub Hlog. generalize (timed (Some am) ctx st). intros st0 Hsub Hlog.
    rewrite !actcache_set_eq, !actcache_alias_eq.
    match goal with
    | |- context [mbind ?f actdone] => destruct (mbind f actdone) as [ex|]
    end.
    2:{ destruct actstats; see; rewrite ?Hsub, ?Hlog, ?app_nil_r; done. }
    rewrite callback_error_exact, actcache_alias_eq.
    destruct actstats; destruct (errhandler so); see; rewrite ?Hsub, ?Hlog, ?app_nil_r; done.
Qed.

Lemma api_sub_registers subfind self pattern f st :
  let st' := api_sub subfind self pattern f st in
  st_handle_sub st' = true /\
  exists i p subs before,
    st_subrouter st' !! i = Some (p, subs) /\ subs_funcs subs = app before [f].
Proof.
  intros st'. subst st'. unfold api_sub. cbv zeta.
  match goal with
  | |- context [if ?c then <["in$" := VBool true]> pattern else pattern] =>
      generalize (if c then <["in$" := VBool true]> pattern else pattern)
  end.
  intros pattern'.
  assert (Hgo : forall st0 : state,
            st_handle_sub st0 = true ->
            let st' :=
              match subfind (st_subrouter st0) pattern'
                    ≫= (fun i => (fun e => (i, e)) <$> st_subrouter st0 !! i) with
              | Some (i, (p, subs)) =>
                  with_subrouter
                    (fun r => <[i := (p, {| subs_pattern := subs_pattern subs;
                                            subs_funcs := app (subs_funcs subs) [f] |})]> r)
                    st0
              | None =>
                  with_subrouter
                    (fun r => app r [(pattern', {| subs_pattern := canon pattern';
                                                   subs_funcs := [f] |})]) st0
              end in
            st_handle_sub st' = true /\
            exists i p subs before,
              st_subrouter st' !! i = Some (p, subs) /\ subs_funcs subs = app before [f]).
  { intros st0 Hh st'. subst st'.
    destruct (subfind (st_subrouter st0) pattern') as [i|] eqn:Hf; simpl.
    - destruct (st_subrouter st0 !! i) as [[p subs]|] eqn:Hi; simpl.
      + split; [exact Hh|].
        exists i, p, {| subs_pattern := subs_pattern subs;
                        subs_funcs := app (subs_funcs subs) [f] |}, (subs_funcs subs).
        split; [|reflexivity].
        apply list_lookup_insert_eq. eapply lookup_lt_Some. exact Hi.
      + split; [exact Hh|].
        exists (List.length (st_subrouter st0)), pattern',
               {| subs_pattern := canon pattern'; subs_funcs := [f] |}, [].
        split; [|reflexivity].
        by rewrite lookup_app_r, Nat.sub_diag.
    - split; [exact Hh|].
      exists (List.length (st_subrouter st0)), pattern',
             {| subs_pattern := canon pattern'; subs_funcs := [f] |}, [].
      split; [|reflexivity].
      by rewrite lookup_app_r, Nat.sub_diag. }
  destruct (st_handle_sub st) eqn:Hh; apply Hgo; done.
Qed.

Lemma do_act_miss_exact nid find subfind so inst actmeta ctx origargs actdone st actid tx n :
  act_ids nid inst origargs st = Normal (actid, tx, with_nids n st) ->
  replayable so origargs st = None ->
  exists n',
    do_act nid find subfind so inst actmeta ctx origargs actdone st
    = Normal (execute_action nid find subfind so inst
                (if truthy (get origargs "gate$")
                 then (delegate_method nid so inst None (with_nids n st)).1 else inst)
                actmeta (default {| chain := []; entry := true; depth := 1 |} ctx)
                (with_default so origargs) origargs actid tx actdone (with_nids n' st)).
Proof.
  intros E Hr. unfold do_act. rewrite E.
  rewrite apply_actcache_eq, replayable_with_default, replayable_with_nids, Hr.
  rewrite (get_with_default so origargs "gate$") by done.
  destruct (truthy (get origargs "gate$")).
  - destruct (delegate_method_frame nid so inst None (with_nids n st)) as (d & ->).
    simpl. eauto.
  - eauto.
Qed.

Lemma call_message_entry so xinst args actid tx am ctx is_sync :
  is_true (prop (get (call_message so xinst args actid tx am ctx is_sync) "meta$") "entry")
  = match call_fixedargs so xinst tx am !! "meta$" with
    | Some v => is_true (prop v "entry")
    | None => entry ctx
    end.
Proof.
  unfold call_message. rewrite get_extend, lookup_singleton_ne by done.
  rewrite get_extend. destruct (call_fixedargs so xinst tx am !! "meta$"); [done|].
  rewrite get_extend. unfold call_args. rewrite lookup_insert_eq. simpl.
  by destruct (entry ctx).
Qed.

(** C9 (as amended). [sub] installs the listeners of [act-in] and [act-out]
    and puts the subscriber at the end of a list of the router of
    subscribers. A dispatch that resolves to an action and passes the loop
    check and the validator, on an instance that is not closed, emits
    [act-in] with the call message and, when the handler succeeds,
    [act-out] with the same message and the result; at each of the two, the
    subscribers that the router of subscribers gives for the message are
    called, all and in order, if and only if the listeners are installed
    and [meta$.entry] of the call message is [true]. That flag is the
    [entry] of the call context, unless the fixedargs of the delegate of
    the call have a [meta$] of their own, which replaces the one of the
    call. Each subscriber that throws is caught and logged
    ([sub_function_catch]): [do_act] returns, the handler is called, and
    the continuation gets the result. A dispatch that the loop check or the
    validator stops emits neither and calls no subscriber. *)
Theorem C9_subscribers_fire_iff_entry :
  forall (nid : nat -> string)
         (find : list (msg * actmeta) -> msg -> bool -> option actmeta)
         (subfind : list (msg * sublist) -> msg -> option nat)
         (so : options) (self : instance) (pattern : msg) (f : subfunc) (st0 : state)
         (inst : instance) (given : option actmeta) (ctx : option ctxt) (origargs : msg)
         (actdone : option (tuple -> option error)) (st : state) (am : actmeta),
    (st_handle_sub (api_sub subfind self pattern f st0) = true /\
     exists i p subs before,
       st_subrouter (api_sub subfind self pattern f st0) !! i = Some (p, subs) /\
       subs_funcs subs = app before [f]) /\
    (dispatched nid so inst origargs st ->
     resolves find so given (with_default so origargs) st am ->
     st_closed st = false ->
     exists actid tx n st',
       act_ids nid inst origargs st = Normal (actid, tx, with_nids n st) /\
       do_act nid find subfind so inst given ctx origargs actdone st = Normal st' /\
       let xinst := if truthy (get origargs "gate$")
                    then (delegate_method nid so inst None (with_nids n st)).1 else inst in
       let ctx' := default {| chain := []; entry := true; depth := 1 |} ctx in
       let cm := call_message so xinst (with_default so origargs) actid tx am ctx'
                   (bool_decide (is_Some actdone)) in
       let fires := st_handle_sub st && is_true (prop (get cm "meta$") "entry") in
       let t := outcome_tuple (fn_call (am_func am) cm) in
       let ins := found_subs subfind st "in$" cm in
       let outs := found_subs subfind st "out$" cm in
       is_true (prop (get cm "meta$") "entry")
       = match call_fixedargs so xinst tx am !! "meta$" with
         | Some v => is_true (prop v "entry")
         | None => entry ctx'
         end /\
       subscribed st'
       = app (subscribed st)
           (app (if fires then sub_calls ins.1 ins.2 VUndef else [])
                (if fires && succeeds so cm t then sub_calls outs.1 outs.2 t.2 else [])) /\
       sublogs st'
       = app (sublogs st)
           (app (if fires then sub_catches ins.1 ins.2 VUndef else [])
                (if fires && succeeds so cm t then sub_catches outs.1 outs.2 t.2 else [])) /\
       (ins.1 <> [] -> (subscribed st' <> subscribed st <-> fires = true)) /\
       map fst (handled st') = app (map fst (handled st)) [am_id am] /\
       (succeeds so cm t = true ->
        callbacks st' = app (callbacks st) [(Now, (ENull, t.2))]) /\
       static st' = static st) /\
    (dispatched nid so inst origargs st ->
     match given with
     | Some a => Some a
     | None => find (st_actrouter st) (with_default so origargs) (internal_catchall so)
     end = Some am ->
     loop_ok so (with_default so origargs) am && valid am (with_default so origargs) = false ->
     exists st',
       do_act nid find subfind so inst given ctx origargs actdone st = Normal st' /\
       subscribed st' = subscribed st /\ sublogs st' = sublogs st /\
       handled st' = handled st).
Proof.
  intros nid find subfind so self pattern f st0 inst given ctx origargs actdone st am.
  split; [apply api_sub_registers|]. split.
  - intros [(actid & tx & st1 & E) Hr] (Hres & Hloop & Hvalid) Hclosed.
    destruct (act_ids_frame _ _ _ _ _ _ _ E) as (_ & n & ->).
    destruct (do_act_miss_exact nid find subfind so inst given ctx origargs actdone st actid
                tx n E Hr) as (n' & Hdo).
    exists actid, tx, n. eexists. split; [exact E|]. split; [exact Hdo|].
    cbv zeta.
    set (xinst := if truthy (get origargs "gate$")
                  then (delegate_method nid so inst None (with_nids n st)).1 else inst).
    set (c := default {| chain := []; entry := true; depth := 1 |} ctx).
    set (cm := call_message so xinst (with_default so origargs) actid tx am c
                 (bool_decide (is_Some actdone))).
    set (t := outcome_tuple (fn_call (am_func am) cm)).
    split; [apply call_message_entry|].
    assert (Hst : static (execute_action nid find subfind so inst xinst given c
                            (with_default so origargs) origargs actid tx actdone
                            (with_nids n' st)) = static st).
    { apply (execute_action_static nid find subfind so inst xinst given c
               (with_default so origargs) origargs actid tx actdone (with_nids n' st)). }
    rewrite (execute_action_found_exact nid find subfind so inst xinst given c
               (with_default so origargs) origargs actid tx actdone (with_nids n' st) am
               Hres Hloop Hvalid) in Hst |- *.
    cbv zeta in Hst |- *. simpl st_closed in Hst |- *. rewrite Hclosed in Hst |- *.
    simpl andb in Hst |- *. cbv iota in Hst |- *.
    fold cm in Hst |- *. fold t in Hst |- *.
    assert (Hn : notes subfind (with_nids n' st) "in$" cm VUndef
                 = notes subfind st "in$" cm VUndef) by reflexivity.
    rewrite Hn in Hst |- *. clear Hn.
    set (st5 := push (EvHandler (am_id am) cm) _) in Hst |- *.
    assert (Hsub5 : subscribed st5
                    = app (subscribed st) (omap sel_sub (notes subfind st "in$" cm VUndef))).
    { subst st5. unfold subscribed. rewrite seen_push, seen_pushes, !omap_app. simpl.
      fold_omap.
      destruct (truthy (am_deprecate am)); destruct (negb (am_sub am)); simpl;
        rewrite ?app_nil_r; reflexivity. }
    assert (Hlog5 : sublogs st5
                    = app (sublogs st) (omap sel_sublog (notes subfind st "in$" cm VUndef))).
    { subst st5. unfold sublogs. rewrite seen_push, seen_pushes, !omap_app. simpl.
      fold_omap.
      destruct (truthy (am_deprecate am)); destruct (negb (am_sub am)); simpl;
        rewrite ?app_nil_r; reflexivity. }
    assert (Hh5 : handled st5 = app (handled st) [(am_id am, cm)]).
    { subst st5 cm.
      apply (handled_found_state so xinst (with_default so origargs) actid tx am c
               (bool_decide (is_Some actdone)) _ (with_nids (S (st_nids (with_nids n' st)))
                                                    (act_stats_call (am_pattern am)
                                                       (with_nids n' st)))).
      apply notes_Forall. }
    assert (Hcb5 : callbacks st5 = callbacks st).
    { subst st5 cm. unfold callbacks.
      apply (handled_handler_state so xinst (with_default so origargs) actid tx am c
               (bool_decide (is_Some actdone)) _ (with_nids n' st) (notes_Forall _ _ _ _ _));
        auto using blind_callback. }
    assert (Hn5 : notes subfind st5 "out$" cm t.2 = notes subfind st "out$" cm t.2).
    { apply notes_static. subst st5.
      destruct (truthy (am_deprecate am)); destruct (negb (am_sub am)); reflexivity. }
    match goal with
    | |- context [act_done ?a ?b ?i (Some ?d) ?e ?f ?g ?h ?j ?k ?l ?m ?o ?s] =>
        destruct (act_done_subs a b i d e f g h j k l m o s) as (Hsub & Hlog);
        destruct (act_done_frame a b i (Some d) e f g h j k l m o s) as (Hh & _);
        pose proof (fun He Hb => proj1 (proj2 (proj2
                      (act_done_ok_obs a b i (Some d) e f g h j k l m o s He Hb)))) as Hcb
    end.
    cbv zeta in Hsub, Hlog, Hh, Hcb.
    rewrite Hn5 in Hsub, Hlog. rewrite Hsub5 in Hsub. rewrite Hlog5 in Hlog.
    rewrite Hh5 in Hh. rewrite Hcb5 in Hcb.
    assert (Ht : (t.1, t.2) = t) by (by destruct t).
    rewrite Ht in Hsub, Hlog.
    assert (Hmain : subscribed
                      (act_done subfind so inst (Some am) c
                         (call_args (with_default so origargs) actid tx am c
                            (bool_decide (is_Some actdone)))
                         cm origargs actid (Some (am_pattern am)) actdone t.1 t.2 st5)
                    = app (subscribed st)
                        (app (if st_handle_sub st && is_true (prop (get cm "meta$") "entry")
                              then sub_calls (found_subs subfind st "in$" cm).1
                                     (found_subs subfind st "in$" cm).2 VUndef
                              else [])
                             (if st_handle_sub st && is_true (prop (get cm "meta$") "entry")
                                 && succeeds so cm t
                              then sub_calls (found_subs subfind st "out$" cm).1
                                     (found_subs subfind st "out$" cm).2 t.2
                              else []))).
    { rewrite Hsub, <- app_assoc. f_equal.
      destruct (succeeds so cm t); simpl; rewrite ?notes_subscribed;
        destruct (st_handle_sub st && _); simpl; rewrite ?app_nil_r; reflexivity. }
    split; [exact Hmain|].
    split.
    { rewrite Hlog, <- app_assoc. f_equal.
      destruct (succeeds so cm t); simpl; rewrite ?notes_sublogs;
        destruct (st_handle_sub st && _); simpl; rewrite ?app_nil_r; reflexivity. }
    split.
    { intros Hne. rewrite Hmain.
      destruct (st_handle_sub st && _); simpl.
      - split; [done|]. intros _ Heq. apply (f_equal List.length) in Heq.
        rewrite !length_app in Heq. unfold sub_calls in Heq at 1. rewrite length_map in Heq.
        destruct (found_subs subfind st "in$" cm).1; [done|]. simpl in Heq. lia.
      - split; [|done]. intros Hd. exfalso. apply Hd. by rewrite app_nil_r. }
    split.
    { rewrite Hh, map_app. reflexivity. }
    split; [|exact Hst].
    intros Hs. unfold succeeds in Hs.
    destruct t as [err res]. simpl in Hs |- *.
    destruct err as [| |e]; [| |discriminate Hs]; apply negb_true_iff in Hs;
      apply Hcb; auto.
  - intros [(actid & tx & st1 & E) Hr] Hres Hstop.
    destruct (do_act_miss nid find subfind so inst given ctx origargs actdone st actid tx st1 E
                Hr) as (xinst & n & ->).
    eexists. split; [reflexivity|].
    set (c := default {| chain := []; entry := true; depth := 1 |} ctx).
    destruct (loop_ok so (with_default so origargs) am) eqn:Hl.
    + simpl in Hstop.
      rewrite (execute_action_invalid nid find subfind so inst xinst given c
                 (with_default so origargs) origargs actid tx actdone (with_nids n st) am
                 Hres Hl Hstop).
      match goal with
      | |- context [act_done ?a ?b ?i ?d ?e ?f ?g ?h ?j ?k ?l ?m ?o ?s] =>
          destruct (act_done_failing_silent a b i d e f g h j k l m o s _ (or_introl eq_refl))
            as (Hs1 & Hs2);
          destruct (act_done_frame a b i d e f g h j k l m o s) as (Hh & _)
      end.
      cbv zeta in Hs1, Hs2, Hh. rewrite Hs1, Hs2, Hh. done.
    + rewrite (execute_action_loop nid find subfind so inst xinst given c
                 (with_default so origargs) origargs actid tx actdone (with_nids n st) am
                 Hres Hl).
      match goal with
      | |- context [act_done ?a ?b ?i ?d ?e ?f ?g ?h ?j ?k ?l ?m ?o ?s] =>
          destruct (act_done_failing_silent a b i d e f g h j k l m o s _ (or_introl eq_refl))
            as (Hs1 & Hs2);
          destruct (act_done_frame a b i d e f g h j k l m o s) as (Hh & _)
      end.
      cbv zeta in Hs1, Hs2, Hh. rewrite Hs1, Hs2, Hh. done.
Qed.

(** ** The theorems at concrete inputs *)

(** [seneca.add({sub$: true}, sum)]: the cleaned pattern is empty and the
    action is routed under the empty pattern. *)
Lemma C1_add_empty_pattern_accepted_witness :
  clean ({[ "sub$" := VBool true ]} : msg) = ∅ /\
  api_add sample_nid sample_find defaults root {[ "sub$" := VBool true ]}
    (Some sum_action) None initial
    <> Thrown (internals_error "add_empty_pattern") /\
  exists st',
    api_add sample_nid sample_find defaults root {[ "sub$" := VBool true ]}
      (Some sum_action) None initial = Normal (root, st').
Proof.
  split; [reflexivity|].
  apply (C1_add_empty_pattern_accepted sample_nid sample_find defaults root
           {[ "sub$" := VBool true ]} (Some sum_action) None initial).
  reflexivity.
Defined.

Lemma add_empty_pattern_routed :
  map (fun r => (r.1, am_pattern r.2))
      (st_actrouter (sample_add defaults {[ "sub$" := VBool true ]} sum_action initial))
  = [(∅, "")].
Proof. reflexivity. Qed.

Lemma C2_fixedargs_merge_witness :
  ("x" <> "caller$" \/ debug_act_caller relaxed = false) /\
  get (api_act_args sample_caller relaxed fixed2 {[ "x" := VNum 1 ]}) "x"
  = match fixedargs fixed2 !! "x" with Some v => v | None => get {[ "x" := VNum 1 ]} "x" end.
Proof.
  split; [left; discriminate|].
  apply (C2_fixedargs_merge sample_nid sample_caller relaxed fixed2 {[ "x" := VNum 1 ]}
           None initial "x").
  left; discriminate.
Defined.

(** With [strict.fixedargs] off, [seneca.delegate({x: 2}).act({role:
    'math', x: 1})]: the message [do_act] gets, and the one the handler
    gets, have [x = 2], not the [1] of the caller. *)
Lemma C2_counterexample :
  strict_fixedargs relaxed = false /\
  fixedargs fixed2 !! "x" = Some (VNum 2) /\
  get (api_act_args sample_caller relaxed fixed2 (<["x" := VNum 1]> math)) "x" = VNum 2 /\
  get (api_act_args sample_caller relaxed fixed2 (<["x" := VNum 1]> math)) "x" <> VNum 1 /\
  map (fun h => (h.1, get h.2 "x"))
      (handled (sample_act relaxed fixed2 (<["x" := VNum 1]> math) added))
  = [("(n0)", VNum 2)].
Proof. repeat split; try reflexivity. discriminate. Qed.

Lemma C8_prior_call_witness :
  am_priormeta over_meta = Some math_meta /\
  exists args' : msg,
    delegate_prior root (VStr "T") math over_meta {| chain := []; entry := true; depth := 1 |}
      (<["id$" := VStr "X/T"]> math)
    = PriorAct root math_meta {| chain := ["(n1)"]; entry := false; depth := 2 |} args' /\
    args' !! "id$" = None /\ args' !! "tx$" = Some (VStr "T").
Proof.
  split; [reflexivity|].
  destruct (C8_prior_call sample_nid sample_find sample_find sample_subfind defaults root
              (VStr "T") math over_meta math_meta
              {| chain := []; entry := true; depth := 1 |}
              (<["id$" := VStr "X/T"]> math) None initial eq_refl)
    as (args' & E & Hid & _ & _ & _ & _ & Htx & _).
  exists args'. split; [exact E|]. split; [exact Hid|exact Htx].
Defined.

(** [act({role: 'math', x: 1})] where [bad], which throws, and [good]
    subscribe to [role:math]: both are called at [act-in], the exception of
    [bad] is logged, the handler is called and the continuation gets the
    result. *)
Lemma C9_subscribers_fire_iff_entry_witness :
  dispatched sample_nid defaults root math1 listened /\
  resolves sample_find defaults None (with_default defaults math1) listened math_meta /\
  st_closed listened = false /\
  exists st',
    do_act sample_nid sample_find sample_subfind defaults root None None math1 None listened
    = Normal st' /\
    map (fun c => (c.1.1, get c.1.2 "in$", c.2)) (subscribed st')
    = [("bad", VBool true, VUndef); ("good", VBool true, VUndef)] /\
    sublogs st' = [()] /\
    map fst (handled st') = ["(n0)"] /\
    callbacks st' = [(Now, (ENull, VObj [("a", VNum 2)]))].
Proof.
  assert (Hd : dispatched sample_nid defaults root math1 listened)
    by (split; [eexists _, _, _|]; reflexivity).
  assert (Hres : resolves sample_find defaults None (with_default defaults math1) listened
                   math_meta) by (repeat split; reflexivity).
  split; [exact Hd|]. split; [exact Hres|]. split; [reflexivity|].
  destruct (C9_subscribers_fire_iff_entry sample_nid sample_find sample_subfind defaults root
              math sub_good (api_sub sample_subfind root math sub_bad added)
              root None None math1 None listened math_meta) as (_ & Hrun & _).
  destruct (Hrun Hd Hres eq_refl)
    as (actid & tx & n & st' & Hids & Hdo & _ & Hsub & Hlog & _ & Hh & Hcb & _).
  assert (Ha : actid = "n1/n2" /\ tx = VStr "n2").
  { vm_compute in Hids. split; congruence. }
  destruct Ha as [-> ->].
  exists st'. split; [exact Hdo|].
  split; [rewrite Hsub; vm_compute; reflexivity|].
  split; [rewrite Hlog; vm_compute; reflexivity|].
  split; [rewrite Hh; reflexivity|]. apply Hcb. vm_compute. reflexivity.
Defined.

(** A prior call made through a delegate of [seneca.delegate({meta$:
    {entry: true}})]: the context of the call has [entry = false], the
    message its handler gets has the [meta$] of the fixedargs, and the
    subscriber is called. *)
Lemma C9_counterexample :
  (exists args, entry_prior = PriorAct entry_delegate math_meta in_prior args) /\
  entry in_prior = false /\
  match run_prior sample_nid sample_find sample_subfind defaults entry_prior None listened with
  | Normal st' =>
      map (fun h => (h.1, prop (get h.2 "meta$") "entry")) (handled st')
      = [("(n0)", VBool true)] /\
      map (fun c => c.1.1) (subscribed st') = ["bad"; "good"]
  | Thrown _ => False
  end.
Proof. split; [eexists; reflexivity|]. split; [reflexivity|]. vm_compute. split; reflexivity. Qed.



(** [act({role: 'math', x: 1, id$: 'X/T'})] twice: the second is a replay. *)
Lemma C3_replay_of_composed_id_witness :
  actcache_active defaults = true /\
  get (<["id$" := VStr "X/T"]> (<["x" := VNum 1]> math)) "id$" = VStr ("X" ++ "/" ++ "T") /\
  quiet None /\
  exists st1 e,
    do_act sample_nid sample_find sample_subfind defaults root None None
      (<["id$" := VStr "X/T"]> (<["x" := VNum 1]> math)) None added = Normal st1 /\
    st_actcache st1 !! "X/T" = Some e /\
    exists st2,
      do_act sample_nid sample_find sample_subfind defaults root None None
        (<["id$" := VStr "X/T"]> (<["x" := VNum 1]> math)) None st1 = Normal st2 /\
      handled st2 = handled st1 /\
      callbacks st2 = app (callbacks st1) [(NextTick, ce_result e)] /\
      cached (st_stats_act st2) = S (cached (st_stats_act st1)).
Proof.
  assert (Hq : quiet None) by (intros k t H; discriminate H).
  split; [reflexivity|]. split; [reflexivity|]. split; [exact Hq|].
  destruct (C3_replay_of_composed_id sample_nid sample_find sample_subfind defaults root
              None None
              (<["id$" := VStr "X/T"]> (<["x" := VNum 1]> math))
              (<["id$" := VStr "X/T"]> (<["x" := VNum 1]> math))
              None added "X" "T" eq_refl)
    as (st1 & e & new & Hdo & Hc & _ & _ & Hsecond);
    [discriminate|discriminate|reflexivity|reflexivity|reflexivity|reflexivity|exact Hq
    |left; reflexivity|].
  exists st1, e. split; [exact Hdo|]. split; [exact Hc|].
  destruct (Hsecond root None None None) as (st2 & H2 & Hh & Hcb & Hn & _).
  exists st2. auto.
Defined.

(** [act({role: 'math', x: 1, id$: 'X'})] twice: the handler is called
    twice, both continuations are called at once and [act.cache] stays 0;
    the results are stored under [X/n1] and [X/n3]. *)
Lemma C3_counterexample :
  let m := <["id$" := VStr "X"]> (<["x" := VNum 1]> math) in
  let st2 := sample_act defaults root m (sample_act defaults root m added) in
  actcache_active defaults = true /\
  map fst (handled st2) = ["(n0)"; "(n0)"] /\
  callbacks st2 = [(Now, (ENull, VObj [("a", VNum 2)])); (Now, (ENull, VObj [("a", VNum 2)]))] /\
  cached (st_stats_act st2) = 0%nat /\
  st_actcache st2 !! "X" = None /\
  (ce_result <$> st_actcache st2 !! "X/n1") = Some (ENull, VObj [("a", VNum 2)]) /\
  (ce_result <$> st_actcache st2 !! "X/n3") = Some (ENull, VObj [("a", VNum 2)]).
Proof. cbv zeta. repeat split; reflexivity. Qed.

(** A second [act({role: 'math', x: 1, id$: 'X'})], the first having stored
    its result under [X/n1]: nothing is replayed, the handler is called
    again and the result is stored under another key. *)
Lemma C4_bare_id_misses_cache_witness :
  (ce_result <$> st_actcache acted_once !! "X/n1") = Some (ENull, VObj [("a", VNum 2)]) /\
  slashed acted_once /\
  get bare_id "id$" = VStr "X" /\ "X" <> "" /\ has_slash "X" = false /\
  replayable defaults bare_id acted_once = None /\
  exists tx st',
    do_act sample_nid sample_find sample_subfind defaults root None None bare_id None acted_once
    = Normal st' /\
    cached (st_stats_act st') = cached (st_stats_act acted_once) /\
    (exists callargs, handled st' = app (handled acted_once) [("(n0)", callargs)]) /\
    is_Some (st_actcache st' !! ("X" ++ "/" ++ to_str tx)) /\
    slashed st'.
Proof.
  assert (Hs : slashed acted_once).
  { intros k [e H]. destruct (decide (k = "X/n1")) as [->|Hne]; [reflexivity|].
    assert (Hc : st_actcache acted_once !! k = None).
    { change (st_actcache acted_once)
        with (<["X/n1" := {| ce_result := (ENull, VObj [("a", VNum 2)]);
                             ce_actmeta := Some math_meta |}]> (∅ : gmap string cache_entry)).
      rewrite lookup_insert_ne by done. apply lookup_empty. }
    rewrite Hc in H. discriminate H. }
  split; [reflexivity|]. split; [exact Hs|]. split; [reflexivity|].
  split; [discriminate|]. split; [reflexivity|].
  destruct (C4_bare_id_misses_cache sample_nid sample_find sample_subfind defaults root
              None None bare_id None acted_once "X" Hs)
    as (Hr & _ & tx & xinst & n & st' & Hdo & _ & Hc & _ & Hs' & Hfound);
    [reflexivity|discriminate|reflexivity|].
  split; [exact Hr|]. exists tx, st'.
  destruct (Hfound math_meta) as (Hh & Hstored); [reflexivity|reflexivity|reflexivity|reflexivity|].
  split; [exact Hdo|]. split; [exact Hc|]. split; [exact Hh|].
  split; [apply Hstored; reflexivity|exact Hs'].
Defined.

(** [act({role: 'nope', default$: {ok: true}})] where nothing is added. *)
Lemma C5_no_pattern_matches_witness :
  let m : msg := {[ "role" := VStr "nope"; "default$" := VObj [("ok", VBool true)] ]} in
  dispatched sample_nid defaults root m initial /\
  sample_find (st_actrouter initial) (with_default defaults m) (internal_catchall defaults)
  = None /\
  exists st',
    do_act sample_nid sample_find sample_subfind defaults root None None m None initial
    = Normal st' /\
    callbacks st' = [(Now, (ENull, VObj [("ok", VBool true)]))] /\ died st' = [].
Proof.
  cbv zeta.
  assert (Hd : dispatched sample_nid defaults root
                 {[ "role" := VStr "nope"; "default$" := VObj [("ok", VBool true)] ]} initial)
    by (split; [eexists _, _, _|]; reflexivity).
  split; [exact Hd|]. split; [reflexivity|].
  destruct (C5_no_pattern_matches sample_nid sample_find sample_subfind defaults root None
              {[ "role" := VStr "nope"; "default$" := VObj [("ok", VBool true)] ]}
              None initial Hd)
    as (_ & st' & Hdo & _ & Hrest); [reflexivity|].
  exists st'. split; [exact Hdo|]. exact Hrest.
Defined.

(** With [fatal$] the continuation is not called: the instance dies. With
    [strict.find] off, [default$: 0] is replaced by [{}] and the call
    succeeds, where [act_default_bad] is specified. *)
Lemma C5_counterexample :
  let fatal : msg := {[ "role" := VStr "nope"; "fatal$" := VBool true ]} in
  let zero_default : msg := {[ "role" := VStr "nope"; "default$" := VNum 0 ]} in
  (strict_find defaults = true /\ get fatal "default$" = VUndef /\
   callbacks (sample_act defaults root fatal initial) = [] /\
   died (sample_act defaults root fatal initial) = [internals_error "act_not_found"]) /\
  (strict_find relaxed = false /\
   isPlainObject (get zero_default "default$") || isArray (get zero_default "default$") = false /\
   callbacks (sample_act relaxed root zero_default initial) = [(Now, (ENull, VObj []))] /\
   acterrs (sample_act relaxed root zero_default initial) = []).
Proof. cbv zeta. repeat split; reflexivity. Qed.

(** [act] of [role:math] with a [history$] of sixteen entries, twelve of
    them of the action: [act_loop]; with one of these twelve less, fifteen
    entries of which eleven count, the handler is called. *)
Lemma C6_loop_guard_witness :
  (get (with_history (history_with 12)) "history$" = VArr (history_with 12) /\
   dispatched sample_nid defaults root (with_history (history_with 12)) added /\
   List.length (history_with 12) = 16%nat /\
   List.length (List.filter (matches_action "(n0)") (history_with 12)) = 12%nat /\
   exists st',
     do_act sample_nid sample_find sample_subfind defaults root None None
       (with_history (history_with 12)) None added = Normal st' /\
     handled st' = handled added /\
     exists later, acterrs st' = app (acterrs added) (internals_error "act_loop" :: later)) /\
  (get (with_history (history_with 11)) "history$" = VArr (history_with 11) /\
   dispatched sample_nid defaults root (with_history (history_with 11)) added /\
   List.length (history_with 11) = 15%nat /\
   List.length (List.filter (matches_action "(n0)") (history_with 11)) = 11%nat /\
   exists st' callargs,
     do_act sample_nid sample_find sample_subfind defaults root None None
       (with_history (history_with 11)) None added = Normal st' /\
     handled st' = app (handled added) [("(n0)", callargs)]).
Proof.
  assert (Hd : forall n, dispatched sample_nid defaults root (with_history (history_with n))
                           added)
    by (intros n; split; [eexists _, _, _|]; reflexivity).
  split.
  - split; [reflexivity|]. split; [apply Hd|]. split; [reflexivity|]. split; [reflexivity|].
    destruct (C6_loop_guard sample_nid sample_find sample_subfind defaults root
                None math_meta None (with_history (history_with 12)) None added
                (history_with 12))
      as (_ & _ & _ & _ & _ & Hrun); [reflexivity|].
    destruct (Hrun (Hd 12%nat) eq_refl) as (st' & Hdo & Hrest).
    exists st'. split; [exact Hdo|]. exact Hrest.
  - split; [reflexivity|]. split; [apply Hd|]. split; [reflexivity|]. split; [reflexivity|].
    destruct (C6_loop_guard sample_nid sample_find sample_subfind defaults root
                None math_meta None (with_history (history_with 11)) None added
                (history_with 11))
      as (_ & _ & _ & _ & _ & Hrun); [reflexivity|].
    destruct (Hrun (Hd 11%nat) eq_refl) as (st' & Hdo & Hrest).
    destruct (Hrest eq_refl eq_refl) as (callargs & Hh).
    exists st', callargs. split; [exact Hdo|exact Hh].
Defined.

(** With [strict.maxloop: -1] and [history$: []] the count, 0, exceeds
    [strict.maxloop], and yet the handler is called and no [act_loop] is
    emitted: the check is not made on an empty [history$]. *)
Lemma C6_counterexample :
  let st' := sample_act no_repeat root (with_history []) added in
  get (with_history []) "history$" = VArr [] /\
  (strict_maxloop no_repeat
   <? Z.of_nat (List.length (List.filter (matches_action "(n0)") [])))%Z = true /\
  map fst (handled st') = ["(n0)"] /\
  acterrs st' = [] /\
  callbacks st' = [(Now, (ENull, VObj [("a", VNum 2)]))].
Proof. cbv zeta. repeat split; reflexivity. Qed.

(** Adding [role:math] again on [added]: the first action is the prior and
    the new one is routed. Adding it where the first action has a [handle]:
    [handle] is called with the pattern and the action, and nothing is
    routed. *)
Lemma C7_prior_selection_witness :
  (exists m st1 st',
     add_actmeta sample_nid sample_find defaults root math (Some sum_action) None added
     = Normal (m, true, math, st1) /\
     am_priorpath m = "(n0);" /\ (am_id <$> am_priormeta m) = Some "(n0)" /\
     st_trace st1 = st_trace added /\
     api_add sample_nid sample_find defaults root math (Some sum_action) None added
     = Normal (root, st') /\
     map (fun r => am_id r.2) (st_actrouter st') = ["(n0)"; "(n1)"]) /\
  (exists m st1 st',
     add_actmeta sample_nid sample_find defaults root math (Some sum_action) None closable
     = Normal (m, false, math, st1) /\
     am_priorpath m = "(n0);" /\ am_priormeta m = None /\
     st_trace st1 = app (st_trace closable) [EvHandle "(n0)" math sum_action] /\
     api_add sample_nid sample_find defaults root math (Some sum_action) None closable
     = Normal (root, st') /\
     st_actrouter st' = st_actrouter closable).
Proof.
  split.
  - eexists _, _. 
    pose proof (C7_prior_selection sample_nid sample_find defaults root math (Some sum_action)
                  None added _ _ _ _ eq_refl) as (_ & _ & Hpath & Hprior & _ & Htrace & st' & Hadd & Hr).
    exists st'. split; [reflexivity|]. split; [exact Hpath|].
    split; [exact (f_equal (fmap am_id) Hprior)|]. split; [exact (eq_trans Htrace (app_nil_r _))|].
    split; [exact Hadd|]. exact (f_equal (map (fun r : msg * actmeta => am_id r.2)) Hr).
  - eexists _, _.
    pose proof (C7_prior_selection sample_nid sample_find defaults root math (Some sum_action)
                  None closable _ _ _ _ eq_refl) as (_ & _ & Hpath & Hprior & _ & Htrace & st' & Hadd & Hr).
    exists st'. split; [reflexivity|]. split; [exact Hpath|].
    split; [exact Hprior|]. split; [exact Htrace|].
    split; [exact Hadd|]. exact Hr.
Defined.

(** The flags of the pattern come before the options. With
    [internal.catchall] off, [add({internal$: {catchall: true}}, sum)] takes
    the catch-all as prior; with [strict.add] on, [add({role: 'math', cmd:
    'sum', strict$: {add: false}}, sum)] takes [role:math], whose canonical
    pattern is another, as prior. *)
Lemma C7_counterexample :
  (internal_catchall defaults = false /\
   map (fun r => am_pattern r.2) (st_actrouter catchall_added) = [""] /\
   match add_actmeta sample_nid sample_find defaults root
           {[ "internal$" := VObj [("catchall", VBool true)] ]} (Some sum_action) None catchall_added
   with
   | Normal (m, addroute, _, _) =>
       (am_pattern <$> am_priormeta m) = Some "" /\ am_priorpath m = "(n0);" /\
       addroute = true
   | Thrown _ => False
   end) /\
  (strict_add strict_adding = true /\
   map (fun r => am_pattern r.2) (st_actrouter added) = ["role:math"] /\
   match add_actmeta sample_nid sample_find strict_adding root
           (<["strict$" := VObj [("add", VBool false)]]> math_sum) (Some sum_action) None added
   with
   | Normal (m, addroute, _, _) =>
       am_pattern m = "cmd:sum,role:math" /\
       (am_pattern <$> am_priormeta m) = Some "role:math" /\ am_priorpath m = "(n0);" /\
       addroute = true
   | Thrown _ => False
   end).
Proof. repeat split; reflexivity. Qed.

(** Examples for the further properties. *)

Lemma closed_instance_rejects_witness :
  resolves sample_find defaults (Some math_meta) math1 (with_closed true added) math_meta /\
  st_closed (with_closed true added) = true /\
  handled (execute_action sample_nid sample_find sample_subfind defaults root root
             (Some math_meta) at_entry math1 math1 "X/T" (VStr "T") None
             (with_closed true added)) = [] /\
  callbacks (execute_action sample_nid sample_find sample_subfind defaults root root
               (Some math_meta) at_entry math1 math1 "X/T" (VStr "T") None
               (with_closed true added))
  = [(Now, (EErr (internals_error "instance-closed"), VUndef))].
Proof.
  assert (Hr : resolves sample_find defaults (Some math_meta) math1 (with_closed true added)
                 math_meta) by (split; [reflexivity|]; split; reflexivity).
  split; [exact Hr|]. split; [reflexivity|].
  pose proof (closed_instance_rejects sample_nid sample_find sample_subfind defaults root root
                (Some math_meta) at_entry math1 math1 "X/T" (VStr "T") None
                (with_closed true added) math_meta Hr eq_refl) as H.
  cbv zeta in H.
  change (truthy (get (call_message defaults root math1 "X/T" (VStr "T") math_meta at_entry
                         false) "closing$")) with false in H.
  cbv iota in H.
  destruct H as (Hh & _ & _ & _ & Hrest). split; [exact Hh|].
  destruct (Hrest eq_refl) as (_ & Hc). exact Hc.
Defined.

Lemma strict_result_enforced_witness :
  resolves sample_find defaults (Some (meta_with text_action)) math1 added
    (meta_with text_action) /\
  st_closed added = false /\
  fn_call text_action
    (call_message defaults root math1 "X/T" (VStr "T") (meta_with text_action) at_entry
       false)
  = Done ENull (VStr "text") /\
  is_nullish (VStr "text") = false /\ objarr (VStr "text") = false /\
  truthy (get math1 "fatal$") = false /\
  callbacks (execute_action sample_nid sample_find sample_subfind defaults root root
               (Some (meta_with text_action)) at_entry math1 math1 "X/T" (VStr "T") None added)
  = [(Now, (EErr (internals_error "result_not_objarr"), VStr "text"))].
Proof.
  assert (Hr : resolves sample_find defaults (Some (meta_with text_action)) math1 added
                 (meta_with text_action)) by (split; [reflexivity|]; split; reflexivity).
  split; [exact Hr|]. do 5 (split; [reflexivity|]).
  pose proof (strict_result_enforced sample_nid sample_find sample_subfind defaults root root
                (Some (meta_with text_action)) at_entry math1 math1 "X/T" (VStr "T") None
                added (meta_with text_action) (VStr "text") Hr eq_refl eq_refl eq_refl eq_refl
                eq_refl) as (_ & _ & H).
  change (strict_result defaults &&
          negb (legacy_pattern
                  (call_message defaults root math1 "X/T" (VStr "T") (meta_with text_action)
                     at_entry false))) with true in H.
  cbv iota in H. destruct H as (_ & Hc & _). exact Hc.
Defined.

Lemma falsy_error_is_success_witness :
  resolves sample_find defaults (Some (meta_with odd_action)) math1 added
    (meta_with odd_action) /\
  st_closed added = false /\
  fn_call odd_action
    (call_message defaults root math1 "X/T" (VStr "T") (meta_with odd_action) at_entry
       false)
  = Done EFalsy (VStr "text") /\
  strict_result defaults = true /\
  callbacks (execute_action sample_nid sample_find sample_subfind defaults root root
               (Some (meta_with odd_action)) at_entry math1 math1 "X/T" (VStr "T") None added)
  = [(Now, (ENull, VStr "text"))].
Proof.
  assert (Hr : resolves sample_find defaults (Some (meta_with odd_action)) math1 added
                 (meta_with odd_action)) by (split; [reflexivity|]; split; reflexivity).
  split; [exact Hr|]. do 3 (split; [reflexivity|]).
  destruct (falsy_error_is_success sample_nid sample_find sample_subfind defaults root root
              (Some (meta_with odd_action)) at_entry math1 math1 "X/T" (VStr "T") None
              added (meta_with odd_action) (VStr "text") Hr eq_refl eq_refl)
    as (_ & Hc & _).
  exact Hc.
Defined.

Lemma call_accounting_witness :
  resolves sample_find defaults None math1 added math_meta /\
  st_stats_actmap added !! am_pattern math_meta = Some zero /\
  calls (st_stats_act (execute_action sample_nid sample_find sample_subfind defaults root root
                         None at_entry math1 math1 "X/T" (VStr "T") None added))
  = S (calls (st_stats_act added)) /\
  exists c1,
    st_stats_actmap (execute_action sample_nid sample_find sample_subfind defaults root root
                       None at_entry math1 math1 "X/T" (VStr "T") None added)
      !! am_pattern math_meta = Some c1 /\
    calls c1 = 1%nat /\ (dones c1 + fails c1 = 1)%nat.
Proof.
  assert (Hr : resolves sample_find defaults None math1 added math_meta)
    by (split; [reflexivity|]; split; reflexivity).
  split; [exact Hr|]. split; [reflexivity|].
  destruct (call_accounting sample_nid sample_find sample_subfind defaults root root
              None at_entry math1 math1 "X/T" (VStr "T") None added math_meta zero Hr eq_refl)
    as (Hc & _ & _ & (c1 & H1 & H2 & H3 & _) & _).
  split; [exact Hc|]. exists c1. split; [exact H1|]. split; [exact H2|exact H3].
Defined.

Lemma unknown_action_accounting_witness :
  sample_find (st_actrouter initial) math1 (internal_catchall defaults) = None /\
  fails (st_stats_act (execute_action sample_nid sample_find sample_subfind defaults root root
                         None at_entry math1 math1 "X/T" (VStr "T") None initial))
  = 1%nat /\
  calls (st_stats_act (execute_action sample_nid sample_find sample_subfind defaults root root
                         None at_entry math1 math1 "X/T" (VStr "T") None initial))
  = 0%nat.
Proof.
  split; [reflexivity|].
  destruct (unknown_action_accounting sample_nid sample_find sample_subfind defaults root root
              at_entry math1 math1 "X/T" (VStr "T") None initial eq_refl)
    as (_ & Hc & _ & _ & Hf).
  split; [exact Hf|exact Hc].
Defined.

Lemma throwing_continuation_witness :
  bad_result defaults math1 ENull (VObj [("a", VNum 2)]) = false /\
  throwing (ENull, VObj [("a", VNum 2)]) = Some (new_Error "oops") /\
  actcache_active defaults = true /\
  (ce_result <$>
   st_actcache (act_done sample_subfind defaults root (Some math_meta) at_entry math1 math1
                  math1 "X/T" None (Some throwing) ENull (VObj [("a", VNum 2)]) added)
     !! "X/T")
  = Some (EErr (internals_error_wrap (new_Error "oops") "act_callback"),
          VObj [("a", VNum 2)]).
Proof.
  do 3 (split; [reflexivity|]).
  destruct (throwing_continuation sample_nid sample_find sample_subfind defaults root
              (Some math_meta) at_entry math1 math1 math1 "X/T" None throwing ENull
              (VObj [("a", VNum 2)]) added (new_Error "oops") (or_introl eq_refl) eq_refl
              eq_refl) as (_ & _ & _ & _ & Hc).
  destruct (Hc eq_refl) as (-> & _). reflexivity.
Defined.

Lemma inactive_cache_stores_nothing_witness :
  actcache_active uncached = false /\
  exists st',
    do_act sample_nid sample_find sample_subfind uncached root None None
      (<["id$" := VStr "X/T"]> math1) None added = Normal st' /\
    st_actcache st' = st_actcache added.
Proof.
  split; [reflexivity|]. eexists. split; [reflexivity|].
  eapply (inactive_cache_stores_nothing sample_nid sample_find sample_subfind uncached root
            None None (<["id$" := VStr "X/T"]> math1) None added); reflexivity.
Defined.

Lemma act_throws_on_non_string_id_witness :
  truthy (js_or (get (<["id$" := VNum 5]> math1) "id$")
                (get (<["id$" := VNum 5]> math1) "actid$")) = true /\
  exists ex,
    do_act sample_nid sample_find sample_subfind defaults root None None
      (<["id$" := VNum 5]> math1) None added = Thrown ex.
Proof.
  split; [reflexivity|].
  apply (act_throws_on_non_string_id sample_nid sample_find sample_subfind defaults root
           None None (<["id$" := VNum 5]> math1) None added).
  split; [reflexivity|]. intros s. discriminate.
Defined.

Lemma routed_actions_are_counted_witness :
  reachable sample_nid sample_find sample_subfind sample_caller defaults added /\
  st_actrouter added = [(math, math_meta)] /\
  exists c, st_stats_actmap added !! am_pattern math_meta = Some c.
Proof.
  assert (Hr : reachable sample_nid sample_find sample_subfind sample_caller defaults added).
  { apply (reach_add _ _ _ _ _ initial root math (Some sum_action) None added).
    - apply reach_initial.
    - reflexivity. }
  split; [exact Hr|]. split; [reflexivity|].
  destruct (routed_actions_are_counted sample_nid sample_find sample_subfind sample_caller
              defaults added Hr math math_meta) as (c & Hc & _).
  - apply list_elem_of_singleton. reflexivity.
  - exists c. exact Hc.
Defined.

Lemma add_keeps_counters_witness :
  api_add sample_nid sample_find defaults root math (Some sum_action) None
    (sample_act defaults root math1 added)
  = Normal (root, sample_add defaults math sum_action (sample_act defaults root math1 added)) /\
  (calls <$> st_stats_actmap (sample_act defaults root math1 added) !! "role:math")
  = Some 1%nat /\
  (calls <$> st_stats_actmap (sample_add defaults math sum_action
                                (sample_act defaults root math1 added)) !! "role:math")
  = Some 1%nat.
Proof.
  split; [reflexivity|]. split; [reflexivity|].
  destruct (add_keeps_counters sample_nid sample_find defaults root math (Some sum_action)
              None (sample_act defaults root math1 added)
              (sample_add defaults math sum_action (sample_act defaults root math1 added))
              eq_refl) as (_ & H & _).
  change (canon (filter (fun kv : string * value => isObject kv.2 = false) (clean math)))
    with "role:math" in H.
  rewrite H. reflexivity.
Defined.

Lemma no_subscriber_off_entry_witness :
  entry in_prior = false /\
  call_fixedargs defaults root (VStr "T") math_meta !! "meta$" = None /\
  List.length (st_subrouter subscribed_state) = 1%nat /\
  subscribed (execute_action sample_nid sample_find sample_subfind defaults root root
                (Some math_meta) in_prior math1 math1 "X/T" (VStr "T") None subscribed_state)
  = [] /\
  List.length
    (subscribed (execute_action sample_nid sample_find sample_subfind defaults root root
                   (Some math_meta) at_entry math1 math1 "X/T" (VStr "T") None
                   subscribed_state))
  = 2%nat.
Proof.
  do 3 (split; [reflexivity|]). split; [|reflexivity].
  destruct (no_subscriber_off_entry sample_nid sample_find sample_subfind defaults root root
              (Some math_meta) in_prior math1 math1 "X/T" (VStr "T") None subscribed_state
              math_meta eq_refl eq_refl eq_refl) as (Hs & _).
  exact Hs.
Defined.

Lemma transaction_of_call_witness :
  dispatched sample_nid defaults root (<["tx$" := VStr "T"]> math1) added /\
  resolves sample_find defaults None (with_default defaults (<["tx$" := VStr "T"]> math1))
    added math_meta /\
  st_closed added = false /\
  exists st' cm,
    do_act sample_nid sample_find sample_subfind defaults root None None
      (<["tx$" := VStr "T"]> math1) None added = Normal st' /\
    handled st' = app (handled added) [("(n0)", cm)] /\
    get cm "tx$" = VStr "T" /\
    is_Some (st_actcache st' !! "n1/T").
Proof.
  assert (Hd : dispatched sample_nid defaults root (<["tx$" := VStr "T"]> math1) added)
    by (split; [eexists _, _, _|]; reflexivity).
  assert (Hr : resolves sample_find defaults None
                 (with_default defaults (<["tx$" := VStr "T"]> math1)) added math_meta)
    by (split; [reflexivity|]; split; reflexivity).
  split; [exact Hd|]. split; [exact Hr|]. split; [reflexivity|].
  destruct (transaction_of_call sample_nid sample_find sample_subfind defaults root None None
              (<["tx$" := VStr "T"]> math1) None added math_meta Hd Hr eq_refl)
    as (actid & tx & st' & cm & Hdo & Hh & Htx & _ & Hc & _ & Hfresh).
  destruct (Hfresh "T") as (-> & ->);
    [reflexivity|reflexivity|vm_compute; discriminate|vm_compute; reflexivity
    |reflexivity|discriminate|].
  exists st', cm. split; [exact Hdo|]. split; [exact Hh|]. split; [exact Htx|].
  apply Hc. reflexivity.
Defined.

Lemma delegate_fixedargs_sticky_witness :
  strict_fixedargs defaults = true /\
  fixedargs fixed_strict !! "x" = Some (VNum 2) /\
  fixedargs (delegate_method sample_nid defaults fixed_strict (Some {[ "x" := VNum 3 ]})
               initial).1 !! "x" = Some (VNum 2).
Proof.
  split; [reflexivity|]. split; [reflexivity|].
  destruct (delegate_fixedargs_sticky sample_nid defaults fixed_strict
              (Some {[ "x" := VNum 3 ]}) initial "x" (VNum 2)) as (H & _).
  apply H; reflexivity.
Defined.

Lemma gate_after_ungate_witness :
  fixedargs root !! "gate$" = None /\
  get (fixedargs (gate sample_nid defaults root initial).1) "gate$" = VBool true /\
  get (fixedargs (gate sample_nid defaults (ungate root) initial).1) "gate$" = VBool false.
Proof.
  split; [reflexivity|].
  destruct (gate_after_ungate sample_nid defaults root initial) as (H1 & H2 & _).
  split; [exact (H2 eq_refl)|exact H1].
Defined.

Lemma export_never_falsy_witness :
  truthy (member ({[ "zero" := VNum 0 ]} : msg) "zero") = false /\
  (api_export {[ "zero" := VNum 0 ]} "zero" initial).1 = None /\
  died (api_export {[ "zero" := VNum 0 ]} "zero" initial).2
  = [internals_error "export_not_found"].
Proof.
  split; [reflexivity|].
  destruct (export_never_falsy {[ "zero" := VNum 0 ]} "zero" initial) as (_ & H).
  destruct (api_export {[ "zero" := VNum 0 ]} "zero" initial) as [[v|] st'].
  - destruct H as (-> & Hv & _). discriminate Hv.
  - destruct H as (_ & Hd & _). split; [reflexivity|exact Hd].
Defined.

Lemma depends_dies_once_witness :
  forallb (includes_plugin ["seneca-basic"; "web"])
    [VStr "basic"; VStr "missing"; VStr "other"; VStr "web"] = false /\
  died (api_depends ["seneca-basic"; "web"] "mine"
          (Some [VStr "basic"; VStr "missing"; VStr "other"; VStr "web"]) [] initial)
  = [internals_error "plugin_required"].
Proof.
  split; [reflexivity|].
  destruct (depends_dies_once ["seneca-basic"; "web"] "mine"
              (Some [VStr "basic"; VStr "missing"; VStr "other"; VStr "web"]) [] initial)
    as (_ & H & _).
  destruct (H eq_refl) as (_ & Hd). exact Hd.
Defined.

Lemma decorate_write_once_witness :
  api_decorate "hello" (VNum 1) plain_root
  = Normal {| root_props := <["hello" := VNum 1]> (root_props plain_root);
              decorations := <["hello" := VNum 1]> (decorations plain_root) |} /\
  VNum 1 <> VUndef /\
  exists ex,
    api_decorate "hello" (VNum 2)
      {| root_props := <["hello" := VNum 1]> (root_props plain_root);
         decorations := <["hello" := VNum 1]> (decorations plain_root) |}
    = Thrown ex.
Proof.
  split; [reflexivity|]. split; [discriminate|].
  destruct (decorate_write_once "hello" (VNum 1) plain_root _ eq_refl) as (_ & _ & H).
  apply H. discriminate.
Defined.

Lemma log_level_forced_witness :
  log_method (delegate_log [] (root_log "seneca-id" 0 root)) "warn"
  = Some (log_warn (root_log "seneca-id" 0 root)) /\
  ld_get (log_warn (root_log "seneca-id" 0 root) fixed_strict
            [of_value (VObj [("level", VStr "debug"); ("kind", VStr "act")])]).2 "level"
  = VStr "warn".
Proof.
  split; [reflexivity|].
  destruct (log_level_forced "seneca-id" 0 root [] "warn"
              (log_warn (root_log "seneca-id" 0 root)) fixed_strict
              [of_value (VObj [("level", VStr "debug"); ("kind", VStr "act")])] eq_refl)
    as (_ & H & _).
  exact H.
Defined.

Lemma delegate_log_actid_witness :
  let l := delegate_log [(fixed_strict, "A/T", math_meta); (fixed2, "B/T", over_meta)]
             (root_log "seneca-id" 0 root) in
  log_method l "debug" = Some (log_debug l) /\
  (log_debug l fixed2 [of_value (VObj [("kind", VStr "act")])]).1 = root /\
  ld_get (log_debug l fixed2 [of_value (VObj [("kind", VStr "act")])]).2 "actid"
  = VStr "A/T".
Proof.
  cbv zeta. split; [reflexivity|].
  destruct (delegate_log_actid "seneca-id" 0 root fixed_strict "A/T" math_meta
              [(fixed2, "B/T", over_meta)] "debug"
              (log_debug (delegate_log [(fixed_strict, "A/T", math_meta);
                                        (fixed2, "B/T", over_meta)]
                            (root_log "seneca-id" 0 root)))
              fixed2 [of_value (VObj [("kind", VStr "act")])] eq_refl)
    as (H1 & H2 & _).
  split; [exact H1|exact H2].
Defined.


